(** * The VLC module bank (src/modules/bank.c)

    A shallow embedding of the plug-in bank: reference-counted
    initialisation, static enrolment, the bounded directory walk, the
    plug-in cache consulted by the loader, lazy mapping and the two
    enumeration functions.

    Build configuration modelled: HAVE_DYNAMIC_PLUGINS defined, an ELF
    target (the weak table of static plug-ins may be absent), neither
    OS/2 nor a Windows Store application.  The bank mutex is not modelled:
    the definitions give the sequential behaviour of the functions. *)

From Stdlib Require Import ZArith NArith List String Ascii Bool Lia.
From Stdlib Require Import Permutation Sorted.
Import ListNotations.

Set Implicit Arguments.
Set Warnings "-register-all".

Local Open Scope list_scope.

(* ================================================================= *)
(** ** Data model *)

(** Integers of the C code.  [unsigned] wraps modulo 2^32; the result of
    an [int] subtraction is reduced to the 32-bit two's complement range. *)

Definition UINT_MAX : N := 4294967295.
Definition INT_MAX : Z := 2147483647.
Definition INT_MIN : Z := -2147483648.

Definition wrap_unsigned (n : N) : N := N.modulo n (UINT_MAX + 1).

Definition wrap_int (z : Z) : Z :=
  (Z.modulo (z - INT_MIN) 4294967296 + INT_MIN)%Z.

(** Opaque addresses: a function pointer, a dynamic-linker handle, a
    memory-mapped cache blob. *)
Definition fnptr := nat.
Definition vlc_plugin_cb := nat.
Definition module_handle_t := nat.
Definition block_t := nat.

(** The fields of [module_config_t] read by the bank.  A NULL pointer is
    [None]. *)
Record module_config_t := Build_module_config_t {
  list_count : nat;
  list_psz_cb : option fnptr;
  list_i_cb : option fnptr
}.

(** [module_t].  The chain [submodule], [submodule->next], ... is the list
    [submodule]; [submodule_count] is the counter kept next to it.  The
    back reference [plugin] is the position of the descriptor in the bank
    (see [module_ref] below). *)
Inductive module_t : Type := Build_module_t {
  psz_shortname : string;
  psz_capability : string;
  i_score : Z;
  b_loaded : bool;
  b_unloadable : bool;
  psz_filename : option string;
  handle : option module_handle_t;
  confsize : nat;
  p_config : list module_config_t;
  submodule : list module_t;
  submodule_count : nat
}.

Definition set_b_loaded (b : bool) (m : module_t) : module_t :=
  Build_module_t (psz_shortname m) (psz_capability m) (i_score m) b
    (b_unloadable m) (psz_filename m) (handle m) (confsize m) (p_config m)
    (submodule m) (submodule_count m).

Definition set_b_unloadable (b : bool) (m : module_t) : module_t :=
  Build_module_t (psz_shortname m) (psz_capability m) (i_score m)
    (b_loaded m) b (psz_filename m) (handle m) (confsize m) (p_config m)
    (submodule m) (submodule_count m).

Definition set_psz_filename (f : option string) (m : module_t) : module_t :=
  Build_module_t (psz_shortname m) (psz_capability m) (i_score m)
    (b_loaded m) (b_unloadable m) f (handle m) (confsize m) (p_config m)
    (submodule m) (submodule_count m).

Definition set_handle (h : option module_handle_t) (m : module_t) : module_t :=
  Build_module_t (psz_shortname m) (psz_capability m) (i_score m)
    (b_loaded m) (b_unloadable m) (psz_filename m) h (confsize m)
    (p_config m) (submodule m) (submodule_count m).

(** [vlc_plugin_t]; the [next] link is the list structure of the bank. *)
Record vlc_plugin_t := Build_vlc_plugin_t {
  module : option module_t;
  path : option string;
  mtime : Z;
  size : Z
}.

Definition set_module (m : module_t) (p : vlc_plugin_t) : vlc_plugin_t :=
  Build_vlc_plugin_t (Some m) (path p) (mtime p) (size p).

Definition set_identity (rel : string) (mt sz : Z) (p : vlc_plugin_t)
  : vlc_plugin_t :=
  Build_vlc_plugin_t (module p) (Some rel) mt sz.

(** What [struct stat] tells the walker. *)
Inductive file_kind := S_IFREG | S_IFDIR | S_IFOTHER.

Record stat := Build_stat {
  st_mode : file_kind;
  st_mtime : Z;
  st_size : Z
}.

Inductive cache_mode_t := CACHE_USE | CACHE_RESET | CACHE_IGNORE.

Definition cache_mode_eqb (a b : cache_mode_t) : bool :=
  match a, b with
  | CACHE_USE, CACHE_USE | CACHE_RESET, CACHE_RESET
  | CACHE_IGNORE, CACHE_IGNORE => true
  | _, _ => false
  end.

(** [module_bank_t]: the per-root scanning context ([obj] is left out,
    [size] is the length of [plugins]). *)
Record module_bank_t := Build_module_bank_t {
  base : string;
  mode : cache_mode_t;
  plugins : list vlc_plugin_t;
  cache : list vlc_plugin_t
}.

(** The static [modules] structure. *)
Record modules_t := Build_modules_t {
  libs : list vlc_plugin_t;
  caches : list block_t;
  usage : N
}.

(** Calls that leave the bank: the dynamic linker, descriptor
    destruction, cache persistence, configuration sorting, messages. *)
Inductive msg_level := Dbg | Warn | Err.

Inductive event :=
| EvLoad (file : string) (fast : bool)
| EvUnload (h : option module_handle_t)
| EvDestroy (p : vlc_plugin_t)
| EvCacheSave (root : string) (ps : list vlc_plugin_t)
| EvChainRelease (bs : list block_t)
| EvSortConfig
| EvUnsortConfig
| EvMsg (lvl : msg_level) (text : string).

Record world := Build_world {
  modules : modules_t;
  trace : list event
}.

(** The collaborators and build-time constants that bank.c uses but does
    not define.  [cache_file root] is the cache blob found under a search
    root and the entries it deserialises to, if there is a valid one.
    Allocation is an oracle: [strdup_ok s] tells whether a copy of [s] (by
    strdup or asprintf) can be allocated, [malloc_ok n] whether an array
    of [n] module pointers can. *)
Record env := Build_env {
  LIBEXT : string;
  DIR_SEP : string;
  PATH_SEP : string;
  MODULE_SUFFIX : string;
  vlc_opendir : string -> option (list string);
  vlc_stat : string -> option stat;
  module_Load : string -> bool -> option module_handle_t;
  module_Lookup : module_handle_t -> string -> option vlc_plugin_cb;
  vlc_plugin_describe : vlc_plugin_cb -> option vlc_plugin_t;
  vlc_entry__core : vlc_plugin_cb;
  vlc_static_modules : option (list vlc_plugin_cb);
  cache_file : string -> option (block_t * list vlc_plugin_t);
  module_provides : module_t -> string -> bool;
  var_InheritBool : string -> bool;
  config_GetLibDir : option string;
  getenv : string -> option string;
  strdup_ok : string -> bool;
  malloc_ok : nat -> bool
}.

(* ================================================================= *)
(** ** Outcomes and the state monad of the bank *)

(** A call returns ([Done]), dies on a failed assertion or in abort()
    ([Abort]), or runs into undefined behaviour ([Undefined]).
    [OutOfFuel] only arises in the fuelled walker. *)
Inductive outcome (A : Type) : Type :=
| Done (a : A)
| Abort
| Undefined
| OutOfFuel.

Arguments Abort {A}.
Arguments Undefined {A}.
Arguments OutOfFuel {A}.

Definition M (A : Type) : Type := world -> outcome (A * world).

Definition ret {A} (a : A) : M A := fun w => Done (a, w).

Definition bind {A B} (c : M A) (k : A -> M B) : M B :=
  fun w =>
    match c w with
    | Done (a, w') => k a w'
    | Abort => Abort
    | Undefined => Undefined
    | OutOfFuel => OutOfFuel
    end.

Declare Scope bank_scope.
Delimit Scope bank_scope with bank.

Notation "x <- c ;; k" := (bind c (fun x => k))
  (at level 61, c at next level, right associativity) : bank_scope.
Notation "c ;;; k" := (bind c (fun _ => k))
  (at level 61, right associativity) : bank_scope.
Notation "' pat <- c ;; k" := (bind c (fun x => match x with pat => k end))
  (at level 61, pat pattern, c at next level, right associativity)
  : bank_scope.

Local Open Scope bank_scope.

Definition abort {A} : M A := fun _ => Abort.
Definition undefined {A} : M A := fun _ => Undefined.
Definition out_of_fuel {A} : M A := fun _ => OutOfFuel.

Definition assert (b : bool) : M unit := if b then ret tt else abort.

Definition get_modules : M modules_t := fun w => Done (modules w, w).

Definition put_modules (m : modules_t) : M unit :=
  fun w => Done (tt, Build_world m (trace w)).

Definition emit (e : event) : M unit :=
  fun w => Done (tt, Build_world (modules w) (trace w ++ [e])).

Fixpoint for_each {A} (l : list A) (body : A -> M unit) : M unit :=
  match l with
  | [] => ret tt
  | x :: l' => body x ;;; for_each l' body
  end.

Fixpoint fold_each {A S} (l : list A) (body : S -> A -> M S) (s : S) : M S :=
  match l with
  | [] => ret s
  | x :: l' => s' <- body s x ;; fold_each l' body s'
  end.

(* ================================================================= *)
(** ** C strings *)

Definition strlen (s : string) : nat := String.length s.

(** [s + n]: the string that starts [n] characters into [s]. *)
Fixpoint str_offset (n : nat) (s : string) : string :=
  match n, s with
  | O, _ => s
  | S n', String _ s' => str_offset n' s'
  | S _, EmptyString => EmptyString
  end.

(** [strcmp a b == 0]. *)
Definition strcmp_eq (a b : string) : bool := String.eqb a b.

(** [strncmp a b n == 0]: the first [n] characters agree (or both strings
    end, identical, before that). *)
Definition strncmp_eq (a b : string) (n : nat) : bool :=
  String.eqb (substring 0 n a) (substring 0 n b).

Definition is_delim (delims : string) (c : ascii) : bool :=
  existsb (Ascii.eqb c) (list_ascii_of_string delims).

(** The successive tokens that [strtok_r] yields on [s]: maximal runs of
    characters outside [delims]. [cur] is the token being read. *)
Fixpoint strtok_all (delims : string) (s : string) (cur : string)
  : list string :=
  match s with
  | EmptyString => if (strlen cur =? 0)%nat then [] else [cur]
  | String c s' =>
      if is_delim delims c
      then (if (strlen cur =? 0)%nat then [] else [cur])
           ++ strtok_all delims s' EmptyString
      else strtok_all delims s' (cur ++ String c EmptyString)%string
  end.

(* ================================================================= *)
(** ** The bank *)

Section Bank.

Variable E : env.

Definition msg (lvl : msg_level) (text : string) : M unit :=
  emit (EvMsg lvl text).

Definition module_Unload (h : option module_handle_t) : M unit :=
  emit (EvUnload h).

Definition vlc_plugin_destroy (p : vlc_plugin_t) : M unit :=
  emit (EvDestroy p).

Definition module_StoreBank (lib : vlc_plugin_t) : M unit :=
  m <- get_modules ;;
  put_modules (Build_modules_t (lib :: libs m) (caches m) (usage m)).

(** Registers a statically-linked plug-in. *)
Definition module_InitStatic (entry : vlc_plugin_cb)
  : M (option vlc_plugin_t) :=
  match vlc_plugin_describe E entry with
  | None => ret None
  | Some lib =>
      match module lib with
      | None => abort
      | Some m =>
          ret (Some (set_module
                       (set_b_unloadable false (set_b_loaded true m)) lib))
      end
  end.

Definition module_InitStaticModules : M unit :=
  match vlc_static_modules E with
  | None => ret tt
  | Some table =>
      for_each table (fun entry =>
        lib <- module_InitStatic entry ;;
        match lib with
        | Some lib => module_StoreBank lib
        | None => ret tt
        end)
  end.

Definition entry_name : string := ("vlc_entry" ++ MODULE_SUFFIX E)%string.

(** Loads a dynamically-linked plug-in into memory and initialises it. *)
Definition module_InitDynamic (file : string) (fast : bool)
  : M (option vlc_plugin_t) :=
  emit (EvLoad file fast) ;;;
  match module_Load E file fast with
  | None => ret None
  | Some h =>
      match module_Lookup E h entry_name with
      | None =>
          msg Warn ("cannot find plug-in entry point in " ++ file)%string ;;;
          module_Unload (Some h) ;;; ret None
      | Some entry =>
          match vlc_plugin_describe E entry with
          | None =>
              msg Err ("cannot initialize plug-in " ++ file)%string ;;;
              module_Unload (Some h) ;;; ret None
          | Some plugin =>
              match module plugin with
              | None => abort
              | Some m =>
                  if strdup_ok E file
                  then ret (Some (set_module
                                    (set_b_loaded true
                                       (set_handle (Some h)
                                          (set_psz_filename (Some file) m)))
                                    plugin))
                  else vlc_plugin_destroy plugin ;;;
                       module_Unload (Some h) ;;; ret None
              end
          end
      end
  end.

(** Modelled from the spec: [vlc_cache_lookup] (modules/cache.c) searches
    the list linearly for an entry whose relative path, mtime and size
    match; on a match the entry is detached from the list and returned,
    otherwise the list is left as it is. *)
Fixpoint vlc_cache_lookup (c : list vlc_plugin_t) (rel : string) (st : stat)
  : option vlc_plugin_t * list vlc_plugin_t :=
  match c with
  | [] => (None, [])
  | p :: c' =>
      if match path p with
         | Some q => strcmp_eq q rel
         | None => false
         end && (mtime p =? st_mtime st)%Z && (size p =? st_size st)%Z
      then (Some p, c')
      else let (r, c'') := vlc_cache_lookup c' rel st in (r, p :: c'')
  end.

(** Modelled from the spec: [vlc_cache_load] (modules/cache.c) reads the
    blob of the search root and deserialises its entries; the backing
    buffer is inserted into the list of blobs of the bank.  A missing or
    invalid blob gives the empty list. *)
Definition vlc_cache_load (root : string) : M (list vlc_plugin_t) :=
  match cache_file E root with
  | Some (blob, entries) =>
      m <- get_modules ;;
      put_modules (Build_modules_t (libs m) (blob :: caches m) (usage m)) ;;;
      ret entries
  | None => ret []
  end.

(** Modelled from the spec: [CacheAdd] (modules/cache.c) records a
    descriptor in the plug-in array that a later cache save writes. *)
Definition CacheAdd (b : module_bank_t) (p : vlc_plugin_t) : module_bank_t :=
  Build_module_bank_t (base b) (mode b) (plugins b ++ [p]) (cache b).

Definition set_cache (c : list vlc_plugin_t) (b : module_bank_t)
  : module_bank_t :=
  Build_module_bank_t (base b) (mode b) (plugins b) c.

(** The test of the loop over the configuration items: entry [i] has no
    static list and one of its list callbacks is set. *)
Definition config_has_callback (c : module_config_t) : bool :=
  (list_count c =? 0)%nat
  && (match list_psz_cb c with Some _ => true | None => false end
      || match list_i_cb c with Some _ => true | None => false end).

(** The [for] loop of AllocatePluginFile over items [i .. i + k - 1] of a
    module that is not loaded: [Some true] when an item with a callback
    is found, [Some false] when none is, [None] when the loop reads past
    the end of [p_config]. *)
Fixpoint config_scan (cfg : list module_config_t) (i k : nat) : option bool :=
  match k with
  | O => Some false
  | S k' =>
      match nth_error cfg i with
      | None => None
      | Some c =>
          if config_has_callback c then Some true
          else config_scan cfg (S i) k'
      end
  end.

(** Scans a plug-in from a file. *)
Definition AllocatePluginFile (bank : module_bank_t) (abspath relpath : string)
  (st : stat) : M (Z * module_bank_t) :=
  (* Check our plugins cache first then load plugin if needed *)
  '(plugin, bank) <-
    (if cache_mode_eqb (mode bank) CACHE_USE
     then
       let (hit, rest) := vlc_cache_lookup (cache bank) relpath st in
       let bank := set_cache rest bank in
       match hit with
       | Some c =>
           match module c with
           | None => abort
           | Some m =>
               if strdup_ok E abspath
               then ret (Some (set_module
                                 (set_psz_filename (Some abspath) m) c), bank)
               else vlc_plugin_destroy c ;;; ret (None, bank)
           end
       | None => ret (None, bank)
       end
     else ret (None, bank)) ;;
  plugin <-
    (match plugin with
     | Some p => ret (Some p)
     | None =>
         plugin <- module_InitDynamic abspath true ;;
         (* plugin->path = xstrdup(relpath): xstrdup aborts when it cannot
            allocate, then the stores go through [plugin] *)
         if strdup_ok E relpath
         then
           match plugin with
           | None => undefined
           | Some p =>
               ret (Some (set_identity relpath (st_mtime st) (st_size st) p))
           end
         else abort
     end) ;;
  match plugin with
  | None => ret ((-1)%Z, bank)
  | Some plugin =>
      match module plugin with
      | None => abort
      | Some m =>
          (* For now we force loading if the module's config contains
             callbacks. *)
          plugin <-
            (if b_loaded m then ret (Some plugin)
             else
               match config_scan (p_config m) 0 (confsize m) with
               | None => undefined
               | Some false => ret (Some plugin)
               | Some true =>
                   vlc_plugin_destroy plugin ;;;
                   assert (negb (cache_mode_eqb (mode bank) CACHE_RESET)) ;;;
                   module_InitDynamic abspath false
               end) ;;
          match plugin with
          | None => ret ((-1)%Z, bank)
          | Some plugin =>
              module_StoreBank plugin ;;;
              ret (0%Z,
                   if negb (cache_mode_eqb (mode bank) CACHE_IGNORE)
                   then CacheAdd bank plugin else bank)
          end
      end
  end.

(** The file name test of the walker: "lib*_plugin"LIBEXT. *)
Definition prefix : string := "lib".
Definition suffix : string := ("_plugin" ++ LIBEXT E)%string.

Definition is_plugin_name (file : string) : bool :=
  let len := strlen file in
  (strlen suffix <? len)%nat
  && strncmp_eq file prefix (strlen prefix)
  && strcmp_eq (str_offset (len - strlen suffix) file) suffix.

Definition join (a b : string) : string := (a ++ DIR_SEP E ++ b)%string.

(** One iteration of the readdir loop of AllocatePluginDir, for the entry
    [file]; [recurse] is the recursive call with the decremented depth. *)
Definition AllocatePluginDir_entry
  (recurse : module_bank_t -> string -> option string -> M module_bank_t)
  (reldir : option string) (bank : module_bank_t) (file : string)
  : M module_bank_t :=
  (* Skip ".", ".." *)
  if strcmp_eq file "." || strcmp_eq file ".." then ret bank
  else
    (* Compute path relative to plug-in base directory *)
    let relpath :=
      match reldir with
      | Some d => join d file
      | None => file
      end in
    if negb (strdup_ok E relpath) then ret bank
    else
      (* Compute absolute path *)
      let abspath := join (base bank) relpath in
      if negb (strdup_ok E abspath) then ret bank
      else
        match vlc_stat E abspath with
        | None => ret bank
        | Some st =>
            match st_mode st with
            | S_IFREG =>
                if is_plugin_name file
                then '(_, bank) <- AllocatePluginFile bank abspath relpath st ;;
                     ret bank
                else ret bank
            | S_IFDIR => recurse bank abspath (Some relpath)
            | S_IFOTHER => ret bank
            end
        end.

(** Recursively browses a directory to look for plug-ins.  The recursion
    of the C function is not structural, so the embedding carries fuel:
    one unit per nested call. *)
Fixpoint AllocatePluginDir_fuel (fuel : nat) (bank : module_bank_t)
  (maxdepth : N) (absdir : string) (reldir : option string)
  : M module_bank_t :=
  match fuel with
  | O => out_of_fuel
  | S fuel' =>
      if (maxdepth =? 0)%N then ret bank
      else
        let maxdepth := (maxdepth - 1)%N in
        match vlc_opendir E absdir with
        | None => ret bank
        | Some entries =>
            fold_each entries
              (AllocatePluginDir_entry
                 (fun bank abspath relpath =>
                    AllocatePluginDir_fuel fuel' bank maxdepth abspath relpath)
                 reldir)
              bank
        end
  end.

Definition AllocatePluginDir (bank : module_bank_t) (maxdepth : N)
  (absdir : string) (reldir : option string) : M module_bank_t :=
  AllocatePluginDir_fuel (S (N.to_nat maxdepth)) bank maxdepth absdir reldir.

(** Scans for plug-ins within a file system hierarchy. *)
Definition AllocatePluginPath (root : string) (mode : cache_mode_t)
  : M unit :=
  let bank := Build_module_bank_t root mode [] [] in
  bank <-
    (if cache_mode_eqb mode CACHE_USE
     then entries <- vlc_cache_load root ;; ret (set_cache entries bank)
     else msg Dbg "ignoring plugins cache file" ;;; ret bank) ;;
  msg Dbg ("recursively browsing `" ++ base bank ++ "'")%string ;;;
  (* Don't go deeper than 5 subdirectories *)
  bank <- AllocatePluginDir bank 5 root None ;;
  (* Discard unmatched cache entries *)
  for_each (cache bank) vlc_plugin_destroy ;;;
  if cache_mode_eqb mode CACHE_RESET
  then emit (EvCacheSave root (plugins bank))
  else ret tt.

(** Enumerates all dynamic plug-ins that can be found. *)
Definition AllocateAllPlugins : M unit :=
  let mode :=
    if negb (var_InheritBool E "plugins-cache") then CACHE_IGNORE
    else if var_InheritBool E "reset-plugins-cache" then CACHE_RESET
    else CACHE_USE in
  match config_GetLibDir E with
  | Some vlcpath =>
      let paths := (vlcpath ++ DIR_SEP E ++ "plugins")%string in
      if strdup_ok E paths then AllocatePluginPath paths mode else ret tt
  | None => ret tt
  end ;;;
  (* If the user provided a plugin path, we add it to the list *)
  match getenv E "VLC_PLUGIN_PATH" with
  | None => ret tt
  | Some paths =>
      if negb (strdup_ok E paths) then ret tt
      else
        for_each (strtok_all (PATH_SEP E) paths EmptyString)
          (fun p => AllocatePluginPath p mode)
  end.

(** Init bank: seeds the bank with the core module on first use. *)
Definition module_InitBank : M unit :=
  m <- get_modules ;;
  (if (usage m =? 0)%N
   then
     plugin <- module_InitStatic (vlc_entry__core E) ;;
     match plugin with
     | None => abort              (* assert(plugin != NULL) *)
     | Some p => module_StoreBank p
     end ;;;
     emit EvSortConfig
   else ret tt) ;;;
  m <- get_modules ;;
  put_modules (Build_modules_t (libs m) (caches m)
                 (wrap_unsigned (usage m + 1))).

(** Unloads all unused plugin modules and empties the module bank when
    the last user leaves.  [b_plugins] only tells whether the caller
    still holds the bank lock. *)
Definition module_EndBank (b_plugins : bool) : M unit :=
  m <- get_modules ;;
  assert (0 <? usage m)%N ;;;
  let u := (usage m - 1)%N in
  '(libs, caches) <-
    (if (u =? 0)%N
     then emit EvUnsortConfig ;;;
          put_modules (Build_modules_t [] [] u) ;;;
          ret (libs m, caches m)
     else put_modules (Build_modules_t (libs m) (caches m) u) ;;;
          ret ([], [])) ;;
  for_each libs (fun lib =>
    match module lib with
    | None => abort
    | Some mdl =>
        if b_loaded mdl && b_unloadable mdl
        then module_Unload (handle mdl) ;;;
             vlc_plugin_destroy (set_module (set_b_loaded false mdl) lib)
        else vlc_plugin_destroy lib
    end) ;;;
  emit (EvChainRelease caches).

(** *** Enumeration *)

(** A table of module pointers: a cell is [None] until it is written. *)
Definition table := list (option module_t).

Definition realloc (tab : table) (n : nat) : table :=
  (firstn n tab ++ repeat None (n - List.length tab))%list.

Fixpoint upd {A} (l : list A) (i : nat) (x : A) : list A :=
  match l, i with
  | [], _ => []
  | _ :: l', O => x :: l'
  | y :: l', S i' => y :: upd l' i' x
  end.

(** [tab[i] = m]; writing past the end of the table is [None]. *)
Definition store (tab : table) (i : nat) (m : module_t) : option table :=
  if (i <? List.length tab)%nat then Some (upd tab i (Some m)) else None.

(** [for (subm = mod->submodule; subm; subm = subm->next) tab[i++] = subm] *)
Fixpoint store_chain (tab : table) (i : nat) (subs : list module_t)
  : option (table * nat) :=
  match subs with
  | [] => Some (tab, i)
  | s :: subs' =>
      match store tab i s with
      | None => None
      | Some tab' => store_chain tab' (S i) subs'
      end
  end.

Fixpoint module_list_get_loop (ls : list vlc_plugin_t) (tab : table)
  (i : nat) : outcome (option table * nat) :=
  match ls with
  | [] => Done (match tab with [] => None | _ => Some tab end, i)
  | lib :: ls' =>
      match module lib with
      | None => Abort
      | Some mdl =>
          let n := (i + 1 + submodule_count mdl)%nat in
          if malloc_ok E n
          then
            match store (realloc tab n) i mdl with
            | None => Undefined
            | Some tab1 =>
                match store_chain tab1 (S i) (submodule mdl) with
                | None => Undefined
                | Some (tab2, i') => module_list_get_loop ls' tab2 i'
                end
            end
          else Done (None, 0%nat)
      end
  end.

(** Gets the flat list of VLC modules: the table (NULL is [None]) and the
    number stored through [n]. *)
Definition module_list_get : M (option table * nat) :=
  fun w =>
    match module_list_get_loop (libs (modules w)) [] 0 with
    | Done r => Done (r, w)
    | Abort => Abort
    | Undefined => Undefined
    | OutOfFuel => OutOfFuel
    end.

(** Loads module descriptions for all available plugins. *)
Definition module_LoadPlugins : M nat :=
  m <- get_modules ;;
  (if (usage m =? 1)%N
   then module_InitStaticModules ;;;
        msg Dbg "searching plug-in modules" ;;;
        AllocateAllPlugins ;;;
        emit EvUnsortConfig ;;;
        emit EvSortConfig
   else ret tt) ;;;
  '(_, count) <- module_list_get ;;
  msg Dbg "plug-ins loaded: %zu modules" ;;;
  ret count.

Definition modulecmp (a b : module_t) : Z :=
  wrap_int (i_score b - i_score a).

(** libc's [qsort], as an insertion sort that places [x] before [y] when
    the comparison function returns a value that is not positive. *)
Fixpoint qsort_insert {A} (cmp : A -> A -> Z) (x : A) (l : list A) : list A :=
  match l with
  | [] => [x]
  | y :: l' =>
      if (cmp x y <=? 0)%Z then x :: y :: l'
      else y :: qsort_insert cmp x l'
  end.

Fixpoint qsort {A} (cmp : A -> A -> Z) (l : list A) : list A :=
  match l with
  | [] => []
  | x :: l' => qsort_insert cmp x (qsort cmp l')
  end.

(** The modules of one descriptor in table order. *)
Definition plugin_modules (mdl : module_t) : list module_t :=
  mdl :: submodule mdl.

(** First pass of module_list_cap: [n++] for every provider. *)
Fixpoint count_cap (cap : string) (ls : list vlc_plugin_t) (n : nat)
  : outcome nat :=
  match ls with
  | [] => Done n
  | lib :: ls' =>
      match module lib with
      | None => Abort
      | Some mdl =>
          count_cap cap ls'
            (fold_left
               (fun n m => if module_provides E m cap then S n else n)
               (plugin_modules mdl) n)
      end
  end.

(** Second pass: [*(tab++) = m] for every provider. *)
Fixpoint fill_chain (cap : string) (tab : table) (i : nat)
  (ms : list module_t) : option (table * nat) :=
  match ms with
  | [] => Some (tab, i)
  | m :: ms' =>
      if module_provides E m cap
      then match store tab i m with
           | None => None
           | Some tab' => fill_chain cap tab' (S i) ms'
           end
      else fill_chain cap tab i ms'
  end.

Fixpoint fill_cap (cap : string) (ls : list vlc_plugin_t) (tab : table)
  (i : nat) : outcome (table * nat) :=
  match ls with
  | [] => Done (tab, i)
  | lib :: ls' =>
      match module lib with
      | None => Abort
      | Some mdl =>
          match fill_chain cap tab i (plugin_modules mdl) with
          | None => Undefined
          | Some (tab', i') => fill_cap cap ls' tab' i'
          end
      end
  end.

(** The modules held by a table whose cells are all written. *)
Fixpoint table_contents (tab : table) : option (list module_t) :=
  match tab with
  | [] => Some []
  | None :: _ => None
  | Some m :: tab' =>
      match table_contents tab' with
      | None => None
      | Some l => Some (m :: l)
      end
  end.

Definition module_list_cap_pure (ls : list vlc_plugin_t) (cap : string)
  : outcome (option (list module_t) * Z) :=
  match count_cap cap ls 0 with
  | Done n =>
      if malloc_ok E n
      then
        match fill_cap cap ls (repeat None n) 0 with
        | Done (tab, i) =>
            if (i =? n)%nat          (* assert (tab == *list + n) *)
            then match table_contents tab with
                 | None => Undefined
                 | Some l => Done (Some (qsort modulecmp l), Z.of_nat n)
                 end
            else Abort
        | Abort => Abort
        | Undefined => Undefined
        | OutOfFuel => OutOfFuel
        end
      else Done (None, (-1)%Z)
  | Abort => Abort
  | Undefined => Undefined
  | OutOfFuel => OutOfFuel
  end.

(** Builds a sorted list of all VLC modules with a given capability:
    the table stored through [list] (NULL is [None]) and the result. *)
Definition module_list_cap (cap : string)
  : M (option (list module_t) * Z) :=
  fun w =>
    match module_list_cap_pure (libs (modules w)) cap with
    | Done r => Done (r, w)
    | Abort => Abort
    | Undefined => Undefined
    | OutOfFuel => OutOfFuel
    end.

(** *** Lazy mapping *)

(** A [module_t *] handed to module_Map: the descriptor that the module's
    [plugin] field points to, as a position in [modules.libs]. *)
Record module_ref := Build_module_ref {
  ref_plugin : nat
}.

(** Modelled from the spec: [CacheMerge] (modules/cache.c) transfers the
    pointers of the freshly loaded image, among them the linker handle,
    into the cached module and marks it loaded. *)
Definition CacheMerge (cached fresh : module_t) : module_t :=
  set_b_loaded true (set_handle (handle fresh) cached).

(** Makes sure the module is loaded in memory. *)
Definition module_Map (r : module_ref) : M Z :=
  m <- get_modules ;;
  match nth_error (libs m) (ref_plugin r) with
  | None => abort                        (* assert(plugin != NULL) *)
  | Some plugin =>
      match module plugin with
      | None => abort
      | Some mdl =>
          if negb (b_loaded mdl)
          then
            match psz_filename mdl with
            | None => abort
            | Some file =>
                uncache <- module_InitDynamic file false ;;
                match uncache with
                | Some u =>
                    match module u with
                    | None => abort
                    | Some fresh =>
                        m <- get_modules ;;
                        put_modules
                          (Build_modules_t
                             (upd (libs m) (ref_plugin r)
                                (set_module (CacheMerge mdl fresh) plugin))
                             (caches m) (usage m)) ;;;
                        vlc_plugin_destroy
                          (set_module (set_b_loaded false fresh) u) ;;;
                        ret 0%Z
                    end
                | None =>
                    msg Err ("corrupt module: " ++ file)%string ;;;
                    ret (-1)%Z
                end
            end
          else ret 0%Z
      end
  end.

End Bank.


(* ================================================================= *)
(** ** Notions used by the statements *)

Definition add_event (w : world) (e : event) : world :=
  Build_world (modules w) (trace w ++ [e])%list.

Definition store_lib (p : vlc_plugin_t) (w : world) : world :=
  Build_world
    (Build_modules_t (p :: libs (modules w)) (caches (modules w))
       (usage (modules w)))
    (trace w).

(** The number of calls to the dynamic linker's Load in a trace. *)
Definition is_load (e : event) : bool :=
  match e with
  | EvLoad _ _ => true
  | _ => false
  end.

Definition count_loads (tr : list event) : nat :=
  List.length (filter is_load tr).

(** *** The walker *)

(** The paths that the walker computes for the entry [file] of the
    directory [reldir]. *)
Definition entry_relpath (E : env) (reldir : option string) (file : string)
  : string :=
  match reldir with
  | Some d => join E d file
  | None => file
  end.

Definition entry_abspath (E : env) (bank : module_bank_t)
  (reldir : option string) (file : string) : string :=
  join E (base bank) (entry_relpath E reldir file).

(** [file] is an entry that the walker gets to look at: not "." or "..",
    both paths can be allocated and stat() answers [st]. *)
Definition visible_entry (E : env) (bank : module_bank_t)
  (reldir : option string) (file : string) (st : stat) : Prop :=
  file <> "."%string /\ file <> ".."%string
  /\ strdup_ok E (entry_relpath E reldir file) = true
  /\ strdup_ok E (entry_abspath E bank reldir file) = true
  /\ vlc_stat E (entry_abspath E bank reldir file) = Some st.

(** The file name pattern lib*_plugin<libext>. *)
Definition plugin_pattern (E : env) (file : string) : Prop :=
  exists mid : string,
    file = ("lib" ++ mid ++ "_plugin" ++ LIBEXT E)%string.

(** What the walker does with a candidate file: scan it, drop the
    result code. *)
Definition scan_file (E : env) (bank : module_bank_t)
  (reldir : option string) (file : string) (st : stat) : M module_bank_t :=
  bind (AllocatePluginFile E bank (entry_abspath E bank reldir file)
          (entry_relpath E reldir file) st)
       (fun r => ret (snd r)).

(** The entries of a directory listing other than "." and "..". *)
Definition real_entries (l : list string) : list string :=
  filter (fun f => negb (strcmp_eq f "." || strcmp_eq f "..")) l.

(** The directory that lies below [reldir] along [dirs]. *)
Fixpoint chain_reldir (E : env) (reldir : option string) (dirs : list string)
  : option string :=
  match dirs with
  | [] => reldir
  | d :: ds => chain_reldir E (Some (entry_relpath E reldir d)) ds
  end.

(** [absdir] holds the single directory [d1], which holds the single
    directory [d2], ... and the last one holds the single regular file
    [file], whose name has the plug-in pattern: [file] lies under
    [length dirs] nested subdirectories of [absdir]. *)
Fixpoint chain (E : env) (bank : module_bank_t) (absdir : string)
  (reldir : option string) (dirs : list string) (file : string) (st : stat)
  : Prop :=
  match dirs with
  | [] =>
      (exists l, vlc_opendir E absdir = Some l /\ real_entries l = [file])
      /\ visible_entry E bank reldir file st
      /\ st_mode st = S_IFREG
      /\ plugin_pattern E file
  | d :: ds =>
      (exists l, vlc_opendir E absdir = Some l /\ real_entries l = [d])
      /\ (exists sd, visible_entry E bank reldir d sd /\ st_mode sd = S_IFDIR)
      /\ chain E bank (entry_abspath E bank reldir d)
           (Some (entry_relpath E reldir d)) ds file st
  end.

(** The world after the two debug messages that AllocatePluginPath
    prints before it walks [root] without a cache. *)
Definition browsing (w : world) (root : string) : world :=
  add_event (add_event w (EvMsg Dbg "ignoring plugins cache file"))
    (EvMsg Dbg ("recursively browsing `" ++ root ++ "'")%string).

(** Computations that never run out of fuel. *)
Definition fuelled {A} (c : M A) : Prop := forall w, c w <> OutOfFuel.

(** *** The file scan *)

(** The lookup in the cache finds nothing for this file, or is not
    attempted. *)
Definition cache_miss (bank : module_bank_t) (relpath : string) (st : stat)
  : Prop :=
  mode bank <> CACHE_USE
  \/ fst (vlc_cache_lookup (cache bank) relpath st) = None.

(** The primary module declares a configuration item with a list
    callback (an item without static list whose callback is set). *)
Definition has_list_callback (m : module_t) : Prop :=
  exists j cfg, (j < confsize m)%nat
                /\ nth_error (p_config m) j = Some cfg
                /\ config_has_callback cfg = true.

(** *** Descriptors and their modules *)

(** The modules of a descriptor, primary module first, and of a bank in
    list order. *)
Definition descriptor_modules (p : vlc_plugin_t) : list module_t :=
  match module p with
  | Some m => plugin_modules m
  | None => []
  end.

Definition all_modules (ls : list vlc_plugin_t) : list module_t :=
  flat_map descriptor_modules ls.

(** The sum over the descriptors of 1 + submodule_count. *)
Definition descriptor_count (p : vlc_plugin_t) : nat :=
  match module p with
  | Some m => 1 + submodule_count m
  | None => 0
  end.

Definition total_modules (ls : list vlc_plugin_t) : nat :=
  list_sum (map descriptor_count ls).

Definition has_module (p : vlc_plugin_t) : Prop :=
  exists m, module p = Some m.

(** The counter of a descriptor agrees with its submodule chain. *)
Definition count_ok (p : vlc_plugin_t) : Prop :=
  forall m, module p = Some m ->
            submodule_count m = List.length (submodule m).

(** The data-model invariant of a descriptor: it has a primary module,
    and [submodule_count] is the length of the submodule chain. *)
Definition wf_plugin (p : vlc_plugin_t) : Prop :=
  exists m, module p = Some m
            /\ submodule_count m = List.length (submodule m).

Definition wf_bank (w : world) : Prop :=
  Forall wf_plugin (libs (modules w)).

(** The describe protocol and the cache files only produce descriptors
    whose counter agrees with their chain. *)
Definition env_wf (E : env) : Prop :=
  (forall entry p, vlc_plugin_describe E entry = Some p -> count_ok p)
  /\ (forall root blob entries,
        cache_file E root = Some (blob, entries) -> Forall count_ok entries).

(** [c] keeps the descriptors of the bank well formed and returns a
    value that satisfies [Q]. *)
Definition keeps {A} (c : M A) (Q : A -> Prop) : Prop :=
  forall w a w', wf_bank w -> c w = Done (a, w') -> wf_bank w' /\ Q a.

(** The table that holds the modules [ms]; the empty table is NULL. *)
Definition table_of (ms : list module_t) : option table :=
  match ms with
  | [] => None
  | _ => Some (map Some ms)
  end.

(** *** Listing by capability *)

(** The modules of the bank that provide [cap], in bank order. *)
Definition providers (E : env) (cap : string) (ls : list vlc_plugin_t)
  : list module_t :=
  filter (fun m => module_provides E m cap) (all_modules ls).

(** Scores whose differences are representable in an [int]. *)
Definition scores_in_range (l : list module_t) : Prop :=
  forall a b, In a l -> In b l ->
    (INT_MIN <= i_score b - i_score a <= INT_MAX)%Z.

(** From the highest score to the lowest. *)
Definition by_score_desc (a b : module_t) : Prop :=
  (i_score b <= i_score a)%Z.

(** *** The life cycle *)

(** The bank invariant: [usage] is a value of type unsigned, and it is
    zero exactly when the bank holds neither descriptors nor blobs. *)
Definition bank_inv (m : modules_t) : Prop :=
  (usage m <= UINT_MAX)%N
  /\ (usage m = 0%N <-> libs m = [] /\ caches m = []).

(** [w'] keeps the users of [w] and all its descriptors and blobs,
    possibly with new ones in front. *)
Definition grows (w w' : world) : Prop :=
  usage (modules w') = usage (modules w)
  /\ (exists l, libs (modules w') = (l ++ libs (modules w))%list)
  /\ (exists c, caches (modules w') = (c ++ caches (modules w))%list).

Definition growing {A} (c : M A) : Prop :=
  forall w a w', c w = Done (a, w') -> grows w w'.

(** Matched InitBank+LoadPlugins / EndBank pairs, nested and in
    sequence: [Pair inner next] opens a pair, runs [inner] inside it,
    closes it and goes on with [next]. *)
Inductive balanced : Type :=
| Idle
| Pair (inner next : balanced).

(** Runs the pairs and reports the bank as it stands after each
    operation. *)
Fixpoint run_balanced (E : env) (b : balanced) : M (list modules_t) :=
  match b with
  | Idle => ret []
  | Pair inner next =>
      bind (module_InitBank E) (fun _ =>
      bind get_modules (fun m1 =>
      bind (module_LoadPlugins E) (fun _ =>
      bind get_modules (fun m2 =>
      bind (run_balanced E inner) (fun seen =>
      bind (module_EndBank true) (fun _ =>
      bind get_modules (fun m3 =>
      bind (run_balanced E next) (fun seen' =>
      ret (m1 :: m2 :: seen ++ m3 :: seen')%list))))))))
  end.

(** The number of pairs. *)
Fixpoint pairs (b : balanced) : nat :=
  match b with
  | Idle => 0
  | Pair inner next => S (pairs inner + pairs next)
  end.

(** [n] pairs inside one another, and [n] pairs one after the other. *)
Fixpoint nested_pairs (n : nat) : balanced :=
  match n with
  | O => Idle
  | S n' => Pair (nested_pairs n') Idle
  end.

Fixpoint successive_pairs (n : nat) : balanced :=
  match n with
  | O => Idle
  | S n' => Pair Idle (successive_pairs n')
  end.

(** What module_EndBank does to the descriptors it has detached. *)
Definition teardown_events (ls : list vlc_plugin_t) : list event :=
  flat_map
    (fun lib =>
       match module lib with
       | Some mdl =>
           if b_loaded mdl && b_unloadable mdl
           then [ EvUnload (handle mdl);
                  EvDestroy (set_module (set_b_loaded false mdl) lib) ]
           else [ EvDestroy lib ]
       | None => []
       end)
    ls.

(* ================================================================= *)
(** ** Notions used by the further properties *)

(** *** Events of a trace *)

Definition is_unload (e : event) : bool :=
  match e with
  | EvUnload _ => true
  | _ => false
  end.

Definition is_destroy (e : event) : bool :=
  match e with
  | EvDestroy _ => true
  | _ => false
  end.

Definition is_cache_save (e : event) : bool :=
  match e with
  | EvCacheSave _ _ => true
  | _ => false
  end.

(** *** Static plug-ins *)

(** The descriptors that the entry points of a table describe, in table
    order; an entry point that fails contributes nothing. *)
Definition described (E : env) (table : list vlc_plugin_cb)
  : list vlc_plugin_t :=
  flat_map
    (fun entry =>
       match vlc_plugin_describe E entry with
       | Some lib => [lib]
       | None => []
       end)
    table.

(** A descriptor whose primary module is marked loaded and not
    unloadable. *)
Definition static_stamp (p : vlc_plugin_t) : vlc_plugin_t :=
  match module p with
  | Some m => set_module (set_b_unloadable false (set_b_loaded true m)) p
  | None => p
  end.

(** The primary module of a descriptor is resident for good: loaded and
    not unloadable. *)
Definition resident (p : vlc_plugin_t) : Prop :=
  exists m, module p = Some m /\ b_loaded m = true /\ b_unloadable m = false.

(** The primary modules of the descriptors that module_EndBank has to
    unload: loaded and unloadable. *)
Definition unload_due (ls : list vlc_plugin_t) : list module_t :=
  flat_map
    (fun lib =>
       match module lib with
       | Some m => if b_loaded m && b_unloadable m then [m] else []
       | None => []
       end)
    ls.

(** Events that concern no linker handle: a warning or an error
    message, the destruction of a descriptor. *)
Definition is_note (e : event) : bool :=
  match e with
  | EvMsg Warn _ | EvMsg Err _ | EvDestroy _ => true
  | _ => false
  end.

(** *** The scan of one file *)

(** What the scan of the file [abspath] may emit: calls to the dynamic
    linker's Load for that very file, Unload calls, the destruction of a
    descriptor, warnings and errors. *)
Definition file_event (abspath : string) (e : event) : Prop :=
  match e with
  | EvLoad f _ => f = abspath
  | EvUnload _ | EvDestroy _ | EvMsg Warn _ | EvMsg Err _ => True
  | _ => False
  end.

(** The primary module of [p] knows the file it comes from. *)
Definition knows_file (f : string) (p : vlc_plugin_t) : Prop :=
  exists m, module p = Some m /\ psz_filename m = Some f.

(** [p] comes fresh from the dynamic loader: its primary module is
    loaded, holds a linker handle and knows its file, and the descriptor
    is stamped with the relative path, the mtime and the size of the
    file. *)
Definition fresh_from (abspath relpath : string) (st : stat)
  (p : vlc_plugin_t) : Prop :=
  exists m h,
    module p = Some m /\ b_loaded m = true /\ handle m = Some h
    /\ psz_filename m = Some abspath
    /\ path p = Some relpath
    /\ mtime p = st_mtime st /\ size p = st_size st.

(** The first [confsize] configuration items of [m] exist and none of
    them has a list callback. *)
Definition no_list_callback (m : module_t) : Prop :=
  (confsize m <= List.length (p_config m))%nat
  /\ forall j cfg, (j < confsize m)%nat ->
                   nth_error (p_config m) j = Some cfg ->
                   config_has_callback cfg = false.

(** *** The walk *)

(** A path that a walk below [root] may hand to the dynamic linker: the
    path of a regular file whose name has the plug-in pattern. *)
Definition candidate_path (E : env) (root f : string) : Prop :=
  exists reldir file st,
    f = join E root (entry_relpath E reldir file)
    /\ plugin_pattern E file
    /\ vlc_stat E f = Some st /\ st_mode st = S_IFREG.

(** What a walk below [root] may emit: Load calls for candidate files,
    Unload calls, the destruction of a descriptor, warnings and
    errors. *)
Definition walk_event (E : env) (root : string) (e : event) : Prop :=
  match e with
  | EvLoad f _ => candidate_path E root f
  | EvUnload _ | EvDestroy _ | EvMsg Warn _ | EvMsg Err _ => True
  | _ => False
  end.

(** The primary module of [p] knows its file, a candidate below
    [root]. *)
Definition enrolled_from (E : env) (root : string) (p : vlc_plugin_t)
  : Prop :=
  exists f, knows_file f p /\ candidate_path E root f.

(** [p] comes fresh from the dynamic loader, for a file below [root]
    that stat() describes as the descriptor says. *)
Definition loaded_from (E : env) (root : string) (p : vlc_plugin_t)
  : Prop :=
  exists rel st,
    vlc_stat E (join E root rel) = Some st
    /\ fresh_from (join E root rel) rel st p.

(** What a walk below [root] in mode [md] enrols. *)
Definition enrolled_by (E : env) (root : string) (md : cache_mode_t)
  (p : vlc_plugin_t) : Prop :=
  enrolled_from E root p /\ (md <> CACHE_USE -> loaded_from E root p).

(** The scanning context and the world before and after a walk below
    [root] in mode [md]: the descriptors [new], in the order of their
    discovery, were put on the bank list and, unless the mode is
    CACHE_IGNORE, recorded for the cache save; the list of cache entries
    is only touched in mode CACHE_USE. *)
Definition walked (E : env) (root : string) (md : cache_mode_t)
  (bank : module_bank_t) (w : world) (bank' : module_bank_t) (w' : world)
  : Prop :=
  base bank' = base bank /\ mode bank' = mode bank
  /\ (md <> CACHE_USE -> cache bank' = cache bank)
  /\ usage (modules w') = usage (modules w)
  /\ caches (modules w') = caches (modules w)
  /\ exists new evs,
       libs (modules w') = (rev new ++ libs (modules w))%list
       /\ plugins bank'
          = (plugins bank
             ++ (if cache_mode_eqb md CACHE_IGNORE then [] else new))%list
       /\ Forall (enrolled_by E root md) new
       /\ trace w' = (trace w ++ evs)%list
       /\ Forall (walk_event E root) evs.

(** An entry of a directory that a walk with depth argument [maxdepth]
    passes over: ".", "..", a name for which a path cannot be
    allocated, an entry that stat() rejects, an entry that is neither a
    regular file nor a directory, a regular file whose name does not
    have the plug-in pattern, or a directory when the depth is used
    up. *)
Definition passed_over (E : env) (bank : module_bank_t) (maxdepth : N)
  (reldir : option string) (file : string) : Prop :=
  file = "."%string \/ file = ".."%string
  \/ strdup_ok E (entry_relpath E reldir file) = false
  \/ strdup_ok E (entry_abspath E bank reldir file) = false
  \/ vlc_stat E (entry_abspath E bank reldir file) = None
  \/ exists st,
       vlc_stat E (entry_abspath E bank reldir file) = Some st
       /\ (st_mode st = S_IFOTHER
           \/ (st_mode st = S_IFREG /\ ~ plugin_pattern E file)
           \/ (st_mode st = S_IFDIR /\ maxdepth = 1%N)).

(** *** The scan of the search roots *)

(** The message that announces the walk of a search root. *)
Definition browse_msg (root : string) : event :=
  EvMsg Dbg ("recursively browsing `" ++ root ++ "'")%string.

(** [s] begins with [p]. *)
Fixpoint starts_with (p s : string) : bool :=
  match p, s with
  | EmptyString, _ => true
  | String a p', String b s' => Ascii.eqb a b && starts_with p' s'
  | String _ _, EmptyString => false
  end.

Definition is_browse_msg (e : event) : bool :=
  match e with
  | EvMsg Dbg t => starts_with "recursively browsing `" t
  | _ => false
  end.

(** The search roots: the plugins directory below the library
    directory, then the directories that VLC_PLUGIN_PATH lists. *)
Definition default_root (E : env) : list string :=
  match config_GetLibDir E with
  | Some vlcpath =>
      if strdup_ok E (vlcpath ++ DIR_SEP E ++ "plugins")%string
      then [(vlcpath ++ DIR_SEP E ++ "plugins")%string]
      else []
  | None => []
  end.

Definition user_roots (E : env) : list string :=
  match getenv E "VLC_PLUGIN_PATH" with
  | Some paths =>
      if strdup_ok E paths
      then strtok_all (PATH_SEP E) paths EmptyString
      else []
  | None => []
  end.

Definition search_roots (E : env) : list string :=
  (default_root E ++ user_roots E)%list.

(** No character of [s] is one of [delims]. *)
Definition delim_free (delims s : string) : Prop :=
  Forall (fun c => is_delim delims c = false) (list_ascii_of_string s).

(** The primary module of [p] is loaded and holds a linker handle. *)
Definition holds_handle (p : vlc_plugin_t) : Prop :=
  exists m h, module p = Some m /\ b_loaded m = true /\ handle m = Some h.

(** Events of a scan that goes without the cache: linker calls, the
    destruction of descriptors, messages. *)
Definition is_scan_event (e : event) : bool :=
  match e with
  | EvLoad _ _ | EvUnload _ | EvDestroy _ | EvMsg _ _ => true
  | _ => false
  end.

(** [w'] has the users and the blobs of [w], its descriptors with new
    ones that satisfy [P] on top, and its trace followed by events that
    satisfy [Q]. *)
Definition extends (P : vlc_plugin_t -> Prop) (Q : event -> Prop)
  (w w' : world) : Prop :=
  usage (modules w') = usage (modules w)
  /\ caches (modules w') = caches (modules w)
  /\ exists new evs,
       libs (modules w') = (new ++ libs (modules w))%list
       /\ Forall P new
       /\ trace w' = (trace w ++ evs)%list
       /\ Forall Q evs.

(** The directories [ts] joined by the separator character [sep]. *)
Fixpoint join_with (sep : ascii) (ts : list string) : string :=
  match ts with
  | [] => EmptyString
  | [t] => t
  | t :: ts' => (t ++ String sep (join_with sep ts'))%string
  end.

(** *** The loading phase *)

(** The table of the statically linked plug-ins; it may be absent. *)
Definition static_table (E : env) : list vlc_plugin_cb :=
  match vlc_static_modules E with
  | Some table => table
  | None => []
  end.

Definition is_sort_event (e : event) : bool :=
  match e with
  | EvSortConfig | EvUnsortConfig => true
  | _ => false
  end.

(** The trace of [w'] is the trace of [w] followed by events that
    satisfy [Q]. *)
Definition appends (Q : event -> Prop) (w w' : world) : Prop :=
  exists evs, trace w' = (trace w ++ evs)%list /\ Forall Q evs.

(** *** Enumeration *)

(** The sizes, in module pointers, that module_list_get asks realloc
    for: one request per descriptor, for the modules counted so far
    plus those that the descriptor announces. *)
Fixpoint requests (ls : list vlc_plugin_t) (i : nat) : list nat :=
  match ls with
  | [] => []
  | p :: ls' =>
      (i + descriptor_count p)%nat
      :: requests ls' (i + descriptor_count p)%nat
  end.

(** Scores that an [int] can hold. *)
Definition int_score (m : module_t) : Prop :=
  (INT_MIN <= i_score m <= INT_MAX)%Z.

(** *** Files below a search root *)

(** A scanning context for the paths below [root]: the walker computes
    its absolute paths from the base directory only. *)
Definition root_bank (root : string) : module_bank_t :=
  Build_module_bank_t root CACHE_IGNORE [] [].

(** The plug-in [file] lies under the nested subdirectories [dirs] of
    the directory [absdir] (whose path relative to [root] is [reldir]):
    the listing of [absdir] has the entry [d1], a directory, whose
    listing has the entry [d2], a directory, ... and the listing of the
    last one has the entry [file], a regular file whose name has the
    plug-in pattern.  Each of these entries is one that the walker gets
    to look at, and the directories may hold any other entries
    besides. *)
Fixpoint located (E : env) (root absdir : string) (reldir : option string)
  (dirs : list string) (file : string) (st : stat) : Prop :=
  match dirs with
  | [] =>
      (exists l, vlc_opendir E absdir = Some l /\ In file l)
      /\ visible_entry E (root_bank root) reldir file st
      /\ st_mode st = S_IFREG
      /\ plugin_pattern E file
  | d :: ds =>
      (exists l, vlc_opendir E absdir = Some l /\ In d l)
      /\ (exists sd, visible_entry E (root_bank root) reldir d sd
                     /\ st_mode sd = S_IFDIR)
      /\ located E root (entry_abspath E (root_bank root) reldir d)
           (Some (entry_relpath E reldir d)) ds file st
  end.

(** The relative and the absolute path that the walker computes for a
    file located under [dirs]. *)
Definition located_relpath (E : env) (reldir : option string)
  (dirs : list string) (file : string) : string :=
  entry_relpath E (chain_reldir E reldir dirs) file.

Definition located_abspath (E : env) (root : string)
  (reldir : option string) (dirs : list string) (file : string) : string :=
  entry_abspath E (root_bank root) (chain_reldir E reldir dirs) file.

(** [f] is the path of a plug-in located under fewer than [k] nested
    subdirectories of [absdir]. *)
Definition within (E : env) (root : string) (k : nat) (absdir : string)
  (reldir : option string) (f : string) : Prop :=
  exists dirs file st,
    (List.length dirs < k)%nat
    /\ located E root absdir reldir dirs file st
    /\ f = located_abspath E root reldir dirs file.

(** What a walk of [absdir] with depth [k] may emit: Load calls for
    plug-ins located under fewer than [k] nested subdirectories, Unload
    calls, the destruction of a descriptor, warnings and errors. *)
Definition reach_event (E : env) (root : string) (k : nat) (absdir : string)
  (reldir : option string) (e : event) : Prop :=
  match e with
  | EvLoad f _ => within E root k absdir reldir f
  | EvUnload _ | EvDestroy _ | EvMsg Warn _ | EvMsg Err _ => True
  | _ => False
  end.

(** The primary module of [p] knows its file, a plug-in located under
    fewer than [k] nested subdirectories of [absdir]. *)
Definition enrolled_within (E : env) (root : string) (k : nat)
  (absdir : string) (reldir : option string) (p : vlc_plugin_t) : Prop :=
  exists f, knows_file f p /\ within E root k absdir reldir f.

(** [p] comes fresh from the dynamic loader, for a plug-in located under
    fewer than [k] nested subdirectories of [absdir]. *)
Definition loaded_within (E : env) (root : string) (k : nat)
  (absdir : string) (reldir : option string) (p : vlc_plugin_t) : Prop :=
  exists dirs file st,
    (List.length dirs < k)%nat
    /\ located E root absdir reldir dirs file st
    /\ fresh_from (located_abspath E root reldir dirs file)
         (located_relpath E reldir dirs file) st p.

(** The world before and after a walk of [absdir] with depth [k] in mode
    [md]: what was enrolled and what was emitted. *)
Definition surveyed (E : env) (root : string) (md : cache_mode_t) (k : nat)
  (absdir : string) (reldir : option string) (w w' : world) : Prop :=
  exists new evs,
    libs (modules w') = (rev new ++ libs (modules w))%list
    /\ trace w' = (trace w ++ evs)%list
    /\ Forall (fun p => enrolled_within E root k absdir reldir p
                        /\ (md <> CACHE_USE ->
                            loaded_within E root k absdir reldir p)) new
    /\ Forall (reach_event E root k absdir reldir) evs.



(** The names of directory entries are path components: the separator
    is a single character and no listed name contains it. *)
Definition tidy (E : env) : Prop :=
  (exists c, DIR_SEP E = String c EmptyString)
  /\ forall dir l, vlc_opendir E dir = Some l ->
                   Forall (delim_free (DIR_SEP E)) l.


(* ================================================================= *)
(** ** Concrete environments *)

Local Open Scope string_scope.

(** A small POSIX-like host: a file system given as a table from
    absolute paths to nodes, shared objects given as a table from paths
    to what their entry point describes ([None]: the entry point fails),
    cache files per search root.  The handle of the [i]-th shared object
    is [i + 1], its entry point has the same number, entry point 0 is the
    core; a module provides the capability it names; allocations
    succeed; the plug-in cache is used when [use_cache] is set. *)
Inductive node := Dir (names : list string) | File (mt sz : Z).

Fixpoint assoc {A} (k : string) (l : list (string * A)) : option A :=
  match l with
  | [] => None
  | (k', v) :: l' => if String.eqb k' k then Some v else assoc k l'
  end.

Fixpoint index_of {A} (k : string) (l : list (string * A)) (i : nat)
  : option nat :=
  match l with
  | [] => None
  | (k', _) :: l' => if String.eqb k' k then Some i else index_of k l' (S i)
  end.

Definition mk_module (name cap : string) (score : Z) : module_t :=
  Build_module_t name cap score false true None None 0 [] [] 0.

Definition mk_plugin (m : module_t) : vlc_plugin_t :=
  Build_vlc_plugin_t (Some m) None 0 0.

Definition core_plugin : vlc_plugin_t :=
  mk_plugin (mk_module "core" "core" 0).

Definition node_stat (n : node) : stat :=
  match n with
  | Dir _ => Build_stat S_IFDIR 0 0
  | File mt sz => Build_stat S_IFREG mt sz
  end.

Definition host_env
  (fs : list (string * node))
  (objs : list (string * option vlc_plugin_t))
  (cachef : list (string * (block_t * list vlc_plugin_t)))
  (libdir plugin_path : option string)
  (use_cache : bool) : env :=
  Build_env ".so" "/" ":" "__3_0_0f"
    (fun p => match assoc p fs with Some (Dir ns) => Some ns | _ => None end)
    (fun p => option_map node_stat (assoc p fs))
    (fun p _ => option_map S (index_of p objs 0))
    (fun h _ => Some h)
    (fun e => match e with
              | O => Some core_plugin
              | S i => match nth_error objs i with
                       | Some (_, d) => d
                       | None => None
                       end
              end)
    0 None
    (fun p => assoc p cachef)
    (fun m cap => String.eqb (psz_capability m) cap)
    (fun v => use_cache && String.eqb v "plugins-cache")
    libdir
    (fun v => if String.eqb v "VLC_PLUGIN_PATH" then plugin_path else None)
    (fun _ => true) (fun _ => true).

Definition empty_world : world := Build_world (Build_modules_t [] [] 0) [].

(** The world that the first module_InitBank leaves in these hosts. *)
Definition seeded_world : world :=
  Build_world
    (Build_modules_t
       [ set_module
           (set_b_unloadable false
              (set_b_loaded true (mk_module "core" "core" 0)))
           core_plugin ]
       [] 1)
    [EvSortConfig].

(** One search root, named by VLC_PLUGIN_PATH, holding a single regular
    file that the dynamic linker accepts. *)
Definition flat_fs (file : string) : list (string * node) :=
  [ ("/plugins", Dir ["."; ".."; file]);
    ("/plugins/" ++ file, File 10 100) ].

Definition flat_env (file : string) : env :=
  host_env (flat_fs file)
    [ ("/plugins/" ++ file, Some (mk_plugin (mk_module "foo" "x" 50))) ]
    [] None (Some "/plugins") false.

Definition flat_bank : module_bank_t :=
  Build_module_bank_t "/plugins" CACHE_IGNORE [] [].

(** A search root whose only candidate is a file that the dynamic linker
    rejects. *)
Definition rejecting_env : env :=
  host_env (flat_fs "libbad_plugin.so") [] [] None (Some "/plugins") false.

(** A directory that contains itself (a symbolic link to "."): every
    path is a directory whose only entry is "loop". *)
Definition cyclic_env : env :=
  Build_env ".so" "/" ":" "__3_0_0f"
    (fun _ => Some ["loop"])
    (fun _ => Some (Build_stat S_IFDIR 0 0))
    (fun _ _ => None) (fun _ _ => None) (fun _ => None)
    0 None (fun _ => None)
    (fun m cap => String.eqb (psz_capability m) cap)
    (fun _ => false) None (fun _ => None)
    (fun _ => true) (fun _ => true).

(** A search root with the plug-in libZ_plugin.so under the nested
    subdirectories [subs]; the dynamic linker accepts the file. *)
Fixpoint deep_fs (abs : string) (subs : list string) (file : string)
  : list (string * node) :=
  match subs with
  | [] => [ (abs, Dir ["."; ".."; file]); (abs ++ "/" ++ file, File 10 100) ]
  | d :: ds => (abs, Dir ["."; ".."; d]) :: deep_fs (abs ++ "/" ++ d) ds file
  end.

Definition deep_path (abs : string) (subs : list string) (file : string)
  : string :=
  fold_left (fun a d => a ++ "/" ++ d) subs abs ++ "/" ++ file.

Definition deep_env (subs : list string) : env :=
  host_env (deep_fs "/plugins" subs "libZ_plugin.so")
    [ (deep_path "/plugins" subs "libZ_plugin.so",
       Some (mk_plugin (mk_module "Z" "x" 50))) ]
    [] None (Some "/plugins") false.

Definition four_subs : list string := ["sub1"; "sub2"; "sub3"; "sub4"].
Definition five_subs : list string := ["sub1"; "sub2"; "sub3"; "sub4"; "sub5"].

(** A plug-in with a callback-driven choice list, as the cache file
    stores it and as its shared object describes it: its first item has
    a static list of three values, its second a callback. *)
Definition callback_module : module_t :=
  Build_module_t "cb" "x" 10 false true None None 2
    [Build_module_config_t 3 None None;
     Build_module_config_t 0 (Some 8) None] [] 0.

Definition cached_callback_plugin : vlc_plugin_t :=
  Build_vlc_plugin_t (Some callback_module) (Some "libcb_plugin.so") 10 100.

Definition callback_env : env :=
  host_env (flat_fs "libcb_plugin.so")
    [ ("/plugins/libcb_plugin.so",
       Some (Build_vlc_plugin_t (Some callback_module) None 0 0)) ]
    [ ("/plugins", (1, [cached_callback_plugin])) ]
    None (Some "/plugins") true.

Definition callback_bank : module_bank_t :=
  Build_module_bank_t "/plugins" CACHE_USE [] [cached_callback_plugin].

(** A bank that holds one descriptor resurrected from the cache: not
    loaded, its file known. *)
Definition cached_foo : vlc_plugin_t :=
  Build_vlc_plugin_t
    (Some (set_psz_filename (Some "/plugins/libfoo_plugin.so")
             (mk_module "foo" "x" 50)))
    (Some "libfoo_plugin.so") 10 100.

Definition cached_world : world :=
  Build_world (Build_modules_t [cached_foo; core_plugin] [1%nat] 1) [].

(** A plug-in with two submodules. *)
Definition trio_module : module_t :=
  Build_module_t "main" "x" 30 false true None None 0 []
    [mk_module "sub_a" "y" 20; mk_module "sub_b" "x" 40] 2.

Definition trio_env : env :=
  host_env (flat_fs "libtrio_plugin.so")
    [ ("/plugins/libtrio_plugin.so", Some (mk_plugin trio_module)) ]
    [] None (Some "/plugins") false.

(** Two plug-ins for one capability, one with the highest score an
    [int] can hold. *)
Definition low_module : module_t := mk_module "low" "x" (-2).
Definition top_module : module_t := mk_module "top" "x" INT_MAX.

Definition extreme_world : world :=
  Build_world
    (Build_modules_t [mk_plugin low_module; mk_plugin top_module] [] 1) [].

(** Plug-ins with ordinary scores, the lower one first. *)
Definition ordinary_world : world :=
  Build_world
    (Build_modules_t
       [ mk_plugin (mk_module "A" "x" 50); mk_plugin (mk_module "B" "x" 80);
         mk_plugin (mk_module "C" "y" 99) ] [] 1) [].

(** A host where no table of module pointers can be allocated. *)
Definition starved_env : env :=
  Build_env ".so" "/" ":" "__3_0_0f"
    (fun _ => None) (fun _ => None)
    (fun _ _ => None) (fun _ _ => None) (fun _ => Some core_plugin)
    0 None (fun _ => None)
    (fun m cap => String.eqb (psz_capability m) cap)
    (fun _ => false) None (fun _ => None)
    (fun _ => true) (fun _ => false).

(** A bank whose counter of users has reached the largest unsigned
    value. *)
Definition crowded_world : world :=
  Build_world (Build_modules_t [core_plugin] [] UINT_MAX) [].

(** A host with a table of statically linked plug-ins: entry points 1
    and 3 describe a plug-in, entry point 2 fails. *)
Definition static_env : env :=
  Build_env ".so" "/" ":" "__3_0_0f"
    (fun _ => None) (fun _ => None)
    (fun _ _ => None) (fun _ _ => None)
    (fun e => match e with
              | 0%nat => Some core_plugin
              | 1%nat => Some (mk_plugin (mk_module "first" "x" 10))
              | 3%nat => Some (mk_plugin (mk_module "third" "x" 30))
              | _ => None
              end)
    0 (Some [1%nat; 2%nat; 3%nat]) (fun _ => None)
    (fun m cap => String.eqb (psz_capability m) cap)
    (fun _ => false) None (fun _ => None)
    (fun _ => true) (fun _ => true).

(** The scanning context of a root whose cache file lists the plug-in
    foo, which declares no configuration item. *)
Definition foo_bank : module_bank_t :=
  Build_module_bank_t "/plugins" CACHE_USE [] [cached_foo].

(** A host with a library directory and a VLC_PLUGIN_PATH that names
    two directories, with a doubled separator between them. *)
Definition two_roots_env : env :=
  host_env (flat_fs "libfoo_plugin.so")
    [ ("/plugins/libfoo_plugin.so", Some (mk_plugin (mk_module "foo" "x" 50))) ]
    [] (Some "/usr/lib/vlc") (Some "/plugins::/opt/vlc") false.

(** A bank with a descriptor whose counter says one submodule while its
    chain holds two. *)
Definition miscounted_world : world :=
  Build_world
    (Build_modules_t
       [ core_plugin;
         mk_plugin
           (Build_module_t "main" "x" 30 false true None None 0 []
              [mk_module "sub_a" "y" 20; mk_module "sub_b" "x" 40] 1) ]
       [] 1) [].

(** A host whose VLC_PLUGIN_PATH joins two directories by the
    separator. *)
Definition joined_env : env :=
  host_env [] [] [] None (Some "/plugins:/opt/vlc") false.

(** A host whose dynamic loader accepts every file, over a file system
    given as a table. *)
Definition open_host (fs : list (string * node)) : env :=
  Build_env ".so" "/" ":" "__3_0_0f"
    (fun p => match assoc p fs with Some (Dir ns) => Some ns | _ => None end)
    (fun p => option_map node_stat (assoc p fs))
    (fun _ _ => Some 1%nat) (fun _ _ => Some 1%nat)
    (fun e => match e with
              | O => Some core_plugin
              | S _ => Some (mk_plugin (mk_module "any" "x" 1))
              end)
    0 None (fun _ => None)
    (fun m cap => String.eqb (psz_capability m) cap)
    (fun _ => false) None (fun _ => None)
    (fun _ => true) (fun _ => true).

(** A search root as one finds them: a text file and a plug-in next to
    the first subdirectory, a directory libs whose file foo_plugin.so
    has the plug-in pattern only once the name of the directory is put
    in front, an empty directory on the way, a plug-in under four nested
    subdirectories and, next to it, a fifth subdirectory with a plug-in
    of its own. *)
Definition busy_fs : list (string * node) :=
  [ ("/plugins",
     Dir ["."; ".."; "README"; "libA_plugin.so"; "libs"; "sub1"]);
    ("/plugins/README", File 1 1);
    ("/plugins/libA_plugin.so", File 10 100);
    ("/plugins/libs", Dir ["."; ".."; "foo_plugin.so"]);
    ("/plugins/libs/foo_plugin.so", File 5 50);
    ("/plugins/sub1", Dir ["."; ".."; "notes"; "sub2"]);
    ("/plugins/sub1/notes", Dir ["."; ".."]);
    ("/plugins/sub1/sub2", Dir ["."; ".."; "sub3"]);
    ("/plugins/sub1/sub2/sub3", Dir ["."; ".."; "sub4"]);
    ("/plugins/sub1/sub2/sub3/sub4",
     Dir ["."; ".."; "libZ_plugin.so"; "sub5"]);
    ("/plugins/sub1/sub2/sub3/sub4/libZ_plugin.so", File 20 200);
    ("/plugins/sub1/sub2/sub3/sub4/sub5", Dir ["."; ".."; "libY_plugin.so"]);
    ("/plugins/sub1/sub2/sub3/sub4/sub5/libY_plugin.so", File 30 300) ].

Definition busy_env : env := open_host busy_fs.

Local Close Scope string_scope.
(* ================================================================= *)
(** ** Reasoning about computations *)

Unset Implicit Arguments.

Lemma bind_Done {A B} (c : M A) (k : A -> M B) w a w' :
  c w = Done (a, w') -> bind c k w = k a w'.
Proof. unfold bind; intros ->; reflexivity. Qed.

Lemma bind_inv {A B} (c : M A) (k : A -> M B) w b w'' :
  bind c k w = Done (b, w'') ->
  exists a w', c w = Done (a, w') /\ k a w' = Done (b, w'').
Proof.
  unfold bind; destruct (c w) as [[a w'] | | |]; try discriminate.
  intros H; exists a, w'; split; [reflexivity | exact H].
Qed.

Lemma fold_each_ext {A S} (l : list A) (f g : S -> A -> M S) :
  (forall s x w, f s x w = g s x w) ->
  forall s w, fold_each l f s w = fold_each l g s w.
Proof.
  intros Hfg; induction l as [| x l IH]; intros s w; simpl.
  - reflexivity.
  - unfold bind; rewrite Hfg.
    destruct (g s x w) as [[s' w'] | | |]; auto.
Qed.

Lemma AllocatePluginDir_entry_ext E rec1 rec2 reldir bank file w :
  (forall b a r w', rec1 b a r w' = rec2 b a r w') ->
  AllocatePluginDir_entry E rec1 reldir bank file w
  = AllocatePluginDir_entry E rec2 reldir bank file w.
Proof.
  intros Hrec; unfold AllocatePluginDir_entry.
  destruct (strcmp_eq file "." || strcmp_eq file ".."); [reflexivity |].
  destruct (negb (strdup_ok E _)); [reflexivity |].
  destruct (negb (strdup_ok E _)); [reflexivity |].
  destruct (vlc_stat E _) as [st |]; [| reflexivity].
  destruct (st_mode st); auto.
Qed.

(** The equation of the recursive C function. *)
Lemma AllocatePluginDir_eq E bank maxdepth absdir reldir :
  AllocatePluginDir E bank maxdepth absdir reldir =
  if (maxdepth =? 0)%N then ret bank
  else
    match vlc_opendir E absdir with
    | None => ret bank
    | Some entries =>
        fold_each entries
          (AllocatePluginDir_entry E
             (fun b a r => AllocatePluginDir E b (maxdepth - 1) a r) reldir)
          bank
    end.
Proof.
  unfold AllocatePluginDir at 1; simpl.
  destruct (N.eqb_spec maxdepth 0) as [-> | Hnz]; [reflexivity |].
  replace (N.to_nat maxdepth) with (S (N.to_nat (maxdepth - 1))) by lia.
  reflexivity.
Qed.

(** With more fuel than the depth argument the walker does what
    [AllocatePluginDir] does. *)
Lemma AllocatePluginDir_fuel_stable E fuel :
  forall maxdepth, (N.to_nat maxdepth < fuel)%nat ->
  forall bank absdir reldir w,
    AllocatePluginDir_fuel E fuel bank maxdepth absdir reldir w
    = AllocatePluginDir E bank maxdepth absdir reldir w.
Proof.
  induction fuel as [| fuel IH]; intros maxdepth Hlt bank absdir reldir w.
  - lia.
  - rewrite AllocatePluginDir_eq; simpl.
    destruct (N.eqb_spec maxdepth 0) as [-> | Hnz]; [reflexivity |].
    destruct (vlc_opendir E absdir) as [entries |]; [| reflexivity].
    apply fold_each_ext; intros s x w'.
    apply AllocatePluginDir_entry_ext; intros b a r w''.
    apply IH; lia.
Qed.

Lemma fuelled_ret {A} (a : A) : fuelled (ret a).
Proof. intros w; discriminate. Qed.

Lemma fuelled_abort {A} : fuelled (@abort A).
Proof. intros w; discriminate. Qed.

Lemma fuelled_undefined {A} : fuelled (@undefined A).
Proof. intros w; discriminate. Qed.

Lemma fuelled_emit e : fuelled (emit e).
Proof. intros w; discriminate. Qed.

Lemma fuelled_get_modules : fuelled get_modules.
Proof. intros w; discriminate. Qed.

Lemma fuelled_put_modules m : fuelled (put_modules m).
Proof. intros w; discriminate. Qed.

Lemma fuelled_bind {A B} (c : M A) (k : A -> M B) :
  fuelled c -> (forall a, fuelled (k a)) -> fuelled (bind c k).
Proof.
  intros Hc Hk w; unfold bind.
  specialize (Hc w).
  destruct (c w) as [[a w'] | | |]; try discriminate.
  - apply Hk.
  - congruence.
Qed.

Lemma fuelled_fold_each {A S} (l : list A) (f : S -> A -> M S) :
  (forall s x, fuelled (f s x)) -> forall s, fuelled (fold_each l f s).
Proof.
  intros Hf; induction l as [| x l IH]; intros s; simpl.
  - apply fuelled_ret.
  - apply fuelled_bind; auto.
Qed.

Ltac fuelled_step :=
  match goal with
  | |- fuelled (bind _ _) => apply fuelled_bind; [| intros]
  | |- fuelled (ret _) => apply fuelled_ret
  | |- fuelled abort => apply fuelled_abort
  | |- fuelled undefined => apply fuelled_undefined
  | |- fuelled (emit _) => apply fuelled_emit
  | |- fuelled (msg _ _) => apply fuelled_emit
  | |- fuelled (module_Unload _) => apply fuelled_emit
  | |- fuelled (vlc_plugin_destroy _) => apply fuelled_emit
  | |- fuelled get_modules => apply fuelled_get_modules
  | |- fuelled (put_modules _) => apply fuelled_put_modules
  | |- fuelled (assert ?b) => unfold assert; destruct b
  | |- fuelled (match ?x with _ => _ end) => destruct x
  | |- fuelled (let (_, _) := ?x in _) => destruct x
  end.

Lemma fuelled_module_StoreBank lib : fuelled (module_StoreBank lib).
Proof. unfold module_StoreBank; repeat fuelled_step. Qed.

Lemma fuelled_module_InitDynamic E file fast :
  fuelled (module_InitDynamic E file fast).
Proof. unfold module_InitDynamic; repeat fuelled_step. Qed.

Lemma fuelled_AllocatePluginFile E bank abspath relpath st :
  fuelled (AllocatePluginFile E bank abspath relpath st).
Proof.
  unfold AllocatePluginFile;
    repeat (fuelled_step
            || apply fuelled_module_InitDynamic
            || apply fuelled_module_StoreBank).
Qed.

Lemma fuelled_AllocatePluginDir_entry E rec reldir bank file :
  (forall b a r, fuelled (rec b a r)) ->
  fuelled (AllocatePluginDir_entry E rec reldir bank file).
Proof.
  intros Hrec; unfold AllocatePluginDir_entry.
  repeat (fuelled_step || apply fuelled_AllocatePluginFile || apply Hrec).
Qed.

Lemma fuelled_AllocatePluginDir_fuel E fuel :
  forall maxdepth, (N.to_nat maxdepth < fuel)%nat ->
  forall bank absdir reldir,
    fuelled (AllocatePluginDir_fuel E fuel bank maxdepth absdir reldir).
Proof.
  induction fuel as [| fuel IH]; intros maxdepth Hlt bank absdir reldir.
  - lia.
  - simpl.
    destruct (N.eqb_spec maxdepth 0) as [-> | Hnz]; [apply fuelled_ret |].
    destruct (vlc_opendir E absdir) as [entries |]; [| apply fuelled_ret].
    apply fuelled_fold_each; intros s x.
    apply fuelled_AllocatePluginDir_entry; intros b a r.
    apply IH; lia.
Qed.

(* ================================================================= *)
(** ** C strings *)

Local Open Scope string_scope.

Lemma strlen_append a b : strlen (a ++ b) = (strlen a + strlen b)%nat.
Proof. induction a as [| c a IH]; simpl; [reflexivity | now rewrite <- IH]. Qed.

Lemma append_assoc a b c : (a ++ b) ++ c = a ++ (b ++ c).
Proof. induction a as [| x a IH]; simpl; [reflexivity | now rewrite IH]. Qed.

Lemma str_offset_append a b : str_offset (strlen a) (a ++ b) = b.
Proof. induction a as [| x a IH]; simpl; [now destruct b | exact IH]. Qed.

Lemma str_offset_split n :
  forall s, (n <= strlen s)%nat ->
  exists pre, s = pre ++ str_offset n s /\ strlen pre = n.
Proof.
  induction n as [| n IH]; intros s Hn.
  - exists ""; split; [now destruct s | reflexivity].
  - destruct s as [| c s]; simpl in Hn; [lia |].
    destruct (IH s) as [pre [Hs Hlen]]; [lia |].
    exists (String c pre); simpl; split; [now rewrite <- Hs | now rewrite Hlen].
Qed.

Lemma substring_0_0 s : substring 0 0 s = "".
Proof. now destruct s. Qed.

Lemma strncmp_prefix_lib file :
  strncmp_eq file prefix (strlen prefix) = true <->
  exists rest, file = "lib" ++ rest.
Proof.
  unfold strncmp_eq, prefix; simpl.
  rewrite String.eqb_eq; split.
  - destruct file as [| a [| b [| c rest]]]; simpl; try discriminate.
    rewrite substring_0_0; intros H; injection H as -> -> ->.
    now exists rest.
  - intros [rest ->]; simpl; now rewrite substring_0_0.
Qed.

Lemma suffix_head E : exists t, suffix E = String "_" t.
Proof. unfold suffix; simpl; eauto. Qed.

(** The test of the walker accepts exactly the names lib*_plugin<libext>. *)
Lemma is_plugin_name_iff E file :
  is_plugin_name E file = true <-> plugin_pattern E file.
Proof.
  unfold is_plugin_name, plugin_pattern.
  rewrite !andb_true_iff, Nat.ltb_lt, strncmp_prefix_lib.
  unfold strcmp_eq; rewrite String.eqb_eq.
  fold (suffix E); split.
  - intros [[Hlen [rest Hrest]] Hoff].
    destruct (str_offset_split (strlen file - strlen (suffix E)) file)
      as [pre [Hsplit Hpre]]; [lia |].
    rewrite Hoff in Hsplit.
    destruct (suffix_head E) as [t Ht].
    rewrite Hsplit, Ht in Hrest.
    assert (Hne : strlen pre <> 0%nat) by lia.
    destruct pre as [| a [| b [| c mid]]]; simpl in Hrest.
    + now elim Hne.
    + discriminate.
    + discriminate.
    + injection Hrest as -> -> -> Hmid.
      exists mid. rewrite Hsplit; simpl. reflexivity.
  - intros [mid ->].
    change ("lib" ++ mid ++ "_plugin" ++ LIBEXT E)
      with ("lib" ++ mid ++ suffix E).
    assert (Hlen : strlen ("lib" ++ mid ++ suffix E)
                   = (strlen ("lib" ++ mid) + strlen (suffix E))%nat)
      by (rewrite <- append_assoc; apply strlen_append).
    repeat split.
    + rewrite Hlen; simpl; lia.
    + now exists (mid ++ suffix E).
    + rewrite Hlen.
      replace (strlen ("lib" ++ mid) + strlen (suffix E) - strlen (suffix E))%nat
        with (strlen ("lib" ++ mid)) by lia.
      rewrite <- append_assoc. apply str_offset_append.
Qed.

Lemma is_plugin_name_false E file :
  is_plugin_name E file = false <-> ~ plugin_pattern E file.
Proof.
  rewrite <- is_plugin_name_iff.
  destruct (is_plugin_name E file); split; congruence.
Qed.

Local Close Scope string_scope.

(* ================================================================= *)
(** ** The walker, one entry at a time *)

Lemma visible_entry_not_dot E bank reldir file st :
  visible_entry E bank reldir file st ->
  strcmp_eq file "." || strcmp_eq file ".." = false.
Proof.
  intros (H1 & H2 & _). unfold strcmp_eq.
  apply String.eqb_neq in H1, H2. now rewrite H1, H2.
Qed.

Lemma AllocatePluginDir_entry_regular E rec bank reldir file st w :
  visible_entry E bank reldir file st -> st_mode st = S_IFREG ->
  AllocatePluginDir_entry E rec reldir bank file w
  = if is_plugin_name E file then scan_file E bank reldir file st w
    else Done (bank, w).
Proof.
  intros Hvis Hreg. pose proof (visible_entry_not_dot _ _ _ _ _ Hvis) as Hdot.
  destruct Hvis as (_ & _ & Hrel & Habs & Hst).
  unfold AllocatePluginDir_entry, scan_file, entry_abspath, entry_relpath in *.
  cbv zeta. rewrite Hdot.
  destruct reldir as [d |]; rewrite Hrel, Habs, Hst, Hreg; cbn [negb];
    (destruct (is_plugin_name E file); [| reflexivity]);
    unfold bind;
    match goal with
    | |- context [AllocatePluginFile ?e ?b ?a ?r ?s ?w] =>
        destruct (AllocatePluginFile e b a r s w) as [[[z b'] w'] | | |]
    end; reflexivity.
Qed.

Lemma AllocatePluginDir_entry_directory E rec bank reldir file st w :
  visible_entry E bank reldir file st -> st_mode st = S_IFDIR ->
  AllocatePluginDir_entry E rec reldir bank file w
  = rec bank (entry_abspath E bank reldir file)
      (Some (entry_relpath E reldir file)) w.
Proof.
  intros Hvis Hdir. pose proof (visible_entry_not_dot _ _ _ _ _ Hvis) as Hdot.
  destruct Hvis as (_ & _ & Hrel & Habs & Hst).
  unfold AllocatePluginDir_entry, entry_abspath, entry_relpath in *.
  cbv zeta. rewrite Hdot.
  destruct reldir as [d |]; rewrite Hrel, Habs, Hst, Hdir; reflexivity.
Qed.

(** C7. On a platform without the 8.3 restriction the walker hands a
    regular file to AllocatePluginFile exactly when its name has the
    shape lib*_plugin<libext>: the test of the code and the pattern
    agree, a regular entry that matches is scanned, one that does not is
    passed over with the state untouched, and neither foo_plugin<libext>
    nor libfoo<libext> matches. *)
Theorem plugin_name_filter E :
  (forall file, is_plugin_name E file = true <-> plugin_pattern E file)
  /\ (forall rec bank reldir file st w,
        visible_entry E bank reldir file st -> st_mode st = S_IFREG ->
        (plugin_pattern E file ->
         AllocatePluginDir_entry E rec reldir bank file w
         = scan_file E bank reldir file st w)
        /\ (~ plugin_pattern E file ->
            AllocatePluginDir_entry E rec reldir bank file w = Done (bank, w)))
  /\ ~ plugin_pattern E ("foo_plugin" ++ LIBEXT E)%string
  /\ ~ plugin_pattern E ("libfoo" ++ LIBEXT E)%string.
Proof.
  split; [apply is_plugin_name_iff |].
  split; [| split].
  - intros rec bank reldir file st w Hvis Hreg.
    rewrite (AllocatePluginDir_entry_regular _ rec _ _ _ _ w Hvis Hreg).
    split; intros Hpat.
    + apply is_plugin_name_iff in Hpat. now rewrite Hpat.
    + apply is_plugin_name_false in Hpat. now rewrite Hpat.
  - intros [mid H]; simpl in H; discriminate.
  - intros [mid H].
    apply (f_equal strlen) in H.
    change ("lib" ++ mid ++ "_plugin" ++ LIBEXT E)%string
      with ("lib" ++ (mid ++ ("_plugin" ++ LIBEXT E)))%string in H.
    rewrite !strlen_append in H. simpl in H. lia.
Qed.

Lemma plugin_name_filter_witness :
  AllocatePluginDir_entry (flat_env "libfoo_plugin.so")
    (fun b _ _ => ret b) None flat_bank "libfoo_plugin.so" empty_world
  = scan_file (flat_env "libfoo_plugin.so") flat_bank None "libfoo_plugin.so"
      (Build_stat S_IFREG 10 100) empty_world
  /\ AllocatePluginDir_entry (flat_env "libfoo.so")
       (fun b _ _ => ret b) None flat_bank "libfoo.so" empty_world
     = Done (flat_bank, empty_world).
Proof.
  split.
  - apply (plugin_name_filter (flat_env "libfoo_plugin.so")).
    + repeat split; discriminate.
    + reflexivity.
    + now exists "foo"%string.
  - apply (plugin_name_filter (flat_env "libfoo.so")) with
      (st := Build_stat S_IFREG 10 100).
    + repeat split; discriminate.
    + reflexivity.
    + apply is_plugin_name_false. reflexivity.
Defined.

(** C10. AllocatePluginDir terminates on every input, cyclic directory
    structures included: the recursive calls are made at depth
    [maxdepth - 1], a call at depth 0 returns at once, and so
    [maxdepth + 1] nested calls always suffice (units of fuel beyond
    that change nothing). *)
Theorem AllocatePluginDir_terminates E fuel bank maxdepth absdir reldir w :
  (N.to_nat maxdepth < fuel)%nat ->
  AllocatePluginDir_fuel E fuel bank maxdepth absdir reldir w <> OutOfFuel
  /\ AllocatePluginDir_fuel E fuel bank maxdepth absdir reldir w
     = AllocatePluginDir E bank maxdepth absdir reldir w
  /\ (maxdepth = 0%N ->
      AllocatePluginDir_fuel E fuel bank maxdepth absdir reldir w
      = Done (bank, w))
  /\ (maxdepth <> 0%N ->
      AllocatePluginDir E bank maxdepth absdir reldir w
      = match vlc_opendir E absdir with
        | None => Done (bank, w)
        | Some entries =>
            fold_each entries
              (AllocatePluginDir_entry E
                 (fun b a r => AllocatePluginDir E b (maxdepth - 1) a r)
                 reldir)
              bank w
        end).
Proof.
  intros Hfuel. repeat split.
  - now apply fuelled_AllocatePluginDir_fuel.
  - now apply AllocatePluginDir_fuel_stable.
  - intros ->. destruct fuel; [simpl in Hfuel; lia | reflexivity].
  - intros Hnz. rewrite AllocatePluginDir_eq.
    destruct (N.eqb_spec maxdepth 0) as [H0 | _]; [contradiction |].
    now destruct (vlc_opendir E absdir).
Qed.

Lemma AllocatePluginDir_terminates_witness :
  AllocatePluginDir_fuel cyclic_env 6 flat_bank 5 "/plugins" None empty_world
  <> OutOfFuel
  /\ AllocatePluginDir_fuel cyclic_env 6 flat_bank 5 "/plugins" None
       empty_world
     = Done (flat_bank, empty_world).
Proof.
  destruct (AllocatePluginDir_terminates cyclic_env 6 flat_bank 5
              "/plugins"%string None empty_world) as (H1 & H2 & _).
  - vm_compute; lia.
  - split; [exact H1 | reflexivity].
Defined.

(* ================================================================= *)
(** ** The dynamic loader *)

Lemma module_InitDynamic_load_failed E file fast w :
  module_Load E file fast = None ->
  module_InitDynamic E file fast w
  = Done (None, add_event w (EvLoad file fast)).
Proof.
  intros H. unfold module_InitDynamic, bind, emit; simpl. now rewrite H.
Qed.

(** A descriptor returned by the loader is loaded and knows its file;
    the world then only differs by the Load call. *)
Lemma module_InitDynamic_Some E file fast w p w' :
  module_InitDynamic E file fast w = Done (Some p, w') ->
  w' = add_event w (EvLoad file fast)
  /\ exists m, module p = Some m /\ b_loaded m = true
               /\ psz_filename m = Some file.
Proof.
  unfold module_InitDynamic, bind, emit, msg, module_Unload,
    vlc_plugin_destroy, emit, ret, abort; simpl.
  destruct (module_Load E file fast) as [h |]; [| discriminate].
  destruct (module_Lookup E h (entry_name E)) as [entry |]; [| discriminate].
  destruct (vlc_plugin_describe E entry) as [d |]; [| discriminate].
  destruct (module d) as [m |]; [| discriminate].
  destruct (strdup_ok E file); [| discriminate].
  intros H; injection H as <- <-.
  split; [reflexivity |].
  eexists; simpl; repeat split.
Qed.

(** When no descriptor comes from the cache and the loader returns NULL,
    AllocatePluginFile writes through the NULL pointer. *)
Lemma AllocatePluginFile_miss_load_failed E bank abspath relpath st w w1 :
  cache_miss bank relpath st ->
  module_InitDynamic E abspath true w = Done (None, w1) ->
  strdup_ok E relpath = true ->
  AllocatePluginFile E bank abspath relpath st w = Undefined.
Proof.
  intros Hmiss Hdyn Hdup. unfold AllocatePluginFile.
  assert (Hfirst :
    exists bank',
      (if cache_mode_eqb (mode bank) CACHE_USE
       then
         let (hit, rest) := vlc_cache_lookup (cache bank) relpath st in
         let bank0 := set_cache rest bank in
         match hit with
         | Some c =>
             match module c with
             | None => abort
             | Some m =>
                 if strdup_ok E abspath
                 then ret (Some (set_module
                                   (set_psz_filename (Some abspath) m) c),
                           bank0)
                 else vlc_plugin_destroy c ;;; ret (None, bank0)
             end
         | None => ret (None, bank0)
         end
       else ret (None, bank)) w = Done ((None, bank'), w)).
  { destruct Hmiss as [Hmode | Hlook].
    - destruct (mode bank); try congruence; simpl; eexists; reflexivity.
    - destruct (cache_mode_eqb (mode bank) CACHE_USE);
        [| eexists; reflexivity].
      destruct (vlc_cache_lookup (cache bank) relpath st) as [hit rest].
      simpl in Hlook; subst hit; simpl; eexists; reflexivity. }
  destruct Hfirst as [bank' Hfirst].
  erewrite bind_Done by exact Hfirst.
  unfold bind at 1. unfold bind at 1. rewrite Hdyn, Hdup. reflexivity.
Qed.

(** C1. A candidate file that is not in the cache and that the dynamic
    linker rejects is not skipped with -1: the descriptor returned by
    module_InitDynamic is NULL and AllocatePluginFile stores the relative
    path through it before it tests it, so the call, and with it the
    whole plug-in scan, is undefined. *)
Theorem AllocatePluginFile_load_failure_is_undefined :
  module_Load rejecting_env "/plugins/libbad_plugin.so" true = None
  /\ AllocatePluginFile rejecting_env flat_bank "/plugins/libbad_plugin.so"
       "libbad_plugin.so" (Build_stat S_IFREG 10 100) empty_world
     = Undefined
  /\ (module_InitBank rejecting_env ;;; module_LoadPlugins rejecting_env)
       empty_world
     = Undefined.
Proof.
  split; [reflexivity |]. split.
  - eapply AllocatePluginFile_miss_load_failed.
    + left; discriminate.
    + apply module_InitDynamic_load_failed; reflexivity.
    + reflexivity.
  - reflexivity.
Qed.

(* ================================================================= *)
(** ** The bank seed *)

(** C9. The first module_InitBank (usage 0, empty bank) leaves exactly
    one descriptor in [libs]: what the core entry point describes, its
    primary module stamped loaded and not unloadable, and [usage] is 1.
    When the core entry point describes nothing, or a descriptor without
    module, the call dies on its assertion. *)
Theorem module_InitBank_seeds_core E w :
  usage (modules w) = 0%N -> libs (modules w) = [] ->
  match vlc_plugin_describe E (vlc_entry__core E) with
  | Some core =>
      match module core with
      | Some m =>
          exists w' p m',
            module_InitBank E w = Done (tt, w')
            /\ libs (modules w') = [p]
            /\ p = set_module m' core
            /\ m' = set_b_unloadable false (set_b_loaded true m)
            /\ module p = Some m'
            /\ b_loaded m' = true /\ b_unloadable m' = false
            /\ usage (modules w') = 1%N
      | None => module_InitBank E w = Abort
      end
  | None => module_InitBank E w = Abort
  end.
Proof.
  destruct w as [[l c u] tr]; simpl; intros -> ->.
  unfold module_InitBank, module_InitStatic, bind, get_modules; simpl.
  destruct (vlc_plugin_describe E (vlc_entry__core E)) as [core |];
    [| reflexivity].
  destruct (module core) as [m |]; [| reflexivity].
  simpl. do 3 eexists. repeat split.
Qed.

Lemma module_InitBank_seeds_core_witness :
  exists w' p m',
    module_InitBank (flat_env "libfoo_plugin.so") empty_world = Done (tt, w')
    /\ libs (modules w') = [p]
    /\ module p = Some m'
    /\ b_loaded m' = true /\ b_unloadable m' = false.
Proof.
  destruct (module_InitBank_seeds_core (flat_env "libfoo_plugin.so")
              empty_world eq_refl eq_refl)
    as (w' & p & m' & H1 & H2 & _ & _ & H3 & H4 & H5 & _).
  exists w', p, m'. repeat split; assumption.
Defined.

(* ================================================================= *)
(** ** Plug-ins with list callbacks *)

Lemma config_scan_hit cfg :
  forall k i j c,
    (i <= j < i + k)%nat -> nth_error cfg j = Some c ->
    config_has_callback c = true ->
    config_scan cfg i k = Some true.
Proof.
  induction k as [| k IH]; intros i j c Hj Hnth Hcb; [lia |].
  simpl. destruct (nth_error cfg i) as [c0 |] eqn:Hi.
  - destruct (config_has_callback c0) eqn:Hc0; [reflexivity |].
    apply (IH (S i) j c); auto.
    assert (i <> j) by (intros ->; congruence). lia.
  - apply nth_error_None in Hi.
    assert (Hlt : (j < List.length cfg)%nat)
      by (apply nth_error_Some; congruence).
    lia.
Qed.

Lemma module_StoreBank_Done lib w :
  module_StoreBank lib w
  = Done (tt, Build_world
                (Build_modules_t (lib :: libs (modules w))
                   (caches (modules w)) (usage (modules w)))
                (trace w)).
Proof. reflexivity. Qed.

(** C6. When AllocatePluginFile resurrects from the cache a descriptor
    whose primary module is not loaded and declares a list callback, it
    destroys that descriptor and loads the plug-in again with
    module_InitDynamic(abspath, fast = false): either that fails, the
    result is -1 and the bank list is as before, or the descriptor that
    enters the bank is loaded.  In CACHE_RESET mode the descriptor is
    always the freshly loaded one, so the function never enters that
    path and never reaches its assertion. *)
Theorem AllocatePluginFile_callback_forces_load E :
  (forall bank abspath relpath st w c rest m,
     mode bank = CACHE_USE ->
     vlc_cache_lookup (cache bank) relpath st = (Some c, rest) ->
     module c = Some m -> strdup_ok E abspath = true ->
     b_loaded m = false -> has_list_callback m ->
     let cached := set_module (set_psz_filename (Some abspath) m) c in
     let bank' := set_cache rest bank in
     AllocatePluginFile E bank abspath relpath st w
     = (vlc_plugin_destroy cached ;;;
        plugin <- module_InitDynamic E abspath false ;;
        match plugin with
        | None => ret ((-1)%Z, bank')
        | Some p => module_StoreBank p ;;; ret (0%Z, CacheAdd bank' p)
        end) w
     /\ forall r b w',
          AllocatePluginFile E bank abspath relpath st w = Done ((r, b), w') ->
          (r = (-1)%Z /\ libs (modules w') = libs (modules w))
          \/ (r = 0%Z
              /\ exists p m', libs (modules w') = p :: libs (modules w)
                              /\ module p = Some m' /\ b_loaded m' = true))
  /\ (forall bank abspath relpath st w,
        mode bank = CACHE_RESET ->
        AllocatePluginFile E bank abspath relpath st w
        = (plugin <- module_InitDynamic E abspath true ;;
           if strdup_ok E relpath
           then
             match plugin with
             | None => undefined
             | Some p =>
                 let p := set_identity relpath (st_mtime st) (st_size st) p in
                 module_StoreBank p ;;; ret (0%Z, CacheAdd bank p)
             end
           else abort) w).
Proof.
  split.
  - intros bank abspath relpath st w c rest m Hmode Hlook Hmod Hdup Hunl
      (j & cfg & Hj & Hnth & Hcb) cached bank'.
    assert (Heq :
      AllocatePluginFile E bank abspath relpath st w
      = (vlc_plugin_destroy cached ;;;
         plugin <- module_InitDynamic E abspath false ;;
         match plugin with
         | None => ret ((-1)%Z, bank')
         | Some p => module_StoreBank p ;;; ret (0%Z, CacheAdd bank' p)
         end) w).
    { subst cached bank'. destruct bank as [bs md pl ca]; simpl in *.
      subst md. unfold AllocatePluginFile; simpl.
      rewrite Hlook, Hmod, Hdup.
      simpl. unfold bind at 1; simpl.
      unfold bind at 1; simpl.
      rewrite Hunl.
      rewrite (config_scan_hit (p_config m) (confsize m) 0%nat j cfg)
        by (auto; lia).
      unfold bind, vlc_plugin_destroy, emit, assert; simpl.
      destruct (module_InitDynamic E abspath false _) as [[[p |] w1] | | |];
        reflexivity. }
    split; [exact Heq |].
    intros r b w'. rewrite Heq.
    unfold bind at 1; simpl. unfold bind at 1.
    destruct (module_InitDynamic E abspath false _)
      as [[[p |] w1] | | |] eqn:Hdyn; try discriminate.
    + apply module_InitDynamic_Some in Hdyn.
      destruct Hdyn as (-> & m' & Hm' & Hl & _).
      unfold bind; rewrite module_StoreBank_Done; simpl.
      intros H; injection H as <- <- <-. right; simpl.
      split; [reflexivity |]. exists p, m'; auto.
    + unfold module_InitDynamic, bind, emit in Hdyn; simpl in Hdyn.
      assert (Hlibs : libs (modules w1) = libs (modules w)).
      { revert Hdyn.
        unfold msg, module_Unload, vlc_plugin_destroy, emit, ret, abort.
        repeat match goal with
               | |- context [match ?x with _ => _ end] => destruct x
               end; simpl; try discriminate;
          intros H; injection H as <-; reflexivity. }
      intros H; injection H as <- <- <-. left; auto.
  - intros bank abspath relpath st w Hmode.
    destruct bank as [bs md pl ca]; simpl in *. subst md.
    unfold AllocatePluginFile, bind, ret, undefined, abort; simpl.
    destruct (module_InitDynamic E abspath true w)
      as [[[p |] w1] | | |] eqn:Hdyn; try reflexivity;
      (destruct (strdup_ok E relpath); [| reflexivity]);
      [| reflexivity].
    apply module_InitDynamic_Some in Hdyn.
    destruct Hdyn as (-> & m' & Hm' & Hl & _).
    simpl. rewrite Hm', Hl. reflexivity.
Qed.

Lemma AllocatePluginFile_callback_forces_load_witness :
  exists b w' p m',
    AllocatePluginFile callback_env callback_bank "/plugins/libcb_plugin.so"
      "libcb_plugin.so" (Build_stat S_IFREG 10 100) empty_world
    = Done ((0%Z, b), w')
    /\ libs (modules w') = [p]
    /\ module p = Some m' /\ b_loaded m' = true
    /\ trace w' = [ EvDestroy
                      (set_module
                         (set_psz_filename (Some "/plugins/libcb_plugin.so"%string)
                            callback_module) cached_callback_plugin);
                    EvLoad "/plugins/libcb_plugin.so" false ].
Proof.
  destruct (proj1 (AllocatePluginFile_callback_forces_load callback_env)
              callback_bank "/plugins/libcb_plugin.so"%string
              "libcb_plugin.so"%string (Build_stat S_IFREG 10 100)
              empty_world cached_callback_plugin [] callback_module
              eq_refl eq_refl eq_refl eq_refl eq_refl) as [Heq _].
  - exists 1%nat, (Build_module_config_t 0 (Some 8%nat) None).
    repeat split. vm_compute; lia.
  - rewrite Heq. do 4 eexists. vm_compute. repeat split.
Defined.

(** The same plug-in seen through a whole scan: the cached descriptor
    is destroyed, the file is loaded with fast = false and the descriptor
    in the bank is loaded. *)
Example callback_plugin_loaded_after_scan :
  exists w' p m rest,
    (module_InitBank callback_env ;;; module_LoadPlugins callback_env)
      empty_world = Done (2%nat, w')
    /\ libs (modules w') = p :: rest
    /\ module p = Some m
    /\ psz_shortname m = "cb"%string /\ b_loaded m = true
    /\ count_loads (trace w') = 1%nat
    /\ In (EvLoad "/plugins/libcb_plugin.so" false) (trace w').
Proof.
  do 4 eexists. split; [vm_compute; reflexivity |].
  simpl. repeat split. auto 10.
Qed.

(* ================================================================= *)
(** ** The depth of the walk *)

Lemma bind_ret_r {A} (c : M A) w : bind c (fun a => ret a) w = c w.
Proof. unfold bind, ret. now destruct (c w) as [[a w'] | | |]. Qed.

Lemma fold_each_real_entries E rec reldir l :
  forall bank w,
    fold_each l (AllocatePluginDir_entry E rec reldir) bank w
    = fold_each (real_entries l) (AllocatePluginDir_entry E rec reldir) bank w.
Proof.
  induction l as [| f l IH]; intros bank w; simpl; [reflexivity |].
  destruct (strcmp_eq f "." || strcmp_eq f "..") eqn:Hdot; simpl.
  - unfold bind, AllocatePluginDir_entry. rewrite Hdot. simpl. apply IH.
  - unfold bind.
    destruct (AllocatePluginDir_entry E rec reldir bank f w)
      as [[b' w'] | | |]; auto.
Qed.

(** A walk of depth [depth] reaches the file at the end of a chain of
    directories exactly when the chain is shorter than [depth]. *)
Lemma AllocatePluginDir_chain E bank file st :
  forall dirs depth absdir reldir w,
    chain E bank absdir reldir dirs file st ->
    AllocatePluginDir E bank depth absdir reldir w
    = if (List.length dirs <? N.to_nat depth)%nat
      then scan_file E bank (chain_reldir E reldir dirs) file st w
      else Done (bank, w).
Proof.
  induction dirs as [| d ds IH]; intros depth absdir reldir w Hchain;
    rewrite AllocatePluginDir_eq; simpl in Hchain.
  - destruct Hchain as ((l & Hopen & Hreal) & Hvis & Hreg & Hpat).
    destruct (N.eqb_spec depth 0) as [-> | Hnz]; [reflexivity |].
    replace (List.length (@nil string) <? N.to_nat depth)%nat with true
      by (symmetry; apply Nat.ltb_lt; simpl; lia).
    rewrite Hopen, fold_each_real_entries, Hreal. simpl.
    rewrite bind_ret_r.
    rewrite (AllocatePluginDir_entry_regular _ _ _ _ _ _ _ Hvis Hreg).
    apply is_plugin_name_iff in Hpat. now rewrite Hpat.
  - destruct Hchain as ((l & Hopen & Hreal) & (sd & Hvis & Hdir) & Hrest).
    destruct (N.eqb_spec depth 0) as [-> | Hnz]; [reflexivity |].
    rewrite Hopen, fold_each_real_entries, Hreal. simpl fold_each.
    rewrite bind_ret_r.
    rewrite (AllocatePluginDir_entry_directory _ _ _ _ _ _ _ Hvis Hdir).
    rewrite (IH _ _ _ _ Hrest). simpl chain_reldir.
    replace (List.length (d :: ds) <? N.to_nat depth)%nat
      with (List.length ds <? N.to_nat (depth - 1))%nat; [reflexivity |].
    simpl List.length.
    destruct (Nat.ltb_spec (List.length ds) (N.to_nat (depth - 1)));
      symmetry; [apply Nat.ltb_lt | apply Nat.ltb_ge]; lia.
Qed.

Lemma chain_visible E bank file st :
  forall dirs absdir reldir,
    chain E bank absdir reldir dirs file st ->
    visible_entry E bank (chain_reldir E reldir dirs) file st.
Proof.
  induction dirs as [| d ds IH]; intros absdir reldir Hchain;
    simpl in Hchain |- *.
  - tauto.
  - destruct Hchain as (_ & _ & Hrest). exact (IH _ _ Hrest).
Qed.

(** A file that is not looked up in the cache and that the loader
    accepts enters the bank, stamped with its relative path, mtime and
    size. *)
Lemma AllocatePluginFile_fresh E bank abspath relpath st w p w1 :
  mode bank <> CACHE_USE ->
  module_InitDynamic E abspath true w = Done (Some p, w1) ->
  strdup_ok E relpath = true ->
  AllocatePluginFile E bank abspath relpath st w
  = Done ((0%Z,
           if negb (cache_mode_eqb (mode bank) CACHE_IGNORE)
           then CacheAdd bank
                  (set_identity relpath (st_mtime st) (st_size st) p)
           else bank),
          store_lib (set_identity relpath (st_mtime st) (st_size st) p) w1).
Proof.
  intros Hmode Hdyn Hdup.
  destruct (module_InitDynamic_Some _ _ _ _ _ _ Hdyn) as (_ & m & Hm & Hl & _).
  destruct bank as [bs md pl ca]; simpl in *.
  destruct md; [congruence | |];
    unfold AllocatePluginFile, bind, ret; simpl;
    rewrite Hdyn, Hdup; simpl; rewrite Hm, Hl; reflexivity.
Qed.

(** The walk of a search root that holds nothing but one chain of
    directories with a plug-in at its end: the walk starts at depth 5
    and the root itself takes one level, so that the plug-in is scanned
    (and enters the bank when the dynamic loader accepts it) when the
    chain has at most four directories, and the scan of the root leaves
    the bank as it was when the chain has five or more. *)
Lemma walk_single_chain E root dirs file st :
  (forall bank w,
     base bank = root ->
     chain E bank root None dirs file st ->
     AllocatePluginDir E bank 5 root None w
     = if (List.length dirs <=? 4)%nat
       then scan_file E bank (chain_reldir E None dirs) file st w
       else Done (bank, w))
  /\ (forall w,
        let bank := Build_module_bank_t root CACHE_IGNORE [] [] in
        let rel := entry_relpath E (chain_reldir E None dirs) file in
        let abs := entry_abspath E bank (chain_reldir E None dirs) file in
        chain E bank root None dirs file st ->
        ((List.length dirs <= 4)%nat ->
         forall p w1,
           module_InitDynamic E abs true (browsing w root)
           = Done (Some p, w1) ->
           AllocatePluginPath E root CACHE_IGNORE w
           = Done (tt, store_lib
                         (set_identity rel (st_mtime st) (st_size st) p) w1))
        /\ ((5 <= List.length dirs)%nat ->
            AllocatePluginPath E root CACHE_IGNORE w
            = Done (tt, browsing w root))).
Proof.
  assert (Hdir : forall bank w,
             base bank = root ->
             chain E bank root None dirs file st ->
             AllocatePluginDir E bank 5 root None w
             = if (List.length dirs <=? 4)%nat
               then scan_file E bank (chain_reldir E None dirs) file st w
               else Done (bank, w)).
  { intros bank w _ Hchain.
    rewrite (AllocatePluginDir_chain _ _ _ _ _ 5%N _ _ w Hchain).
    change (N.to_nat 5) with 5%nat.
    destruct (Nat.ltb_spec (List.length dirs) 5),
      (Nat.leb_spec (List.length dirs) 4); try reflexivity; lia. }
  split; [exact Hdir |].
  intros w bank rel abs Hchain.
  pose proof (Hdir bank (browsing w root) eq_refl Hchain) as Hwalk.
  assert (Hpath : forall r,
             AllocatePluginDir E bank 5 root None (browsing w root) = r ->
             AllocatePluginPath E root CACHE_IGNORE w
             = match r with
               | Done (b, w') => for_each (cache b) vlc_plugin_destroy w'
               | Abort => Abort
               | Undefined => Undefined
               | OutOfFuel => OutOfFuel
               end).
  { intros r <-. unfold AllocatePluginPath; simpl.
    unfold bind, msg, emit, ret; simpl.
    fold bank. unfold browsing, add_event; simpl.
    destruct (AllocatePluginDir E bank 5 root None _) as [[b w'] | | |];
      try reflexivity.
    destruct (for_each (cache b) vlc_plugin_destroy w') as [[[] w''] | | |];
      reflexivity. }
  split; intros Hlen.
  - replace (List.length dirs <=? 4)%nat with true in Hwalk
      by (symmetry; apply Nat.leb_le; lia).
    intros p w1 Hdyn.
    destruct (chain_visible _ _ _ _ _ _ _ Hchain) as (_ & _ & Hrel & _).
    rewrite (Hpath _ Hwalk). unfold scan_file, bind.
    fold rel abs.
    rewrite (AllocatePluginFile_fresh E bank abs rel st _ p w1);
      [reflexivity | discriminate | exact Hdyn | exact Hrel].
  - replace (List.length dirs <=? 4)%nat with false in Hwalk
      by (symmetry; apply Nat.leb_gt; lia).
    rewrite (Hpath _ Hwalk). reflexivity.
Qed.

Lemma deep_env_chain subs :
  subs = four_subs \/ subs = five_subs ->
  chain (deep_env subs) (Build_module_bank_t "/plugins" CACHE_IGNORE [] [])
    "/plugins" None subs "libZ_plugin.so" (Build_stat S_IFREG 10 100).
Proof.
  intros [-> | ->]; simpl;
    repeat match goal with
           | |- _ /\ _ => split
           | |- exists l : list string, _ =>
               eexists; split; reflexivity
           | |- exists sd, visible_entry _ _ _ _ sd /\ _ =>
               exists (Build_stat S_IFDIR 0 0); split; [| reflexivity]
           | |- visible_entry _ _ _ _ _ => unfold visible_entry
           | |- _ <> _ => discriminate
           | |- plugin_pattern _ _ => exists "Z"%string; reflexivity
           | |- _ = _ => reflexivity
           end.
Qed.

Example walk_single_chain_deep :
  (exists w' p m,
     AllocatePluginPath (deep_env four_subs) "/plugins" CACHE_IGNORE
       empty_world = Done (tt, w')
     /\ libs (modules w') = [p]
     /\ path p = Some "sub1/sub2/sub3/sub4/libZ_plugin.so"%string
     /\ module p = Some m /\ b_loaded m = true)
  /\ AllocatePluginPath (deep_env five_subs) "/plugins" CACHE_IGNORE
       empty_world
     = Done (tt, browsing empty_world "/plugins").
Proof.
  split.
  - destruct (proj2 (walk_single_chain (deep_env four_subs) "/plugins"%string
                       four_subs "libZ_plugin.so"%string
                       (Build_stat S_IFREG 10 100))
                empty_world (deep_env_chain _ (or_introl eq_refl)))
      as [Hload _].
    do 3 eexists. split; [apply Hload; [simpl; lia | reflexivity] |].
    simpl. repeat split.
  - destruct (proj2 (walk_single_chain (deep_env five_subs) "/plugins"%string
                       five_subs "libZ_plugin.so"%string
                       (Build_stat S_IFREG 10 100))
                empty_world (deep_env_chain _ (or_intror eq_refl)))
      as [_ Hpath].
    apply Hpath. simpl; lia.
Qed.


(* ================================================================= *)
(** ** Lazy mapping *)

Lemma nth_error_upd {A} (l : list A) :
  forall i x y, nth_error l i = Some y -> nth_error (upd l i x) i = Some x.
Proof.
  induction l as [| a l IH]; intros [| i] x y H; simpl in *;
    try discriminate; [reflexivity | eauto].
Qed.

Lemma count_loads_app tr1 tr2 :
  count_loads (tr1 ++ tr2) = (count_loads tr1 + count_loads tr2)%nat.
Proof. unfold count_loads. now rewrite filter_app, length_app. Qed.

(** What the loader returns depends on the file, not on the bank; it
    leaves the bank alone. *)
Lemma module_InitDynamic_frame E file fast w r w' :
  module_InitDynamic E file fast w = Done (r, w') ->
  modules w' = modules w
  /\ forall w2, exists w2',
       module_InitDynamic E file fast w2 = Done (r, w2')
       /\ modules w2' = modules w2.
Proof.
  unfold module_InitDynamic, bind, emit, msg, module_Unload,
    vlc_plugin_destroy, emit, ret, abort; simpl.
  destruct (module_Load E file fast) as [h |].
  2: { intros H; injection H as <- <-. split; [reflexivity |].
       intros w2; eexists; split; reflexivity. }
  destruct (module_Lookup E h (entry_name E)) as [entry |].
  2: { intros H; injection H as <- <-. split; [reflexivity |].
       intros w2; eexists; split; reflexivity. }
  destruct (vlc_plugin_describe E entry) as [d |].
  2: { intros H; injection H as <- <-. split; [reflexivity |].
       intros w2; eexists; split; reflexivity. }
  destruct (module d) as [m |]; [| discriminate].
  destruct (strdup_ok E file);
    intros H; injection H as <- <-; (split; [reflexivity |]);
    intros w2; eexists; split; reflexivity.
Qed.

(** C8. module_Map on a module whose plug-in is loaded makes no call to
    the dynamic linker, changes nothing and returns 0.  Hence, for two
    calls in a row on one module: the second returns what the first
    returned, and when the first succeeded the second is a no-op and the
    two calls together made at most one Load call. *)
Theorem module_Map_idempotent E r w :
  (forall plugin m,
     nth_error (libs (modules w)) (ref_plugin r) = Some plugin ->
     module plugin = Some m -> b_loaded m = true ->
     module_Map E r w = Done (0%Z, w))
  /\ (forall z1 w1,
        module_Map E r w = Done (z1, w1) ->
        exists w2,
          module_Map E r w1 = Done (z1, w2)
          /\ (z1 = 0%Z ->
              w2 = w1
              /\ (count_loads (trace w2) <= count_loads (trace w) + 1)%nat)).
Proof.
  split.
  - intros plugin m Hnth Hmod Hl.
    unfold module_Map, bind, get_modules. rewrite Hnth, Hmod, Hl.
    reflexivity.
  - intros z1 w1. unfold module_Map at 1. unfold bind at 1, get_modules.
    destruct (nth_error (libs (modules w)) (ref_plugin r)) as [plugin |] eqn:Hnth;
      [| discriminate].
    destruct (module plugin) as [m |] eqn:Hmod; [| discriminate].
    destruct (b_loaded m) eqn:Hl; cbn [negb]; cbv beta iota.
    + (* already loaded *)
      intros H; injection H as <- <-. exists w. split.
      * unfold module_Map, bind, get_modules. rewrite Hnth, Hmod, Hl.
        reflexivity.
      * intros _. split; [reflexivity | lia].
    + destruct (psz_filename m) as [file |] eqn:Hfile; [| discriminate].
      unfold bind at 1.
      destruct (module_InitDynamic E file false w) as [[[u |] w'] | | |] eqn:Hdyn;
        try discriminate.
      * (* the load succeeded: the bank entry is merged and marked *)
        destruct (module_InitDynamic_Some _ _ _ _ _ _ Hdyn) as (-> & _).
        destruct (module u) as [fresh |]; [| discriminate].
        unfold bind, get_modules, put_modules, vlc_plugin_destroy, emit, ret.
        simpl. intros H; injection H as <- <-.
        eexists; split.
        -- unfold module_Map, bind, get_modules; simpl.
           rewrite (nth_error_upd _ _ _ _ Hnth). simpl. reflexivity.
        -- intros _. split; [reflexivity |].
           simpl. rewrite !count_loads_app. unfold count_loads. simpl. lia.
      * (* the load failed: the module stays as it was *)
        destruct (module_InitDynamic_frame _ _ _ _ _ _ Hdyn) as (Hmods & Hagain).
        unfold bind, msg, emit, ret. simpl.
        intros H; injection H as <- <-.
        unfold module_Map, get_modules. unfold bind at 1. cbn [modules].
        rewrite Hmods, Hnth, Hmod, Hl, Hfile. cbn [negb]. cbv beta iota.
        unfold bind at 1.
        match goal with
        | |- context [module_InitDynamic E file false ?x] =>
            destruct (Hagain x) as (w2' & Hdyn2 & Hmods2); rewrite Hdyn2
        end.
        unfold bind, msg, emit, ret. simpl.
        eexists; split; [reflexivity | discriminate].
Qed.

Lemma module_Map_idempotent_witness :
  exists w1,
    module_Map (flat_env "libfoo_plugin.so") (Build_module_ref 0) cached_world
    = Done (0%Z, w1)
    /\ module_Map (flat_env "libfoo_plugin.so") (Build_module_ref 0) w1
       = Done (0%Z, w1)
    /\ count_loads (trace w1) = 1%nat.
Proof.
  eexists. split; [vm_compute; reflexivity |].
  destruct (proj2 (module_Map_idempotent (flat_env "libfoo_plugin.so")
                     (Build_module_ref 0) cached_world)
              0%Z _ eq_refl) as (w2 & Hmap & Hsame).
  destruct (Hsame eq_refl) as [-> _].
  split; [exact Hmap | reflexivity].
Defined.

(** A module whose file the dynamic linker rejects stays unloaded: each
    call attempts the load and returns -1. *)
Example module_Map_failing_twice :
  exists w1 w2,
    module_Map rejecting_env (Build_module_ref 0) cached_world
    = Done ((-1)%Z, w1)
    /\ module_Map rejecting_env (Build_module_ref 0) w1 = Done ((-1)%Z, w2)
    /\ modules w2 = modules cached_world
    /\ count_loads (trace w2) = 2%nat.
Proof. do 2 eexists. repeat split; vm_compute; reflexivity. Qed.

(* ================================================================= *)
(** ** The flat list of modules *)

Lemma length_upd {A} (l : list A) :
  forall i x, List.length (upd l i x) = List.length l.
Proof.
  induction l as [| a l IH]; intros [| i] x; simpl; auto.
Qed.

Lemma upd_app_here {A} (l r : list A) y x :
  upd (l ++ y :: r) (List.length l) x = l ++ x :: r.
Proof. induction l as [| a l IH]; simpl; [reflexivity | now rewrite IH]. Qed.

Lemma store_next (pre : table) m rest :
  store (pre ++ None :: rest) (List.length pre) m
  = Some ((pre ++ [Some m]) ++ rest).
Proof.
  unfold store.
  replace (List.length pre <? List.length (pre ++ None :: rest))%nat with true
    by (symmetry; apply Nat.ltb_lt; rewrite length_app; simpl; lia).
  now rewrite upd_app_here, <- app_assoc.
Qed.

(** Writing a chain into a table with room for it fills the next cells
    in order. *)
Lemma store_chain_fill subs :
  forall (pre : table) k,
    store_chain (pre ++ repeat None (List.length subs + k))
      (List.length pre) subs
    = Some (pre ++ map Some subs ++ repeat None k,
            (List.length pre + List.length subs)%nat).
Proof.
  induction subs as [| s subs IH]; intros pre k; simpl.
  - now rewrite Nat.add_0_r.
  - rewrite store_next.
    replace (S (List.length pre)) with (List.length (pre ++ [Some s]))
      by (rewrite length_app; simpl; lia).
    rewrite IH, length_app, <- app_assoc. simpl.
    do 2 f_equal. lia.
Qed.

Lemma realloc_grow (tab : table) n :
  (List.length tab <= n)%nat ->
  realloc tab n = tab ++ repeat None (n - List.length tab).
Proof. intros H. unfold realloc. now rewrite firstn_all2. Qed.

Lemma all_modules_length ls :
  Forall wf_plugin ls -> List.length (all_modules ls) = total_modules ls.
Proof.
  unfold all_modules, total_modules.
  induction 1 as [| p ls (m & Hm & Hcount) _ IH]; [reflexivity |].
  cbn [flat_map map list_sum fold_right].
  rewrite length_app, IH.
  unfold descriptor_modules, descriptor_count. rewrite Hm.
  unfold plugin_modules. simpl. now rewrite Hcount.
Qed.

Lemma module_list_get_loop_spec E ls :
  Forall wf_plugin ls -> (forall n, malloc_ok E n = true) ->
  forall written,
    module_list_get_loop E ls (map Some written) (List.length written)
    = Done (table_of (written ++ all_modules ls),
            (List.length written + total_modules ls)%nat).
Proof.
  intros Hwf Hmalloc.
  induction Hwf as [| p ls (m & Hm & Hcount) _ IH]; intros written.
  - simpl. rewrite app_nil_r, Nat.add_0_r. now destruct written.
  - cbn [module_list_get_loop]. rewrite Hm, Hmalloc.
    rewrite realloc_grow by (rewrite length_map; lia).
    rewrite length_map.
    replace (List.length written + 1 + submodule_count m - List.length written)%nat
      with (S (submodule_count m)) by lia.
    simpl repeat.
    rewrite <- (length_map Some written) at 1.
    rewrite store_next.
    replace (S (List.length written))
      with (List.length (map Some written ++ [Some m]))
      by (rewrite length_app, length_map; simpl; lia).
    rewrite Hcount.
    rewrite <- (Nat.add_0_r (List.length (submodule m))) at 1.
    rewrite store_chain_fill. simpl repeat. rewrite app_nil_r.
    replace ((map Some written ++ [Some m]) ++ map Some (submodule m))
      with (map Some (written ++ plugin_modules m))
      by (unfold plugin_modules; rewrite !map_app; simpl;
          now rewrite <- app_assoc).
    replace (List.length (map Some written ++ [Some m])
             + List.length (submodule m))%nat
      with (List.length (written ++ plugin_modules m))
      by (unfold plugin_modules; rewrite !length_app, length_map; simpl; lia).
    rewrite IH.
    assert (Hall : all_modules (p :: ls) = plugin_modules m ++ all_modules ls).
    { unfold all_modules. cbn [flat_map].
      unfold descriptor_modules at 1. now rewrite Hm. }
    assert (Htot : total_modules (p :: ls)
                   = (1 + submodule_count m + total_modules ls)%nat).
    { unfold total_modules. cbn [map list_sum fold_right].
      unfold descriptor_count at 1. now rewrite Hm. }
    rewrite Hall, Htot, <- app_assoc, length_app.
    unfold plugin_modules at 2. cbn [List.length].
    rewrite Hcount. do 2 f_equal. lia.
Qed.

Lemma module_list_get_spec E w :
  Forall wf_plugin (libs (modules w)) -> (forall n, malloc_ok E n = true) ->
  module_list_get E w
  = Done ((table_of (all_modules (libs (modules w))),
           total_modules (libs (modules w))), w).
Proof.
  intros Hwf Hmalloc. unfold module_list_get.
  change (@nil (option module_t)) with (map (@Some module_t) []).
  change 0%nat with (List.length (@nil module_t)) at 1.
  now rewrite (module_list_get_loop_spec E _ Hwf Hmalloc []).
Qed.

(* ================================================================= *)
(** ** What the loading phase leaves in place *)

Lemma grows_refl w : grows w w.
Proof. repeat split; now exists []. Qed.

Lemma grows_trans w1 w2 w3 : grows w1 w2 -> grows w2 w3 -> grows w1 w3.
Proof.
  intros (Hu1 & (l1 & Hl1) & (c1 & Hc1)) (Hu2 & (l2 & Hl2) & (c2 & Hc2)).
  repeat split.
  - congruence.
  - exists (l2 ++ l1). now rewrite Hl2, Hl1, app_assoc.
  - exists (c2 ++ c1). now rewrite Hc2, Hc1, app_assoc.
Qed.

Lemma growing_ret {A} (a : A) : growing (ret a).
Proof. intros w a' w' H; injection H as <- <-. apply grows_refl. Qed.

Lemma growing_abort {A} : growing (@abort A).
Proof. intros w a w' H; discriminate. Qed.

Lemma growing_undefined {A} : growing (@undefined A).
Proof. intros w a w' H; discriminate. Qed.

Lemma growing_out_of_fuel {A} : growing (@out_of_fuel A).
Proof. intros w a w' H; discriminate. Qed.

Lemma growing_emit e : growing (emit e).
Proof.
  intros w a w' H; injection H as <- <-.
  repeat split; simpl; now exists [].
Qed.

Lemma growing_get_modules : growing get_modules.
Proof. intros w a w' H; injection H as <- <-. apply grows_refl. Qed.

Lemma growing_bind {A B} (c : M A) (k : A -> M B) :
  growing c -> (forall a, growing (k a)) -> growing (bind c k).
Proof.
  intros Hc Hk w b w'' H.
  destruct (bind_inv _ _ _ _ _ H) as (a & w' & H1 & H2).
  eapply grows_trans; [eapply Hc | eapply Hk]; eassumption.
Qed.

Lemma growing_for_each {A} (l : list A) (body : A -> M unit) :
  (forall x, growing (body x)) -> growing (for_each l body).
Proof.
  intros Hb; induction l as [| x l IH]; simpl.
  - apply growing_ret.
  - apply growing_bind; auto.
Qed.

Lemma growing_fold_each {A S} (l : list A) (body : S -> A -> M S) :
  (forall s x, growing (body s x)) -> forall s, growing (fold_each l body s).
Proof.
  intros Hb; induction l as [| x l IH]; intros s; simpl.
  - apply growing_ret.
  - apply growing_bind; auto.
Qed.

Lemma growing_module_StoreBank lib : growing (module_StoreBank lib).
Proof.
  intros w a w' H. rewrite module_StoreBank_Done in H.
  injection H as <- <-. repeat split; simpl.
  - now exists [lib].
  - now exists [].
Qed.

Lemma growing_vlc_cache_load E root : growing (vlc_cache_load E root).
Proof.
  unfold vlc_cache_load.
  destruct (cache_file E root) as [[blob entries] |]; [| apply growing_ret].
  intros w a w' H. injection H as <- <-. repeat split; simpl.
  - now exists [].
  - now exists [blob].
Qed.

Ltac growing_step :=
  match goal with
  | |- growing (bind _ _) => apply growing_bind; [| intros]
  | |- growing (ret _) => apply growing_ret
  | |- growing abort => apply growing_abort
  | |- growing undefined => apply growing_undefined
  | |- growing (emit _) => apply growing_emit
  | |- growing (msg _ _) => apply growing_emit
  | |- growing (module_Unload _) => apply growing_emit
  | |- growing (vlc_plugin_destroy _) => apply growing_emit
  | |- growing (module_StoreBank _) => apply growing_module_StoreBank
  | |- growing (vlc_cache_load _ _) => apply growing_vlc_cache_load
  | |- growing (for_each _ _) => apply growing_for_each; intros
  | |- growing (assert ?b) => unfold assert; destruct b
  | |- growing (match ?x with _ => _ end) => destruct x
  | |- growing (let (_, _) := ?x in _) => destruct x
  end.

Lemma growing_module_InitDynamic E file fast :
  growing (module_InitDynamic E file fast).
Proof. unfold module_InitDynamic; repeat growing_step. Qed.

Lemma growing_AllocatePluginFile E bank abspath relpath st :
  growing (AllocatePluginFile E bank abspath relpath st).
Proof.
  unfold AllocatePluginFile;
    repeat (growing_step || apply growing_module_InitDynamic).
Qed.

Lemma growing_AllocatePluginDir_entry E rec reldir bank file :
  (forall b a r, growing (rec b a r)) ->
  growing (AllocatePluginDir_entry E rec reldir bank file).
Proof.
  intros Hrec; unfold AllocatePluginDir_entry.
  repeat (growing_step || apply growing_AllocatePluginFile || apply Hrec).
Qed.

Lemma growing_AllocatePluginDir_fuel E fuel :
  forall bank maxdepth absdir reldir,
    growing (AllocatePluginDir_fuel E fuel bank maxdepth absdir reldir).
Proof.
  induction fuel as [| fuel IH]; intros bank maxdepth absdir reldir; simpl.
  - apply growing_out_of_fuel.
  - destruct (maxdepth =? 0)%N; [apply growing_ret |].
    destruct (vlc_opendir E absdir) as [entries |]; [| apply growing_ret].
    apply growing_fold_each; intros s x.
    apply growing_AllocatePluginDir_entry; intros b a r. apply IH.
Qed.

Lemma growing_AllocatePluginPath E root mode :
  growing (AllocatePluginPath E root mode).
Proof.
  unfold AllocatePluginPath, AllocatePluginDir.
  repeat (growing_step || apply growing_AllocatePluginDir_fuel).
Qed.

Lemma growing_AllocateAllPlugins E : growing (AllocateAllPlugins E).
Proof.
  unfold AllocateAllPlugins.
  repeat (growing_step || apply growing_AllocatePluginPath).
Qed.

Lemma growing_module_InitStaticModules E :
  growing (module_InitStaticModules E).
Proof.
  unfold module_InitStaticModules, module_InitStatic.
  repeat growing_step.
Qed.

Lemma module_list_get_world E w r w' :
  module_list_get E w = Done (r, w') -> w' = w.
Proof.
  unfold module_list_get.
  destruct (module_list_get_loop E (libs (modules w)) [] 0);
    try discriminate.
  now intros H; injection H as <- <-.
Qed.

Lemma growing_module_list_get E : growing (module_list_get E).
Proof.
  intros w a w' H. apply module_list_get_world in H. subst w'.
  apply grows_refl.
Qed.

Lemma growing_module_LoadPlugins E : growing (module_LoadPlugins E).
Proof.
  unfold module_LoadPlugins.
  repeat (growing_step
          || apply growing_get_modules
          || apply growing_module_InitStaticModules
          || apply growing_AllocateAllPlugins
          || apply growing_module_list_get).
Qed.

(* ================================================================= *)
(** ** The reference count *)

Lemma modules_eta (m : modules_t) l c u :
  libs m = l -> caches m = c -> usage m = u -> m = Build_modules_t l c u.
Proof. destruct m; simpl; congruence. Qed.

Lemma wrap_unsigned_succ u :
  (u < UINT_MAX)%N -> wrap_unsigned (u + 1) = (u + 1)%N.
Proof.
  intros H. unfold wrap_unsigned. apply N.mod_small.
  unfold UINT_MAX in *. lia.
Qed.

Lemma wrap_unsigned_bound n : (wrap_unsigned n <= UINT_MAX)%N.
Proof.
  unfold wrap_unsigned.
  pose proof (N.mod_lt n (UINT_MAX + 1)) as H.
  unfold UINT_MAX in *. lia.
Qed.

(** What module_InitBank does when it returns. *)
Lemma module_InitBank_Done E w w' :
  module_InitBank E w = Done (tt, w') ->
  exists l,
    modules w'
    = Build_modules_t (l ++ libs (modules w)) (caches (modules w))
        (wrap_unsigned (usage (modules w) + 1))
    /\ if (usage (modules w) =? 0)%N then exists p, l = [p] else l = [].
Proof.
  unfold module_InitBank, module_InitStatic, bind, get_modules.
  destruct (usage (modules w) =? 0)%N.
  - destruct (vlc_plugin_describe E (vlc_entry__core E)) as [core |];
      [| discriminate].
    destruct (module core) as [m |]; [| discriminate].
    simpl. intros H; injection H as <-. simpl.
    eexists [_]. split; [reflexivity | eauto].
  - simpl. intros H; injection H as <-. now exists [].
Qed.

Lemma teardown_Done ls :
  forall w w',
    for_each ls
      (fun lib =>
         match module lib with
         | None => abort
         | Some mdl =>
             if b_loaded mdl && b_unloadable mdl
             then module_Unload (handle mdl) ;;;
                  vlc_plugin_destroy (set_module (set_b_loaded false mdl) lib)
             else vlc_plugin_destroy lib
         end) w = Done (tt, w') ->
    w' = Build_world (modules w) (trace w ++ teardown_events ls).
Proof.
  induction ls as [| lib ls IH]; intros w w' H; simpl in H.
  - injection H as <-. simpl. rewrite app_nil_r. now destruct w.
  - apply bind_inv in H as ([] & w1 & Hlib & Hrest).
    apply IH in Hrest. subst w'.
    unfold teardown_events; simpl. fold (teardown_events ls).
    destruct (module lib) as [mdl |]; [| discriminate].
    destruct (b_loaded mdl && b_unloadable mdl);
      unfold bind, module_Unload, vlc_plugin_destroy, emit in Hlib;
      simpl in Hlib; injection Hlib as <-; simpl;
      now rewrite <- !app_assoc.
Qed.

(** What module_EndBank does when it returns. *)
Lemma module_EndBank_Done p w w' :
  module_EndBank p w = Done (tt, w') ->
  (0 < usage (modules w))%N
  /\ if (usage (modules w) - 1 =? 0)%N
     then modules w' = Build_modules_t [] [] 0
          /\ trace w'
             = trace w ++ EvUnsortConfig
                 :: teardown_events (libs (modules w))
                 ++ [EvChainRelease (caches (modules w))]
     else modules w'
          = Build_modules_t (libs (modules w)) (caches (modules w))
              (usage (modules w) - 1)
          /\ trace w' = trace w ++ [EvChainRelease []].
Proof.
  unfold module_EndBank. unfold bind at 1, get_modules.
  unfold bind at 1, assert.
  destruct (N.ltb_spec 0 (usage (modules w))) as [Hpos | Hz];
    [| discriminate].
  split; [exact Hpos |]. revert H. unfold ret at 1.
  destruct (N.eqb_spec (usage (modules w) - 1) 0) as [Hlast | Hmore].
  - unfold bind at 1. unfold bind at 1. unfold emit at 1.
    unfold bind at 1. unfold put_modules at 1. unfold ret at 1.
    cbn [modules trace]. unfold bind at 1.
    match goal with
    | |- context [for_each ?ls ?body ?w1] =>
        destruct (for_each ls body w1) as [[[] w2] | | |] eqn:Htear
    end; try discriminate.
    apply teardown_Done in Htear. subst w2.
    unfold emit. intros H; injection H as <-. simpl.
    rewrite Hlast. split; [reflexivity |].
    now rewrite <- !app_assoc.
  - unfold bind, put_modules, ret, emit. simpl.
    intros H; injection H as <-. simpl. split; reflexivity.
Qed.

Lemma module_LoadPlugins_idle E w n w' :
  usage (modules w) <> 1%N ->
  module_LoadPlugins E w = Done (n, w') -> modules w' = modules w.
Proof.
  intros Hidle. unfold module_LoadPlugins, bind, get_modules.
  apply N.eqb_neq in Hidle. rewrite Hidle. simpl.
  destruct (module_list_get E w) as [[[t c] w1] | | |] eqn:Hlist;
    try discriminate.
  apply module_list_get_world in Hlist. subst w1.
  unfold msg, emit, ret. intros H; injection H as <- <-. reflexivity.
Qed.

Lemma run_balanced_Pair E inner next w seen w' :
  run_balanced E (Pair inner next) w = Done (seen, w') ->
  exists w1 n w2 s3 w3 w4 s5,
    module_InitBank E w = Done (tt, w1)
    /\ module_LoadPlugins E w1 = Done (n, w2)
    /\ run_balanced E inner w2 = Done (s3, w3)
    /\ module_EndBank true w3 = Done (tt, w4)
    /\ run_balanced E next w4 = Done (s5, w')
    /\ seen = modules w1 :: modules w2 :: s3 ++ modules w4 :: s5.
Proof.
  simpl. intros H.
  apply bind_inv in H as ([] & w1 & H1 & H).
  apply bind_inv in H as (m1 & w1' & Hg1 & H). injection Hg1 as <- <-.
  apply bind_inv in H as (n & w2 & H2 & H).
  apply bind_inv in H as (m2 & w2' & Hg2 & H). injection Hg2 as <- <-.
  apply bind_inv in H as (s3 & w3 & H3 & H).
  apply bind_inv in H as ([] & w4 & H4 & H).
  apply bind_inv in H as (m3 & w4' & Hg3 & H). injection Hg3 as <- <-.
  apply bind_inv in H as (s5 & w5 & H5 & H).
  injection H as <- <-.
  exists w1, n, w2, s3, w3, w4, s5. repeat split; assumption.
Qed.

(** A run of matched pairs that returns leaves the count where it was. *)
Lemma run_balanced_usage E b :
  forall w seen w',
    (usage (modules w) <= UINT_MAX)%N ->
    run_balanced E b w = Done (seen, w') ->
    usage (modules w') = usage (modules w).
Proof.
  induction b as [| inner IHi next IHn]; intros w seen w' Hu H.
  - now injection H as _ <-.
  - apply run_balanced_Pair in H
      as (w1 & n & w2 & s3 & w3 & w4 & s5 & H1 & H2 & H3 & H4 & H5 & _).
    apply module_InitBank_Done in H1 as (l & Hm1 & _).
    apply growing_module_LoadPlugins in H2 as (Hu2 & _).
    assert (Hu1 : usage (modules w1) = wrap_unsigned (usage (modules w) + 1))
      by now rewrite Hm1.
    pose proof (wrap_unsigned_bound (usage (modules w) + 1)) as Hb.
    apply IHi in H3; [| lia].
    apply module_EndBank_Done in H4 as (Hpos & H4).
    assert (Hu4 : usage (modules w4) = (usage (modules w3) - 1)%N).
    { destruct (N.eqb_spec (usage (modules w3) - 1) 0) as [Hz | Hnz];
        destruct H4 as [Hm4 _]; rewrite Hm4; simpl; lia. }
    apply IHn in H5; [| lia].
    destruct (N.eq_dec (usage (modules w)) UINT_MAX) as [Hmax | Hlt].
    + rewrite Hmax in Hu1. change (wrap_unsigned (UINT_MAX + 1)) with 0%N in Hu1.
      lia.
    + rewrite wrap_unsigned_succ in Hu1 by lia. lia.
Qed.

(** Matched pairs restore the bank, and the invariant holds after each
    of their operations. *)
Lemma run_balanced_restores E b :
  forall w seen w',
    bank_inv (modules w) ->
    run_balanced E b w = Done (seen, w') ->
    modules w' = modules w /\ Forall bank_inv seen.
Proof.
  induction b as [| inner IHi next IHn]; intros w seen w' [Hu Hinv] H.
  - injection H as <- <-. split; constructor.
  - apply run_balanced_Pair in H
      as (w1 & n & w2 & s3 & w3 & w4 & s5 & H1 & H2 & H3 & H4 & H5 & ->).
    apply module_InitBank_Done in H1 as (l & Hm1 & Hl).
    pose proof (wrap_unsigned_bound (usage (modules w) + 1)) as Hb.
    destruct (N.eq_dec (usage (modules w)) UINT_MAX) as [Hmax | Hlt].
    { (* the count would wrap to 0: the matching EndBank asserts *)
      apply growing_module_LoadPlugins in H2 as (Hu2 & _).
      apply run_balanced_usage in H3;
        [| rewrite Hu2, Hm1; simpl; exact Hb].
      apply module_EndBank_Done in H4 as (Hpos & _).
      rewrite H3, Hu2, Hm1 in Hpos. simpl in Hpos. rewrite Hmax in Hpos.
      change (wrap_unsigned (UINT_MAX + 1)) with 0%N in Hpos. lia. }
    rewrite wrap_unsigned_succ in Hm1 by lia.
    destruct (N.eqb_spec (usage (modules w)) 0) as [Hzero | Hpos].
    + (* first user: the bank is filled, then emptied *)
      destruct Hl as [p ->].
      destruct (proj1 Hinv Hzero) as [Hlibs Hcaches].
      pose proof (growing_module_LoadPlugins E w1 n w2 H2)
        as (Hu2 & (l2 & Hl2) & _).
      assert (Hinv1 : bank_inv (modules w1)).
      { rewrite Hm1. split; simpl; [unfold UINT_MAX in *; lia |].
        split; [lia |]. intros [Habs _]. discriminate. }
      assert (Hinv2 : bank_inv (modules w2)).
      { split.
        - rewrite Hu2, Hm1; simpl. unfold UINT_MAX in *. lia.
        - rewrite Hu2, Hl2, Hm1; simpl. split; [lia |].
          intros [Habs _]. now destruct l2. }
      apply IHi in H3 as [H3 Hseen3]; [| exact Hinv2].
      apply module_EndBank_Done in H4 as (_ & H4).
      rewrite H3, Hu2, Hm1 in H4. simpl in H4. rewrite Hzero in H4.
      simpl in H4. destruct H4 as [Hm4 _].
      assert (Hinv4 : bank_inv (modules w4)).
      { rewrite Hm4. split; simpl; [unfold UINT_MAX; lia | tauto]. }
      apply IHn in H5 as [H5 Hseen5]; [| exact Hinv4].
      split.
      * rewrite H5, Hm4. symmetry. now apply modules_eta.
      * constructor; [assumption |].
        constructor; [assumption |].
        apply Forall_app. split; [assumption | now constructor].
    + (* a further user: only the count moves *)
      subst l.
      assert (Hidle : usage (modules w1) <> 1%N) by (rewrite Hm1; simpl; lia).
      apply (module_LoadPlugins_idle E w1 n w2 Hidle) in H2.
      assert (Hinv1 : bank_inv (modules w1)).
      { rewrite Hm1. split; simpl; [unfold UINT_MAX in *; lia |].
        split; [lia |]. intros Hempty. apply Hinv in Hempty. lia. }
      apply IHi in H3 as [H3 Hseen3]; [| rewrite H2; exact Hinv1].
      apply module_EndBank_Done in H4 as (_ & H4).
      rewrite H3, H2, Hm1 in H4. simpl in H4.
      replace (usage (modules w) + 1 - 1 =? 0)%N with false in H4
        by (symmetry; apply N.eqb_neq; lia).
      destruct H4 as [Hm4 _].
      assert (Hback : modules w4 = modules w).
      { rewrite Hm4. symmetry. apply modules_eta; auto. lia. }
      assert (Hinv4 : bank_inv (modules w4))
        by (rewrite Hback; split; assumption).
      apply IHn in H5 as [H5 Hseen5]; [| exact Hinv4].
      split; [now rewrite H5 |].
      constructor; [assumption |].
      constructor; [rewrite H2; assumption |].
      apply Forall_app. split; [assumption | now constructor].
Qed.

Lemma module_Map_bank E r w z w' :
  module_Map E r w = Done (z, w') ->
  usage (modules w') = usage (modules w)
  /\ caches (modules w') = caches (modules w)
  /\ List.length (libs (modules w')) = List.length (libs (modules w)).
Proof.
  unfold module_Map. unfold bind at 1, get_modules.
  destruct (nth_error (libs (modules w)) (ref_plugin r)) as [plugin |];
    [| discriminate].
  destruct (module plugin) as [m |]; [| discriminate].
  destruct (b_loaded m); cbn [negb]; cbv beta iota.
  - intros H; injection H as <- <-. auto.
  - destruct (psz_filename m) as [file |]; [| discriminate].
    unfold bind at 1.
    destruct (module_InitDynamic E file false w) as [[[u |] w1] | | |] eqn:Hdyn;
      try discriminate;
      apply module_InitDynamic_frame in Hdyn as (Hmods & _).
    + destruct (module u) as [fresh |]; [| discriminate].
      unfold bind, get_modules, put_modules, vlc_plugin_destroy, emit, ret.
      simpl. intros H; injection H as <- <-. simpl.
      rewrite length_upd, Hmods. auto.
    + unfold bind, msg, emit, ret. simpl.
      intros H; injection H as <- <-. simpl. rewrite Hmods. auto.
Qed.

(** C5. The bank is reference counted.  Any arrangement of matched
    InitBank+LoadPlugins / EndBank pairs, nested or in sequence, that runs
    to its end leaves the bank (descriptors, blobs, count) as it found
    it, and the invariant "usage = 0 iff no descriptor and no blob" holds
    after each of its operations.  Descriptors and blobs leave the bank
    only in the EndBank call that brings the count to zero, which
    destroys every descriptor and releases the blobs; any other EndBank,
    InitBank and LoadPlugins keep what is there.  Taken one by one,
    LoadPlugins, EndBank and Map keep the invariant, and so does InitBank
    while the unsigned counter has room for one more user. *)
Theorem bank_reference_counting E :
  (forall b w seen w',
     bank_inv (modules w) ->
     run_balanced E b w = Done (seen, w') ->
     modules w' = modules w /\ Forall bank_inv seen)
  /\ (forall p w w',
        module_EndBank p w = Done (tt, w') ->
        (usage (modules w) <> 1%N ->
         libs (modules w') = libs (modules w)
         /\ caches (modules w') = caches (modules w)
         /\ trace w' = trace w ++ [EvChainRelease []])
        /\ (usage (modules w) = 1%N ->
            libs (modules w') = [] /\ caches (modules w') = []
            /\ trace w'
               = trace w ++ EvUnsortConfig
                   :: teardown_events (libs (modules w))
                   ++ [EvChainRelease (caches (modules w))]))
  /\ (forall w w',
        module_InitBank E w = Done (tt, w') ->
        (exists l, libs (modules w') = l ++ libs (modules w))
        /\ caches (modules w') = caches (modules w))
  /\ (forall w n w', module_LoadPlugins E w = Done (n, w') -> grows w w')
  /\ (forall w w',
        bank_inv (modules w) -> (usage (modules w) < UINT_MAX)%N ->
        module_InitBank E w = Done (tt, w') -> bank_inv (modules w'))
  /\ (forall w n w',
        bank_inv (modules w) ->
        module_LoadPlugins E w = Done (n, w') -> bank_inv (modules w'))
  /\ (forall p w w',
        bank_inv (modules w) ->
        module_EndBank p w = Done (tt, w') -> bank_inv (modules w'))
  /\ (forall r w z w',
        bank_inv (modules w) ->
        module_Map E r w = Done (z, w') -> bank_inv (modules w')).
Proof.
  split; [exact (run_balanced_restores E) |].
  split.
  { intros p w w' H. apply module_EndBank_Done in H as (Hpos & H). split.
    - intros Hne.
      replace (usage (modules w) - 1 =? 0)%N with false in H
        by (symmetry; apply N.eqb_neq; lia).
      destruct H as [-> ->]. auto.
    - intros Hone. rewrite Hone in H. simpl in H.
      destruct H as [-> ->]. auto. }
  split.
  { intros w w' H. apply module_InitBank_Done in H as (l & -> & _).
    simpl. eauto. }
  split; [exact (growing_module_LoadPlugins E) |].
  split.
  { intros w w' [Hu Hinv] Hroom H.
    apply module_InitBank_Done in H as (l & -> & Hl).
    rewrite wrap_unsigned_succ by exact Hroom.
    split; simpl; [unfold UINT_MAX in *; lia |].
    split; [lia |]. intros [Hlibs Hcaches].
    destruct (N.eqb_spec (usage (modules w)) 0) as [Hz | Hnz].
    - destruct Hl as [p ->]. discriminate.
    - subst l. simpl in Hlibs. tauto. }
  split.
  { intros w n w' [Hu Hinv] H.
    destruct (N.eq_dec (usage (modules w)) 1) as [Hone | Hidle].
    - apply growing_module_LoadPlugins in H as (Hu' & (l & Hl) & (c & Hc)).
      split; [now rewrite Hu' |].
      rewrite Hu', Hl, Hc, Hone. split; [discriminate |].
      intros [Hlibs Hcaches].
      apply app_eq_nil in Hlibs as [_ Hlibs].
      apply app_eq_nil in Hcaches as [_ Hcaches].
      assert (Hz : usage (modules w) = 0%N) by tauto. lia.
    - apply (module_LoadPlugins_idle E w n w' Hidle) in H. rewrite H.
      split; assumption. }
  split.
  { intros p w w' [Hu Hinv] H.
    apply module_EndBank_Done in H as (Hpos & H).
    destruct (N.eqb_spec (usage (modules w) - 1) 0) as [Hz | Hnz];
      destruct H as [-> _]; split; simpl.
    - unfold UINT_MAX; lia.
    - tauto.
    - lia.
    - split; [lia |]. intros Hempty. apply Hinv in Hempty. lia. }
  intros r w z w' [Hu Hinv] H.
  apply module_Map_bank in H as (Hu' & Hc' & Hlen).
  split; [now rewrite Hu' |].
  rewrite Hu', Hc'. rewrite Hinv.
  assert (Hnil : libs (modules w') = [] <-> libs (modules w) = []).
  { destruct (libs (modules w')), (libs (modules w)); simpl in Hlen;
      split; intros; try discriminate; reflexivity. }
  tauto.
Qed.

Lemma bank_reference_counting_witness :
  exists seen w',
    run_balanced (flat_env "libfoo_plugin.so")
      (Pair (nested_pairs 2) (successive_pairs 2)) empty_world
    = Done (seen, w')
    /\ pairs (Pair (nested_pairs 2) (successive_pairs 2)) = 5%nat
    /\ List.length seen = 15%nat
    /\ modules w' = modules empty_world
    /\ Forall bank_inv seen.
Proof.
  do 2 eexists. split; [vm_compute; reflexivity |].
  split; [reflexivity |]. split; [reflexivity |].
  match goal with
  | |- modules ?w' = _ /\ Forall _ ?seen =>
      apply (proj1 (bank_reference_counting (flat_env "libfoo_plugin.so"))
               (Pair (nested_pairs 2) (successive_pairs 2)) empty_world
               seen w')
  end.
  - split; simpl; [unfold UINT_MAX; lia | tauto].
  - vm_compute; reflexivity.
Defined.

(** The counter is an unsigned: one more user at UINT_MAX wraps it to 0
    over a bank that is not empty. *)
Example module_InitBank_wraps :
  exists w',
    module_InitBank (flat_env "libfoo_plugin.so") crowded_world
    = Done (tt, w')
    /\ usage (modules w') = 0%N
    /\ libs (modules w') = [core_plugin].
Proof. eexists. repeat split. Qed.

(* ================================================================= *)
(** ** The list of the modules with a capability *)

Lemma fold_count {A} (f : A -> bool) (l : list A) :
  forall n,
    fold_left (fun n x => if f x then S n else n) l n
    = (n + List.length (filter f l))%nat.
Proof.
  induction l as [| x l IH]; intros n; simpl; [lia |].
  rewrite IH. destruct (f x); simpl; lia.
Qed.

Lemma providers_cons E cap p ls m :
  module p = Some m ->
  providers E cap (p :: ls)
  = filter (fun m => module_provides E m cap) (plugin_modules m)
    ++ providers E cap ls.
Proof.
  intros Hm. unfold providers, all_modules. cbn [flat_map].
  unfold descriptor_modules at 1. rewrite Hm. apply filter_app.
Qed.

Lemma count_cap_spec E cap ls :
  Forall has_module ls ->
  forall n,
    count_cap E cap ls n
    = Done (n + List.length (providers E cap ls))%nat.
Proof.
  induction 1 as [| p ls [m Hm] _ IH]; intros n.
  - simpl. now rewrite Nat.add_0_r.
  - cbn [count_cap]. rewrite Hm, IH, fold_count.
    rewrite (providers_cons E cap p ls m Hm), length_app.
    f_equal. lia.
Qed.

Lemma fill_chain_spec E cap ms :
  forall (pre : table) k,
    fill_chain E cap
      (pre ++ repeat None
                (List.length (filter (fun m => module_provides E m cap) ms) + k))
      (List.length pre) ms
    = Some (pre ++ map Some (filter (fun m => module_provides E m cap) ms)
              ++ repeat None k,
            (List.length pre
             + List.length (filter (fun m => module_provides E m cap) ms))%nat).
Proof.
  induction ms as [| m ms IH]; intros pre k; simpl.
  - now rewrite Nat.add_0_r.
  - destruct (module_provides E m cap); simpl.
    + rewrite store_next.
      replace (S (List.length pre)) with (List.length (pre ++ [Some m]))
        by (rewrite length_app; simpl; lia).
      rewrite IH, length_app, <- app_assoc. simpl.
      do 2 f_equal. lia.
    + apply IH.
Qed.

Lemma fill_cap_spec E cap ls :
  Forall has_module ls ->
  forall (pre : table) k,
    fill_cap E cap ls
      (pre ++ repeat None (List.length (providers E cap ls) + k))
      (List.length pre)
    = Done (pre ++ map Some (providers E cap ls) ++ repeat None k,
            (List.length pre + List.length (providers E cap ls))%nat).
Proof.
  induction 1 as [| p ls [m Hm] _ IH]; intros pre k.
  - simpl. now rewrite Nat.add_0_r.
  - cbn [fill_cap]. rewrite Hm.
    rewrite (providers_cons E cap p ls m Hm), length_app.
    rewrite <- Nat.add_assoc, fill_chain_spec.
    set (here := filter (fun m0 => module_provides E m0 cap) (plugin_modules m)).
    replace (List.length pre + List.length here)%nat
      with (List.length (pre ++ map Some here))
      by (now rewrite length_app, length_map).
    rewrite app_assoc, IH.
    rewrite map_app, !length_app, length_map, <- !app_assoc.
    do 2 f_equal. lia.
Qed.

Lemma table_contents_map l : table_contents (map Some l) = Some l.
Proof. induction l as [| m l IH]; simpl; [reflexivity | now rewrite IH]. Qed.

(** What module_list_cap computes on a bank whose descriptors all have
    their primary module. *)
Lemma module_list_cap_pure_spec E cap ls :
  Forall has_module ls ->
  module_list_cap_pure E ls cap
  = if malloc_ok E (List.length (providers E cap ls))
    then Done (Some (qsort modulecmp (providers E cap ls)),
               Z.of_nat (List.length (providers E cap ls)))
    else Done (None, (-1)%Z).
Proof.
  intros Hmods. unfold module_list_cap_pure.
  rewrite (count_cap_spec E cap ls Hmods 0). simpl Nat.add.
  destruct (malloc_ok E (List.length (providers E cap ls))); [| reflexivity].
  pose proof (fill_cap_spec E cap ls Hmods [] 0) as Hfill.
  simpl in Hfill. rewrite Nat.add_0_r, app_nil_r in Hfill. rewrite Hfill.
  now rewrite Nat.eqb_refl, table_contents_map.
Qed.

(** [qsort] permutes its input. *)
Lemma qsort_insert_perm {A} (cmp : A -> A -> Z) x l :
  Permutation (qsort_insert cmp x l) (x :: l).
Proof.
  induction l as [| y l IH]; simpl; [reflexivity |].
  destruct (cmp x y <=? 0)%Z; [reflexivity |].
  rewrite IH. apply perm_swap.
Qed.

Lemma qsort_perm {A} (cmp : A -> A -> Z) l : Permutation (qsort cmp l) l.
Proof.
  induction l as [| x l IH]; simpl; [reflexivity |].
  rewrite qsort_insert_perm. now constructor.
Qed.

Lemma wrap_int_id z : (INT_MIN <= z <= INT_MAX)%Z -> wrap_int z = z.
Proof.
  unfold wrap_int, INT_MIN, INT_MAX. intros H.
  rewrite Z.mod_small; lia.
Qed.

(** With scores in range the comparison function orders by score, and
    [qsort] sorts from the highest score to the lowest. *)
Lemma qsort_insert_sorted x l :
  scores_in_range (x :: l) ->
  StronglySorted by_score_desc l ->
  StronglySorted by_score_desc (qsort_insert modulecmp x l).
Proof.
  intros Hrange Hsorted.
  induction Hsorted as [| y l Hsorted IH Hall]; simpl.
  - repeat constructor.
  - unfold modulecmp at 1.
    rewrite wrap_int_id by (apply Hrange; simpl; auto).
    destruct (Z.leb_spec (i_score y - i_score x) 0) as [Hle | Hgt].
    + constructor; [now constructor |].
      constructor; [unfold by_score_desc; lia |].
      eapply Forall_impl; [| exact Hall].
      unfold by_score_desc; intros; lia.
    + constructor.
      * apply IH. intros a b Ha Hb. apply Hrange; simpl in *; tauto.
      * eapply Permutation_Forall;
          [symmetry; apply qsort_insert_perm |].
        constructor; [unfold by_score_desc; lia | exact Hall].
Qed.

Lemma qsort_sorted l :
  scores_in_range l -> StronglySorted by_score_desc (qsort modulecmp l).
Proof.
  induction l as [| x l IH]; intros Hrange; simpl; [constructor |].
  apply qsort_insert_sorted.
  - intros a b Ha Hb. apply Hrange.
    + destruct Ha as [<- | Ha]; [now left |].
      right. eapply Permutation_in; [apply qsort_perm | exact Ha].
    + destruct Hb as [<- | Hb]; [now left |].
      right. eapply Permutation_in; [apply qsort_perm | exact Hb].
  - apply IH. intros a b Ha Hb. apply Hrange; now right.
Qed.

(** module_list_cap on a bank whose descriptors have their primary
    module: the count of the providers of [cap] and a table that holds
    exactly them, or -1 and NULL when the table cannot be allocated; the
    table runs from the highest score to the lowest when the differences
    of the scores are representable in an [int]. *)
Lemma module_list_cap_spec E cap w :
  Forall has_module (libs (modules w)) ->
  let ps := providers E cap (libs (modules w)) in
  (malloc_ok E (List.length ps) = true ->
   exists tab,
     module_list_cap E cap w
     = Done ((Some tab, Z.of_nat (List.length ps)), w)
     /\ Permutation tab ps
     /\ (scores_in_range ps -> StronglySorted by_score_desc tab))
  /\ (malloc_ok E (List.length ps) = false ->
      module_list_cap E cap w = Done ((None, (-1)%Z), w)).
Proof.
  intros Hmods ps. unfold module_list_cap.
  rewrite (module_list_cap_pure_spec E cap _ Hmods). fold ps.
  split; intros Hmalloc; rewrite Hmalloc; [| reflexivity].
  exists (qsort modulecmp ps). split; [reflexivity |].
  split; [apply qsort_perm | apply qsort_sorted].
Qed.

Example module_list_cap_ordinary :
  module_list_cap (flat_env "libfoo_plugin.so") "x" ordinary_world
  = Done ((Some [mk_module "B" "x" 80; mk_module "A" "x" 50], 2%Z),
          ordinary_world).
Proof. reflexivity. Qed.

(** C4. module_list_cap does not always hand out the modules from the
    highest score to the lowest: modulecmp returns the [int] difference
    of the two scores, which overflows when the scores lie far apart.
    With one provider of score -2 and one of score INT_MAX the
    comparison function ranks the first above the second, in both
    argument orders, and the table comes back in increasing order. *)
Theorem module_list_cap_extreme_scores :
  module_list_cap (flat_env "libfoo_plugin.so") "x" extreme_world
  = Done ((Some [low_module; top_module], 2%Z), extreme_world)
  /\ (i_score low_module < i_score top_module)%Z
  /\ (modulecmp low_module top_module < 0)%Z
  /\ (modulecmp top_module low_module > 0)%Z
  /\ ~ StronglySorted by_score_desc [low_module; top_module].
Proof.
  split; [reflexivity |].
  split; [reflexivity |].
  split; [reflexivity |].
  split; [reflexivity |].
  intros Hsorted. inversion Hsorted as [| a l _ Hall]; subst.
  inversion Hall as [| b l' Hle _]; subst.
  unfold by_score_desc in Hle. vm_compute in Hle. now apply Hle.
Qed.

(* ================================================================= *)
(** ** The descriptors of the bank are well formed *)

Lemma keeps_ret {A} (a : A) (Q : A -> Prop) : Q a -> keeps (ret a) Q.
Proof. intros HQ w a' w' Hw H. injection H as <- <-. auto. Qed.

Lemma keeps_abort {A} (Q : A -> Prop) : keeps abort Q.
Proof. intros w a w' _ H; discriminate. Qed.

Lemma keeps_undefined {A} (Q : A -> Prop) : keeps undefined Q.
Proof. intros w a w' _ H; discriminate. Qed.

Lemma keeps_emit e : keeps (emit e) (fun _ => True).
Proof. intros w a w' Hw H. injection H as <- <-. auto. Qed.

Lemma keeps_bind {A B} (c : M A) (k : A -> M B) Q R :
  keeps c Q -> (forall a, Q a -> keeps (k a) R) -> keeps (bind c k) R.
Proof.
  intros Hc Hk w b w'' Hw H.
  destruct (bind_inv _ _ _ _ _ H) as (a & w' & H1 & H2).
  destruct (Hc _ _ _ Hw H1) as [Hw' HQ].
  exact (Hk a HQ _ _ _ Hw' H2).
Qed.

Lemma keeps_weaken {A} (c : M A) (Q R : A -> Prop) :
  keeps c Q -> (forall a, Q a -> R a) -> keeps c R.
Proof.
  intros Hc HQR w a w' Hw H. destruct (Hc _ _ _ Hw H). auto.
Qed.

Lemma keeps_for_each {A} (l : list A) (body : A -> M unit) :
  (forall x, keeps (body x) (fun _ => True)) ->
  keeps (for_each l body) (fun _ => True).
Proof.
  intros Hb; induction l as [| x l IH]; simpl.
  - now apply keeps_ret.
  - eapply keeps_bind; [apply Hb | intros; apply IH].
Qed.

Lemma keeps_fold_each {A S} (l : list A) (body : S -> A -> M S) Q :
  (forall s x, Q s -> keeps (body s x) Q) ->
  forall s, Q s -> keeps (fold_each l body s) Q.
Proof.
  intros Hb; induction l as [| x l IH]; intros s Hs; simpl.
  - now apply keeps_ret.
  - eapply keeps_bind; [now apply Hb | intros; now apply IH].
Qed.

Lemma keeps_module_StoreBank lib :
  wf_plugin lib -> keeps (module_StoreBank lib) (fun _ => True).
Proof.
  intros Hlib w a w' Hw H. rewrite module_StoreBank_Done in H.
  injection H as <- <-. split; [| exact I].
  unfold wf_bank; simpl. now constructor.
Qed.

Lemma wf_plugin_set_module p m m' :
  module p = Some m -> count_ok p ->
  submodule m' = submodule m -> submodule_count m' = submodule_count m ->
  wf_plugin (set_module m' p).
Proof.
  intros Hm Hok Hs Hc. exists m'. split; [reflexivity |].
  rewrite Hc, Hs. now apply Hok.
Qed.

Lemma keeps_module_InitStatic E entry :
  env_wf E ->
  keeps (module_InitStatic E entry)
    (fun r => forall p, r = Some p -> wf_plugin p).
Proof.
  intros [Hdesc _]. unfold module_InitStatic.
  destruct (vlc_plugin_describe E entry) as [lib |] eqn:Hlib.
  - destruct (module lib) as [m |] eqn:Hm; [| apply keeps_abort].
    apply keeps_ret. intros p Hp; injection Hp as <-.
    apply (wf_plugin_set_module lib m); auto. now apply (Hdesc entry).
  - apply keeps_ret. discriminate.
Qed.

Lemma keeps_module_InitStaticModules E :
  env_wf E -> keeps (module_InitStaticModules E) (fun _ => True).
Proof.
  intros HE. unfold module_InitStaticModules.
  destruct (vlc_static_modules E) as [table |]; [| now apply keeps_ret].
  apply keeps_for_each. intros entry.
  eapply keeps_bind; [now apply keeps_module_InitStatic |].
  intros [lib |] Hlib; [| now apply keeps_ret].
  apply keeps_module_StoreBank. now apply Hlib.
Qed.

Lemma keeps_module_InitDynamic E file fast :
  env_wf E ->
  keeps (module_InitDynamic E file fast)
    (fun r => forall p, r = Some p -> wf_plugin p).
Proof.
  intros [Hdesc _] w r w' Hw H. split.
  - apply module_InitDynamic_frame in H as (Hmods & _).
    unfold wf_bank. now rewrite Hmods.
  - intros p ->. revert H.
    unfold module_InitDynamic, bind, emit, msg, module_Unload,
      vlc_plugin_destroy, emit, ret, abort; simpl.
    destruct (module_Load E file fast) as [h |]; [| discriminate].
    destruct (module_Lookup E h (entry_name E)) as [entry |]; [| discriminate].
    destruct (vlc_plugin_describe E entry) as [d |] eqn:Hd; [| discriminate].
    destruct (module d) as [m |] eqn:Hm; [| discriminate].
    destruct (strdup_ok E file); [| discriminate].
    intros H; injection H as <- _.
    apply (wf_plugin_set_module d m); auto. now apply (Hdesc entry).
Qed.

Lemma vlc_cache_lookup_count_ok c rel st :
  Forall count_ok c ->
  (forall p, fst (vlc_cache_lookup c rel st) = Some p -> count_ok p)
  /\ Forall count_ok (snd (vlc_cache_lookup c rel st)).
Proof.
  induction 1 as [| p c Hp Hc [IH1 IH2]]; simpl.
  - split; [discriminate | constructor].
  - destruct (match path p with
              | Some q => strcmp_eq q rel
              | None => false
              end && (mtime p =? st_mtime st)%Z && (size p =? st_size st)%Z).
    + simpl. split; [now intros q [= <-] | exact Hc].
    + destruct (vlc_cache_lookup c rel st) as [r c'']. simpl in *.
      split; [exact IH1 | now constructor].
Qed.

Lemma wf_plugin_set_identity rel mt sz p :
  wf_plugin p -> wf_plugin (set_identity rel mt sz p).
Proof. intros (m & Hm & Hc). now exists m. Qed.

Lemma keeps_AllocatePluginFile E bank abspath relpath st :
  env_wf E -> Forall count_ok (cache bank) ->
  keeps (AllocatePluginFile E bank abspath relpath st)
    (fun r => Forall count_ok (cache (snd r))).
Proof.
  intros HE Hcache. unfold AllocatePluginFile.
  eapply keeps_bind with
    (Q := fun r => (forall p, fst r = Some p -> wf_plugin p)
                   /\ Forall count_ok (cache (snd r))).
  { destruct (cache_mode_eqb (mode bank) CACHE_USE).
    - pose proof (vlc_cache_lookup_count_ok (cache bank) relpath st Hcache)
        as [Hhit Hrest].
      destruct (vlc_cache_lookup (cache bank) relpath st) as [hit rest].
      simpl in Hhit, Hrest.
      destruct hit as [c |].
      + destruct (module c) as [m |] eqn:Hm; [| apply keeps_abort].
        destruct (strdup_ok E abspath).
        * apply keeps_ret. simpl. split; [| exact Hrest].
          intros p [= <-]. apply (wf_plugin_set_module c m); auto.
        * eapply keeps_bind; [apply keeps_emit |]. intros _ _.
          apply keeps_ret. simpl. split; [discriminate | exact Hrest].
      + apply keeps_ret. simpl. split; [discriminate | exact Hrest].
    - apply keeps_ret. simpl. split; [discriminate | exact Hcache]. }
  intros [plugin bank'] [Hplugin Hcache']. simpl in Hplugin, Hcache'.
  eapply keeps_bind with (Q := fun r => forall p, r = Some p -> wf_plugin p).
  { destruct plugin as [p |].
    - apply keeps_ret. intros q [= <-]. now apply Hplugin.
    - eapply keeps_bind; [now apply keeps_module_InitDynamic |].
      intros r Hp.
      destruct (strdup_ok E relpath); [| apply keeps_abort].
      destruct r as [p |]; [| apply keeps_undefined].
      apply keeps_ret. intros q [= <-].
      apply wf_plugin_set_identity. now apply Hp. }
  intros [p |] Hp; [| now apply keeps_ret].
  destruct (module p) as [m |]; [| apply keeps_abort].
  eapply keeps_bind with (Q := fun r => forall q, r = Some q -> wf_plugin q).
  { destruct (b_loaded m); [apply keeps_ret; intros q [= <-]; now apply Hp |].
    destruct (config_scan (p_config m) 0 (confsize m)) as [[|] |];
      [| apply keeps_ret; intros q [= <-]; now apply Hp
       | apply keeps_undefined].
    eapply keeps_bind; [apply keeps_emit |]. intros _ _.
    eapply keeps_bind with (Q := fun _ => True).
    { unfold assert. destruct (negb _); [now apply keeps_ret | apply keeps_abort]. }
    intros _ _. now apply keeps_module_InitDynamic. }
  intros [q |] Hq; [| now apply keeps_ret].
  eapply keeps_bind; [apply keeps_module_StoreBank; now apply Hq |].
  intros _ _. apply keeps_ret. simpl.
  destruct (negb (cache_mode_eqb (mode bank') CACHE_IGNORE)); exact Hcache'.
Qed.

Lemma keeps_AllocatePluginDir_entry E rec reldir bank file :
  env_wf E -> Forall count_ok (cache bank) ->
  (forall b a r, Forall count_ok (cache b) ->
                 keeps (rec b a r) (fun b' => Forall count_ok (cache b'))) ->
  keeps (AllocatePluginDir_entry E rec reldir bank file)
    (fun b' => Forall count_ok (cache b')).
Proof.
  intros HE Hcache Hrec. unfold AllocatePluginDir_entry.
  destruct (strcmp_eq file "." || strcmp_eq file "..");
    [now apply keeps_ret |].
  cbv zeta.
  destruct (negb (strdup_ok E _)); [now apply keeps_ret |].
  destruct (negb (strdup_ok E _)); [now apply keeps_ret |].
  destruct (vlc_stat E _) as [st |]; [| now apply keeps_ret].
  destruct (st_mode st).
  - destruct (is_plugin_name E file); [| now apply keeps_ret].
    eapply keeps_bind; [now apply keeps_AllocatePluginFile |].
    intros [z b'] Hb'. now apply keeps_ret.
  - now apply Hrec.
  - now apply keeps_ret.
Qed.

Lemma keeps_AllocatePluginDir_fuel E fuel :
  env_wf E ->
  forall bank maxdepth absdir reldir,
    Forall count_ok (cache bank) ->
    keeps (AllocatePluginDir_fuel E fuel bank maxdepth absdir reldir)
      (fun b' => Forall count_ok (cache b')).
Proof.
  intros HE.
  induction fuel as [| fuel IH]; intros bank maxdepth absdir reldir Hcache;
    simpl.
  - intros w a w' _ H; discriminate.
  - destruct (maxdepth =? 0)%N; [now apply keeps_ret |].
    destruct (vlc_opendir E absdir) as [entries |]; [| now apply keeps_ret].
    apply keeps_fold_each; [| exact Hcache].
    intros s x Hs. apply keeps_AllocatePluginDir_entry; auto.
Qed.

Lemma keeps_vlc_cache_load E root :
  env_wf E -> keeps (vlc_cache_load E root) (Forall count_ok).
Proof.
  intros [_ Hfile]. unfold vlc_cache_load.
  destruct (cache_file E root) as [[blob entries] |] eqn:Hblob.
  - intros w a w' Hw H. injection H as <- <-. split.
    + exact Hw.
    + exact (Hfile root blob entries Hblob).
  - apply keeps_ret. constructor.
Qed.

Lemma keeps_AllocatePluginPath E root mode :
  env_wf E -> keeps (AllocatePluginPath E root mode) (fun _ => True).
Proof.
  intros HE. unfold AllocatePluginPath.
  eapply keeps_bind with (Q := fun b => Forall count_ok (cache b)).
  { destruct (cache_mode_eqb mode CACHE_USE).
    - eapply keeps_bind; [now apply keeps_vlc_cache_load |].
      intros entries Hentries. now apply keeps_ret.
    - eapply keeps_bind; [apply keeps_emit |]. intros _ _.
      apply keeps_ret. constructor. }
  intros bank Hcache.
  eapply keeps_bind; [apply keeps_emit |]. intros _ _.
  eapply keeps_bind; [now apply keeps_AllocatePluginDir_fuel |].
  intros bank' _.
  eapply keeps_bind;
    [apply keeps_for_each; intros; apply keeps_emit |].
  intros _ _.
  destruct (cache_mode_eqb mode CACHE_RESET);
    [apply keeps_emit | now apply keeps_ret].
Qed.

Lemma keeps_AllocateAllPlugins E :
  env_wf E -> keeps (AllocateAllPlugins E) (fun _ => True).
Proof.
  intros HE. unfold AllocateAllPlugins. cbv zeta.
  eapply keeps_bind with (Q := fun _ => True).
  { destruct (config_GetLibDir E) as [vlcpath |]; [| now apply keeps_ret].
    destruct (strdup_ok E _); [| now apply keeps_ret].
    now apply keeps_AllocatePluginPath. }
  intros _ _.
  destruct (getenv E "VLC_PLUGIN_PATH") as [paths |]; [| now apply keeps_ret].
  destruct (negb (strdup_ok E paths)); [now apply keeps_ret |].
  apply keeps_for_each. intros p. now apply keeps_AllocatePluginPath.
Qed.

(** The loading phase keeps the descriptors of the bank well formed. *)
Lemma keeps_module_LoadPlugins E :
  env_wf E -> keeps (module_LoadPlugins E) (fun _ => True).
Proof.
  intros HE. unfold module_LoadPlugins.
  eapply keeps_bind with (Q := fun _ => True).
  { intros w a w' Hw H. injection H as <- <-. auto. }
  intros m _.
  eapply keeps_bind with (Q := fun _ => True).
  { destruct (usage m =? 1)%N; [| now apply keeps_ret].
    eapply keeps_bind; [now apply keeps_module_InitStaticModules |].
    intros _ _.
    eapply keeps_bind; [apply keeps_emit |]. intros _ _.
    eapply keeps_bind; [now apply keeps_AllocateAllPlugins |].
    intros _ _.
    eapply keeps_bind; [apply keeps_emit |]. intros _ _.
    apply keeps_emit. }
  intros _ _.
  eapply keeps_bind with (Q := fun _ => True).
  { intros w a w' Hw H. apply module_list_get_world in H. now subst w'. }
  intros [t c] _.
  eapply keeps_bind; [apply keeps_emit |]. intros _ _.
  now apply keeps_ret.
Qed.

(** So does module_InitBank. *)
Lemma keeps_module_InitBank E :
  env_wf E -> keeps (module_InitBank E) (fun _ => True).
Proof.
  intros HE. unfold module_InitBank.
  eapply keeps_bind with (Q := fun _ => True).
  { intros w a w' Hw H. injection H as <- <-. auto. }
  intros m _.
  eapply keeps_bind with (Q := fun _ => True).
  { destruct (usage m =? 0)%N; [| now apply keeps_ret].
    eapply keeps_bind; [now apply keeps_module_InitStatic |].
    intros [p |] Hp.
    - eapply keeps_bind; [| intros; apply keeps_emit].
      apply keeps_module_StoreBank. now apply Hp.
    - eapply keeps_bind with (Q := fun _ => True);
        [apply keeps_abort | intros; apply keeps_emit]. }
  intros _ _ w a w' Hw H.
  unfold bind, get_modules, put_modules in H. injection H as <- <-.
  split; [exact Hw | exact I].
Qed.

(** C3. For a bank whose descriptors satisfy the data-model invariant
    (a primary module, [submodule_count] equal to the length of the
    submodule chain) and as long as the table can be allocated:
    module_list_get returns the table that holds, for each descriptor in
    list order, its primary module followed by its submodules, and its
    length is the sum over the descriptors of 1 + submodule_count;
    module_LoadPlugins returns that sum for the bank it leaves.  The
    loading phase itself keeps the invariant when the describe protocol
    and the cache files produce consistent counters, and a call that has
    nothing to load returns at once. *)
Theorem module_count_is_total E :
  (forall w,
     wf_bank w ->
     (forall n, malloc_ok E n = true) ->
     module_list_get E w
     = Done ((table_of (all_modules (libs (modules w))),
              total_modules (libs (modules w))), w)
     /\ List.length (all_modules (libs (modules w)))
        = total_modules (libs (modules w)))
  /\ (forall w count w',
        module_LoadPlugins E w = Done (count, w') ->
        wf_bank w' ->
        (forall n, malloc_ok E n = true) ->
        count = total_modules (libs (modules w')))
  /\ (forall w count w',
        env_wf E -> wf_bank w ->
        (forall n, malloc_ok E n = true) ->
        module_LoadPlugins E w = Done (count, w') ->
        wf_bank w' /\ count = total_modules (libs (modules w')))
  /\ (forall w,
        usage (modules w) <> 1%N ->
        wf_bank w ->
        (forall n, malloc_ok E n = true) ->
        module_LoadPlugins E w
        = Done (total_modules (libs (modules w)),
                add_event w (EvMsg Dbg "plug-ins loaded: %zu modules"))).
Proof.
  assert (Hcount : forall w count w',
             module_LoadPlugins E w = Done (count, w') ->
             wf_bank w' ->
             (forall n, malloc_ok E n = true) ->
             count = total_modules (libs (modules w'))).
  { intros w count w' Hrun Hwf Hmalloc.
    unfold module_LoadPlugins in Hrun.
    apply bind_inv in Hrun as (m & w1 & _ & Hrun).
    apply bind_inv in Hrun as ([] & w2 & _ & Hrun).
    apply bind_inv in Hrun as ([t c] & w3 & Hlist & Hrun).
    pose proof (module_list_get_world _ _ _ _ Hlist) as ->.
    unfold bind, msg, emit, ret in Hrun. simpl in Hrun.
    injection Hrun as <- <-. unfold wf_bank in Hwf. simpl in Hwf |- *.
    rewrite (module_list_get_spec E w2 Hwf Hmalloc) in Hlist.
    now injection Hlist as _ <-. }
  split; [| split; [exact Hcount | split]].
  - intros w Hwf Hmalloc. split.
    + now apply module_list_get_spec.
    + now apply all_modules_length.
  - intros w count w' HE Hwf Hmalloc Hrun.
    destruct (keeps_module_LoadPlugins E HE w count w' Hwf Hrun) as [Hwf' _].
    split; [exact Hwf' |]. now apply (Hcount w).
  - intros w Hidle Hwf Hmalloc.
    unfold module_LoadPlugins, bind, get_modules.
    apply N.eqb_neq in Hidle. rewrite Hidle. simpl.
    rewrite (module_list_get_spec E w Hwf Hmalloc). reflexivity.
Qed.

Lemma module_count_is_total_witness :
  module_InitBank trio_env empty_world = Done (tt, seeded_world)
  /\ exists w',
       module_LoadPlugins trio_env seeded_world = Done (4%nat, w')
       /\ total_modules (libs (modules w')) = 4%nat
       /\ exists main,
            module_list_get trio_env w'
            = Done ((Some [ Some main; Some (mk_module "sub_a" "y" 20);
                            Some (mk_module "sub_b" "x" 40);
                            Some (set_b_unloadable false
                                    (set_b_loaded true
                                       (mk_module "core" "core" 0))) ],
                     4%nat), w').
Proof.
  split; [reflexivity |].
  eexists. split; [vm_compute; reflexivity |].
  match goal with
  | |- total_modules (libs (modules ?w')) = _ /\ _ =>
      assert (Hrun : module_LoadPlugins trio_env seeded_world
                     = Done (4%nat, w')) by (vm_compute; reflexivity);
      assert (Hwf : wf_bank w')
        by (unfold wf_bank; simpl;
            repeat (apply Forall_cons; [eexists; split; reflexivity |]);
            apply Forall_nil);
      pose proof (proj1 (proj2 (module_count_is_total trio_env))
                    seeded_world 4%nat w' Hrun Hwf (fun _ => eq_refl))
        as Hcount;
      destruct (proj1 (module_count_is_total trio_env) w' Hwf
                  (fun _ => eq_refl)) as [Hget _]
  end.
  split; [symmetry; exact Hcount |].
  eexists. rewrite Hget. vm_compute. reflexivity.
Defined.

(** When the table cannot be allocated module_list_get returns NULL and
    stores 0, and module_LoadPlugins returns 0. *)
Example module_list_get_starved :
  module_list_get starved_env seeded_world = Done ((None, 0%nat), seeded_world)
  /\ exists w',
       (module_InitBank starved_env ;;; module_LoadPlugins starved_env)
         empty_world = Done (0%nat, w')
       /\ List.length (libs (modules w')) = 1%nat.
Proof. split; [reflexivity |]. eexists. split; reflexivity. Qed.

(* ================================================================= *)
(** ** Further properties: the dynamic loader *)

(** What module_InitDynamic leaves behind, case by case. *)
Lemma module_InitDynamic_cases E file fast w r w' :
  module_InitDynamic E file fast w = Done (r, w') ->
  modules w' = modules w
  /\ exists evs,
       trace w' = trace w ++ EvLoad file fast :: evs
       /\ match module_Load E file fast, r with
          | None, None => evs = []
          | None, Some _ => False
          | Some h, Some p =>
              evs = []
              /\ exists m, module p = Some m /\ handle m = Some h
                           /\ b_loaded m = true
                           /\ psz_filename m = Some file
          | Some h, None =>
              exists pre,
                evs = pre ++ [EvUnload (Some h)]
                /\ forallb is_note pre = true
          end.
Proof.
  unfold module_InitDynamic, bind, emit, msg, module_Unload,
    vlc_plugin_destroy, emit, ret, abort; simpl.
  destruct (module_Load E file fast) as [h |].
  2: { intros H; injection H as <- <-. split; [reflexivity |].
       exists []. auto. }
  destruct (module_Lookup E h (entry_name E)) as [entry |].
  2: { intros H; injection H as <- <-. split; [reflexivity |].
       eexists. simpl. rewrite <- !app_assoc. simpl.
       split; [reflexivity |]. eexists [_]. split; reflexivity. }
  destruct (vlc_plugin_describe E entry) as [d |].
  2: { intros H; injection H as <- <-. split; [reflexivity |].
       eexists. simpl. rewrite <- !app_assoc. simpl.
       split; [reflexivity |]. eexists [_]. split; reflexivity. }
  destruct (module d) as [m |]; [| discriminate].
  destruct (strdup_ok E file); intros H; injection H as <- <-;
    (split; [reflexivity |]).
  - exists []. split; [reflexivity |]. split; [reflexivity |].
    eexists. simpl. repeat split.
  - eexists. simpl. rewrite <- !app_assoc. simpl.
    split; [reflexivity |]. eexists [_]. split; reflexivity.
Qed.

Lemma notes_no_load pre : forallb is_note pre = true -> count_loads pre = 0%nat.
Proof.
  unfold count_loads. induction pre as [| e pre IH]; simpl; [reflexivity |].
  intros H. apply andb_true_iff in H as [He Hpre].
  destruct e as [| | | | | | | []]; simpl in *; try discriminate; auto.
Qed.

Lemma notes_no_unload pre : forallb is_note pre = true -> filter is_unload pre = [].
Proof.
  induction pre as [| e pre IH]; simpl; [reflexivity |].
  intros H. apply andb_true_iff in H as [He Hpre].
  destruct e as [| | | | | | | []]; simpl in *; try discriminate; auto.
Qed.

(** A call to module_InitDynamic that returns has called the dynamic
    linker's Load once, for [file], and has left the bank alone.  The
    handle that Load gave is then either kept by the descriptor that is
    returned, loaded and knowing its file, with nothing unloaded or
    destroyed; or, when NULL is returned, unloaded exactly once, as the
    last action of the call. *)
Theorem module_InitDynamic_handle E file fast w r w' :
  module_InitDynamic E file fast w = Done (r, w') ->
  modules w' = modules w
  /\ exists evs,
       trace w' = trace w ++ EvLoad file fast :: evs
       /\ count_loads evs = 0%nat
       /\ match r with
          | Some p =>
              evs = []
              /\ exists h m,
                   module_Load E file fast = Some h
                   /\ module p = Some m /\ handle m = Some h
                   /\ b_loaded m = true /\ psz_filename m = Some file
          | None =>
              match module_Load E file fast with
              | None => evs = []
              | Some h =>
                  filter is_unload evs = [EvUnload (Some h)]
                  /\ last evs EvSortConfig = EvUnload (Some h)
              end
          end.
Proof.
  intros H. apply module_InitDynamic_cases in H as (Hmods & evs & Htr & Hcase).
  split; [exact Hmods |]. exists evs. split; [exact Htr |].
  destruct (module_Load E file fast) as [h |], r as [p |].
  - destruct Hcase as (-> & m & Hm). split; [reflexivity |].
    split; [reflexivity |]. exists h, m. tauto.
  - destruct Hcase as (pre & -> & Hpre). split; [| split].
    + rewrite count_loads_app, (notes_no_load _ Hpre). reflexivity.
    + rewrite filter_app, (notes_no_unload _ Hpre). reflexivity.
    + apply last_last.
  - contradiction.
  - subst evs. split; reflexivity.
Qed.

Lemma module_InitDynamic_handle_witness :
  exists p w',
    module_InitDynamic (flat_env "libfoo_plugin.so")
      "/plugins/libfoo_plugin.so" true seeded_world = Done (Some p, w')
    /\ modules w' = modules seeded_world
    /\ trace w' = [EvSortConfig; EvLoad "/plugins/libfoo_plugin.so" true].
Proof.
  do 2 eexists.
  assert (Hrun : module_InitDynamic (flat_env "libfoo_plugin.so")
                   "/plugins/libfoo_plugin.so" true seeded_world
                 = Done (Some _, _)) by (vm_compute; reflexivity).
  split; [exact Hrun |].
  destruct (module_InitDynamic_handle _ _ _ _ _ _ Hrun)
    as (Hmods & evs & Htr & _ & -> & _).
  split; [exact Hmods | exact Htr].
Defined.

(* ================================================================= *)
(** ** Further properties: static plug-ins *)

Lemma world_eta w :
  Build_world
    (Build_modules_t (libs (modules w)) (caches (modules w))
       (usage (modules w)))
    (trace w) = w.
Proof. now destruct w as [[l c u] tr]. Qed.

Lemma described_cons E entry table :
  described E (entry :: table)
  = match vlc_plugin_describe E entry with
    | Some lib => [lib]
    | None => []
    end ++ described E table.
Proof. reflexivity. Qed.

(** The enrolment loop over a table of entry points. *)
Lemma enrol_static_Done E table :
  Forall has_module (described E table) ->
  forall w,
    for_each table
      (fun entry =>
         lib <- module_InitStatic E entry ;;
         match lib with
         | Some lib => module_StoreBank lib
         | None => ret tt
         end) w
    = Done (tt,
            Build_world
              (Build_modules_t
                 (rev (map static_stamp (described E table))
                  ++ libs (modules w))
                 (caches (modules w)) (usage (modules w)))
              (trace w)).
Proof.
  induction table as [| entry table IH]; intros Hmods w.
  - simpl. now rewrite world_eta.
  - rewrite described_cons in Hmods |- *.
    cbn [for_each]. unfold bind at 1. unfold bind at 1.
    unfold module_InitStatic.
    destruct (vlc_plugin_describe E entry) as [lib |].
    + apply Forall_app in Hmods as [Hlib Hmods].
      inversion Hlib as [| ? ? [m Hm] _]; subst.
      rewrite Hm. unfold ret at 1. rewrite module_StoreBank_Done.
      rewrite (IH Hmods). simpl.
      replace (static_stamp lib)
        with (set_module (set_b_unloadable false (set_b_loaded true m)) lib)
        by (unfold static_stamp; now rewrite Hm).
      now rewrite <- app_assoc.
    + unfold ret at 1. unfold ret at 1. now rewrite (IH Hmods).
Qed.

(** module_InitStaticModules enrols the statically linked plug-ins in
    the order of the table, each on top of the ones before it, so that
    the last entry of the table ends up first in the bank; an entry
    point that describes nothing is skipped and the loop goes on.  Every
    descriptor enrolled is marked loaded and not unloadable; the dynamic
    linker is not called, nothing is printed, and the blobs and the
    count of users stay as they are. *)
Theorem module_InitStaticModules_order E table w :
  vlc_static_modules E = Some table ->
  Forall has_module (described E table) ->
  exists news,
    module_InitStaticModules E w
    = Done (tt,
            Build_world
              (Build_modules_t (rev news ++ libs (modules w))
                 (caches (modules w)) (usage (modules w)))
              (trace w))
    /\ news = map static_stamp (described E table)
    /\ Forall resident news.
Proof.
  intros Htable Hmods. eexists. split; [| split; [reflexivity |]].
  - unfold module_InitStaticModules. rewrite Htable.
    now apply enrol_static_Done.
  - apply Forall_map. eapply Forall_impl; [| exact Hmods].
    intros p [m Hm]. unfold static_stamp, resident. rewrite Hm.
    eexists. simpl. repeat split.
Qed.

Lemma module_InitStaticModules_order_witness :
  exists w',
    module_InitStaticModules static_env seeded_world = Done (tt, w')
    /\ map (fun p => option_map psz_shortname (module p)) (libs (modules w'))
       = [Some "third"; Some "first"; Some "core"]%string
    /\ trace w' = trace seeded_world.
Proof.
  assert (Hmods : Forall has_module (described static_env [1; 2; 3]%nat))
    by (repeat constructor; eexists; reflexivity).
  destruct (module_InitStaticModules_order static_env [1; 2; 3]%nat
              seeded_world eq_refl Hmods) as (news & Hrun & Hnews & _).
  eexists. split; [exact Hrun |]. subst news. split; reflexivity.
Defined.

(* ================================================================= *)
(** ** Further properties: the life cycle of the bank *)

(** A first module_InitBank that is followed at once by module_EndBank
    gives back an empty bank: the core descriptor is enrolled, the
    configuration is sorted, then unsorted again, the core descriptor is
    destroyed without any call to the dynamic linker (it is not
    unloadable) and the empty chain of blobs is released. *)
Theorem module_InitBank_EndBank_round_trip E b w core m :
  modules w = Build_modules_t [] [] 0 ->
  vlc_plugin_describe E (vlc_entry__core E) = Some core ->
  module core = Some m ->
  (module_InitBank E ;;; module_EndBank b) w
  = Done (tt,
          Build_world (Build_modules_t [] [] 0)
            (trace w
             ++ [ EvSortConfig; EvUnsortConfig;
                  EvDestroy
                    (set_module
                       (set_b_unloadable false (set_b_loaded true m)) core);
                  EvChainRelease [] ])).
Proof.
  destruct w as [ms tr]; simpl; intros -> Hcore Hm.
  unfold module_InitBank, module_InitStatic, bind, get_modules; simpl.
  rewrite Hcore, Hm. simpl.
  change (wrap_unsigned 1) with 1%N.
  unfold module_EndBank, bind, get_modules, assert; simpl.
  unfold emit; simpl. now rewrite <- !app_assoc.
Qed.

Lemma module_InitBank_EndBank_round_trip_witness :
  (module_InitBank trio_env ;;; module_EndBank false) empty_world
  = Done (tt,
          Build_world (Build_modules_t [] [] 0)
            [ EvSortConfig; EvUnsortConfig;
              EvDestroy
                (set_module
                   (set_b_unloadable false
                      (set_b_loaded true (mk_module "core" "core" 0)))
                   core_plugin);
              EvChainRelease [] ]).
Proof.
  exact (module_InitBank_EndBank_round_trip trio_env false empty_world
           core_plugin (mk_module "core" "core" 0)
           eq_refl eq_refl eq_refl).
Defined.

Lemma teardown_total ls :
  Forall has_module ls ->
  forall w,
    for_each ls
      (fun lib =>
         match module lib with
         | None => abort
         | Some mdl =>
             if b_loaded mdl && b_unloadable mdl
             then module_Unload (handle mdl) ;;;
                  vlc_plugin_destroy (set_module (set_b_loaded false mdl) lib)
             else vlc_plugin_destroy lib
         end) w
    = Done (tt, Build_world (modules w) (trace w ++ teardown_events ls)).
Proof.
  induction 1 as [| lib ls [m Hm] _ IH]; intros w.
  - simpl. rewrite app_nil_r. now destruct w.
  - cbn [for_each]. unfold bind at 1. rewrite Hm.
    unfold teardown_events. cbn [flat_map]. fold (teardown_events ls).
    rewrite Hm.
    destruct (b_loaded m && b_unloadable m);
      unfold bind, module_Unload, vlc_plugin_destroy, emit; simpl;
      rewrite IH; simpl; now rewrite <- !app_assoc.
Qed.

Lemma teardown_stuck ls :
  ~ Forall has_module ls ->
  forall w,
    for_each ls
      (fun lib =>
         match module lib with
         | None => abort
         | Some mdl =>
             if b_loaded mdl && b_unloadable mdl
             then module_Unload (handle mdl) ;;;
                  vlc_plugin_destroy (set_module (set_b_loaded false mdl) lib)
             else vlc_plugin_destroy lib
         end) w
    = Abort.
Proof.
  induction ls as [| lib ls IH]; intros Hbad w.
  - exfalso. apply Hbad. constructor.
  - cbn [for_each]. unfold bind at 1.
    destruct (module lib) as [m |] eqn:Hm; [| reflexivity].
    assert (Hrest : ~ Forall has_module ls).
    { intros Hls. apply Hbad. constructor; [now exists m | exact Hls]. }
    destruct (b_loaded m && b_unloadable m);
      unfold bind, module_Unload, vlc_plugin_destroy, emit; simpl;
      now rewrite IH.
Qed.

(** module_EndBank returns or dies on an assertion, it never runs into
    undefined behaviour.  It returns exactly when the bank has a user
    and, if that user is the last one, every descriptor has its primary
    module; it dies on assert(modules.usage > 0) when it is called on a
    bank without users. *)
Theorem module_EndBank_outcome b w :
  ((0 < usage (modules w))%N
   /\ (usage (modules w) = 1%N -> Forall has_module (libs (modules w)))
   -> exists w', module_EndBank b w = Done (tt, w'))
  /\ (~ ((0 < usage (modules w))%N
         /\ (usage (modules w) = 1%N
             -> Forall has_module (libs (modules w))))
      -> module_EndBank b w = Abort)
  /\ (usage (modules w) = 0%N -> module_EndBank b w = Abort).
Proof.
  assert (Hzero : usage (modules w) = 0%N -> module_EndBank b w = Abort).
  { intros Hz. unfold module_EndBank, bind, get_modules, assert.
    now rewrite Hz. }
  split; [| split; [| exact Hzero]].
  - intros [Hpos Hlast].
    unfold module_EndBank, bind at 1, get_modules.
    unfold bind at 1, assert.
    apply N.ltb_lt in Hpos. rewrite Hpos. unfold ret at 1.
    apply N.ltb_lt in Hpos.
    destruct (N.eqb_spec (usage (modules w) - 1) 0) as [Hone | Hmore].
    + assert (Hu : usage (modules w) = 1%N) by lia.
      unfold bind at 1. unfold bind at 1. unfold emit at 1.
      unfold bind at 1. unfold put_modules at 1. unfold ret at 1.
      cbn [modules trace]. unfold bind at 1.
      rewrite (teardown_total _ (Hlast Hu)). unfold emit. eauto.
    + unfold bind, put_modules, ret, emit. simpl. eauto.
  - intros Hnot.
    destruct (N.ltb_spec 0 (usage (modules w))) as [Hpos | Hz];
      [| apply Hzero; lia].
    unfold module_EndBank, bind at 1, get_modules.
    unfold bind at 1, assert.
    apply N.ltb_lt in Hpos. rewrite Hpos. unfold ret at 1.
    apply N.ltb_lt in Hpos.
    destruct (N.eqb_spec (usage (modules w) - 1) 0) as [Hone | Hmore].
    + unfold bind at 1. unfold bind at 1. unfold emit at 1.
      unfold bind at 1. unfold put_modules at 1. unfold ret at 1.
      cbn [modules trace]. unfold bind at 1.
      rewrite teardown_stuck; [reflexivity |].
      intros Hall. apply Hnot. split; [exact Hpos | now intros _].
    + exfalso. apply Hnot. split; [exact Hpos | intros Hu; lia].
Qed.

Lemma module_EndBank_outcome_witness :
  (exists w', module_EndBank true seeded_world = Done (tt, w'))
  /\ module_EndBank true empty_world = Abort.
Proof.
  split.
  - apply (proj1 (module_EndBank_outcome true seeded_world)).
    split; [reflexivity |]. intros _.
    constructor; [eexists; reflexivity | constructor].
  - apply (proj2 (proj2 (module_EndBank_outcome true empty_world))).
    reflexivity.
Defined.

Lemma teardown_destroys ls :
  Forall has_module ls ->
  List.length (filter is_destroy (teardown_events ls)) = List.length ls.
Proof.
  unfold teardown_events.
  induction 1 as [| lib ls [m Hm] _ IH]; [reflexivity |].
  cbn [flat_map]. rewrite filter_app, length_app, IH, Hm.
  now destruct (b_loaded m && b_unloadable m).
Qed.

Lemma teardown_unloads ls :
  filter is_unload (teardown_events ls)
  = map (fun m => EvUnload (handle m)) (unload_due ls).
Proof.
  unfold teardown_events, unload_due.
  induction ls as [| lib ls IH]; [reflexivity |].
  cbn [flat_map]. rewrite filter_app, map_app, IH.
  destruct (module lib) as [m |]; [| reflexivity].
  now destruct (b_loaded m && b_unloadable m).
Qed.

Lemma teardown_no_load ls : count_loads (teardown_events ls) = 0%nat.
Proof.
  unfold teardown_events, count_loads.
  induction ls as [| lib ls IH]; [reflexivity |].
  cbn [flat_map]. rewrite filter_app, length_app, IH.
  destruct (module lib) as [m |]; [| reflexivity].
  now destruct (b_loaded m && b_unloadable m).
Qed.

Lemma has_module_dec ls : Forall has_module ls \/ ~ Forall has_module ls.
Proof.
  induction ls as [| p ls [IH | IH]].
  - left. constructor.
  - destruct (module p) as [m |] eqn:Hm.
    + left. constructor; [now exists m | exact IH].
    + right. intros Hall. inversion Hall as [| ? ? [m Hm'] _]; subst.
      congruence.
  - right. intros Hall. inversion Hall; subst. contradiction.
Qed.

(** The module_EndBank of the last user empties the bank and accounts
    for every descriptor: between the unsorting of the configuration and
    the release of the blobs it destroys as many descriptors as the bank
    held, unloads the primary modules that were loaded and unloadable, in
    bank order and each once, and loads nothing. *)
Theorem module_EndBank_teardown b w w' :
  usage (modules w) = 1%N ->
  module_EndBank b w = Done (tt, w') ->
  modules w' = Build_modules_t [] [] 0
  /\ exists evs,
       trace w'
       = trace w ++ EvUnsortConfig :: evs
           ++ [EvChainRelease (caches (modules w))]
       /\ List.length (filter is_destroy evs)
          = List.length (libs (modules w))
       /\ filter is_unload evs
          = map (fun m => EvUnload (handle m)) (unload_due (libs (modules w)))
       /\ count_loads evs = 0%nat.
Proof.
  intros Hu H.
  assert (Hmods : Forall has_module (libs (modules w))).
  { destruct (has_module_dec (libs (modules w))) as [Hall | Hbad];
      [exact Hall | exfalso].
    unfold module_EndBank in H. unfold bind at 1, get_modules in H.
    unfold bind at 1, assert in H. rewrite Hu in H. simpl in H.
    unfold bind at 1 in H. unfold bind at 1 in H. unfold emit at 1 in H.
    unfold bind at 1 in H. unfold put_modules at 1 in H.
    unfold ret at 1 in H. cbn [modules trace] in H. unfold bind at 1 in H.
    rewrite (teardown_stuck _ Hbad) in H. discriminate. }
  apply module_EndBank_Done in H as (_ & H).
  rewrite Hu in H. simpl in H. destruct H as [Hm Htr].
  split; [exact Hm |].
  exists (teardown_events (libs (modules w))).
  split; [exact Htr |].
  split; [now apply teardown_destroys |].
  split; [apply teardown_unloads | apply teardown_no_load].
Qed.

Lemma module_EndBank_teardown_witness :
  exists w',
    module_EndBank true cached_world = Done (tt, w')
    /\ modules w' = Build_modules_t [] [] 0
    /\ List.length (filter is_destroy (trace w')) = 2%nat.
Proof.
  eexists.
  assert (Hrun : module_EndBank true cached_world = Done (tt, _))
    by (vm_compute; reflexivity).
  split; [exact Hrun |].
  destruct (module_EndBank_teardown true cached_world _ eq_refl Hrun)
    as (Hmods & _).
  split; [exact Hmods | reflexivity].
Defined.

Lemma wrap_unsigned_not_one u :
  u <> 0%N -> (u <= UINT_MAX)%N -> wrap_unsigned (u + 1) <> 1%N.
Proof.
  unfold wrap_unsigned, UINT_MAX. intros Hnz Hle.
  destruct (N.eq_dec u 4294967295) as [-> | Hne].
  - vm_compute. discriminate.
  - rewrite N.mod_small by lia. lia.
Qed.

(** A client that joins a bank already in use does not scan again:
    module_InitBank followed by module_LoadPlugins only counts the new
    user and prints the number of modules; descriptors and blobs stay as
    they are, the core entry point is not described again, and no call
    is made to the dynamic linker, the cache or the sorting of the
    configuration. *)
Theorem second_client_does_not_scan E w n w' :
  usage (modules w) <> 0%N -> (usage (modules w) <= UINT_MAX)%N ->
  (module_InitBank E ;;; module_LoadPlugins E) w = Done (n, w') ->
  modules w'
  = Build_modules_t (libs (modules w)) (caches (modules w))
      (wrap_unsigned (usage (modules w) + 1))
  /\ trace w' = trace w ++ [EvMsg Dbg "plug-ins loaded: %zu modules"].
Proof.
  intros Hnz Hle H.
  apply bind_inv in H as ([] & w1 & Hinit & Hload).
  assert (Hw1 : w1 = Build_world
                       (Build_modules_t (libs (modules w)) (caches (modules w))
                          (wrap_unsigned (usage (modules w) + 1)))
                       (trace w)).
  { revert Hinit. unfold module_InitBank, bind, get_modules.
    apply N.eqb_neq in Hnz. rewrite Hnz. simpl.
    unfold put_modules. now intros [= <-]. }
  pose proof (wrap_unsigned_not_one _ Hnz Hle) as Hidle.
  revert Hload. unfold module_LoadPlugins, bind, get_modules.
  replace (usage (modules w1) =? 1)%N with false
    by (symmetry; apply N.eqb_neq; now rewrite Hw1).
  simpl.
  destruct (module_list_get E w1) as [[[t c] w2] | | |] eqn:Hlist;
    try discriminate.
  apply module_list_get_world in Hlist. subst w2.
  unfold msg, emit, ret. intros [= <- <-]. now rewrite Hw1.
Qed.

Lemma second_client_does_not_scan_witness :
  exists n w',
    (module_InitBank (flat_env "libfoo_plugin.so") ;;;
     module_LoadPlugins (flat_env "libfoo_plugin.so")) cached_world
    = Done (n, w')
    /\ libs (modules w') = libs (modules cached_world)
    /\ usage (modules w') = 2%N.
Proof.
  do 2 eexists.
  assert (Hrun : (module_InitBank (flat_env "libfoo_plugin.so") ;;;
                  module_LoadPlugins (flat_env "libfoo_plugin.so"))
                   cached_world = Done (_, _))
    by (vm_compute; reflexivity).
  split; [exact Hrun |].
  assert (Hnz : usage (modules cached_world) <> 0%N) by discriminate.
  assert (Hle : (usage (modules cached_world) <= UINT_MAX)%N)
    by (vm_compute; discriminate).
  destruct (second_client_does_not_scan _ _ _ _ Hnz Hle Hrun) as [Hm _].
  rewrite Hm. split; reflexivity.
Defined.

(* ================================================================= *)
(** ** Further properties: the scan of one file *)

Lemma notes_file_events abspath pre :
  forallb is_note pre = true -> Forall (file_event abspath) pre.
Proof.
  induction pre as [| e pre IH]; simpl; [constructor |].
  intros H. apply andb_true_iff in H as [He Hpre].
  constructor; [| auto].
  destruct e as [| | | | | | | []]; simpl in *; try discriminate; auto.
Qed.

(** What a call to the loader adds to the trace, and what it returns. *)
Lemma module_InitDynamic_scan E file fast w r w' :
  module_InitDynamic E file fast w = Done (r, w') ->
  modules w' = modules w
  /\ exists evs,
       trace w' = trace w ++ evs
       /\ Forall (file_event file) evs
       /\ count_loads evs = 1%nat
       /\ forall p, r = Some p ->
            evs = [EvLoad file fast]
            /\ exists m h, module p = Some m /\ b_loaded m = true
                           /\ handle m = Some h
                           /\ psz_filename m = Some file.
Proof.
  intros H. apply module_InitDynamic_cases in H as (Hmods & evs & Htr & Hcase).
  split; [exact Hmods |]. exists (EvLoad file fast :: evs).
  split; [exact Htr |].
  destruct (module_Load E file fast) as [h |], r as [p |];
    try contradiction.
  - destruct Hcase as (-> & m & Hm & Hh & Hl & Hf).
    split; [repeat constructor |]. split; [reflexivity |].
    intros q [= <-]. split; [reflexivity |]. exists m, h. auto.
  - destruct Hcase as (pre & -> & Hpre).
    split; [| split; [| discriminate]].
    + constructor; [reflexivity |]. apply Forall_app. split.
      * now apply notes_file_events.
      * repeat constructor.
    + change (EvLoad file fast :: pre ++ [EvUnload (Some h)])
        with ([EvLoad file fast] ++ pre ++ [EvUnload (Some h)]).
      rewrite !count_loads_app, (notes_no_load _ Hpre). reflexivity.
  - subst evs. split; [repeat constructor |]. split; [reflexivity |].
    discriminate.
Qed.

Lemma record_base bank p :
  base (if negb (cache_mode_eqb (mode bank) CACHE_IGNORE)
        then CacheAdd bank p else bank) = base bank.
Proof. now destruct (negb _). Qed.

Lemma record_mode bank p :
  mode (if negb (cache_mode_eqb (mode bank) CACHE_IGNORE)
        then CacheAdd bank p else bank) = mode bank.
Proof. now destruct (negb _). Qed.

Lemma record_plugins bank p :
  plugins (if negb (cache_mode_eqb (mode bank) CACHE_IGNORE)
           then CacheAdd bank p else bank)
  = plugins bank
    ++ (if cache_mode_eqb (mode bank) CACHE_IGNORE then [] else [p]).
Proof.
  destruct (cache_mode_eqb (mode bank) CACHE_IGNORE); simpl;
    [now rewrite app_nil_r | reflexivity].
Qed.

Lemma load_in_counted abspath evs :
  Forall (file_event abspath) evs -> (0 < count_loads evs)%nat ->
  exists fast, In (EvLoad abspath fast) evs.
Proof.
  unfold count_loads.
  induction 1 as [| e evs He _ IH]; simpl; [lia |].
  destruct e as [f fast | | | | | | |]; simpl in *;
    try (intros Hpos; destruct (IH Hpos) as [fast' Hin];
         exists fast'; now right).
  intros _. subst f. exists fast. now left.
Qed.

Lemma record_cache bank p :
  cache (if negb (cache_mode_eqb (mode bank) CACHE_IGNORE)
         then CacheAdd bank p else bank) = cache bank.
Proof. now destruct (negb _). Qed.

(** The list of cache entries after a scan: the entry that was found is
    gone from it, and without a lookup the list is as it was. *)
Lemma AllocatePluginFile_cache E bank abspath relpath st w r b w' :
  AllocatePluginFile E bank abspath relpath st w = Done ((r, b), w') ->
  cache b
  = if cache_mode_eqb (mode bank) CACHE_USE
    then snd (vlc_cache_lookup (cache bank) relpath st)
    else cache bank.
Proof.
  intros H. unfold AllocatePluginFile in H.
  apply bind_inv in H as ([plugin0 bank0] & w0 & H0 & H).
  assert (Hk : cache bank0
               = if cache_mode_eqb (mode bank) CACHE_USE
                 then snd (vlc_cache_lookup (cache bank) relpath st)
                 else cache bank).
  { revert H0. destruct (cache_mode_eqb (mode bank) CACHE_USE).
    - destruct (vlc_cache_lookup (cache bank) relpath st) as [[c |] rest].
      + destruct (module c) as [m |]; [| discriminate].
        destruct (strdup_ok E abspath).
        * now intros [= _ <- _].
        * unfold bind, vlc_plugin_destroy, emit, ret. now intros [= _ <- _].
      + now intros [= _ <- _].
    - now intros [= _ <- _]. }
  rewrite <- Hk. clear Hk H0.
  apply bind_inv in H as ([q |] & w1 & _ & H); [| now injection H as _ <- _].
  destruct (module q) as [m |]; [| discriminate].
  apply bind_inv in H as ([p |] & w2 & _ & H); [| now injection H as _ <- _].
  apply bind_inv in H as ([] & w3 & _ & H).
  injection H as _ <- _. apply record_cache.
Qed.

(** The three phases of AllocatePluginFile, summed up: what the call
    leaves in the bank, in the scanning context and in the trace. *)
Lemma AllocatePluginFile_summary E bank abspath relpath st w r b w' :
  AllocatePluginFile E bank abspath relpath st w = Done ((r, b), w') ->
  base b = base bank /\ mode b = mode bank
  /\ usage (modules w') = usage (modules w)
  /\ caches (modules w') = caches (modules w)
  /\ (exists evs,
        trace w' = trace w ++ evs
        /\ Forall (file_event abspath) evs
        /\ (count_loads evs <= 1)%nat
        /\ (mode bank <> CACHE_USE -> r = 0%Z
            /\ evs = [EvLoad abspath true])
        /\ (r = (-1)%Z -> exists fast, In (EvLoad abspath fast) evs))
  /\ ((r = (-1)%Z /\ mode bank = CACHE_USE
       /\ libs (modules w') = libs (modules w)
       /\ plugins b = plugins bank)
      \/ (r = 0%Z
          /\ exists p,
               libs (modules w') = p :: libs (modules w)
               /\ plugins b
                  = plugins bank
                    ++ (if cache_mode_eqb (mode bank) CACHE_IGNORE
                        then [] else [p])
               /\ knows_file abspath p
               /\ (mode bank <> CACHE_USE ->
                   fresh_from abspath relpath st p))).
Proof.
  intros H. unfold AllocatePluginFile in H.
  apply bind_inv in H as ([plugin0 bank0] & w0 & H0 & H).
  (* the cache *)
  assert (S0 : base bank0 = base bank /\ mode bank0 = mode bank
               /\ plugins bank0 = plugins bank
               /\ modules w0 = modules w
               /\ (exists evs0, trace w0 = trace w ++ evs0
                                /\ forallb is_note evs0 = true)
               /\ match plugin0 with
                  | Some p => mode bank = CACHE_USE /\ knows_file abspath p
                              /\ w0 = w
                  | None => True
                  end).
  { revert H0. destruct bank as [bs md pl ca]. simpl.
    destruct md; simpl.
    - destruct (vlc_cache_lookup ca relpath st) as [[c |] rest].
      + destruct (module c) as [m |]; [| discriminate].
        destruct (strdup_ok E abspath).
        * intros [= <- <- <-]. simpl. repeat split; auto.
          -- exists []. now rewrite app_nil_r.
          -- eexists. simpl. split; reflexivity.
        * unfold bind, vlc_plugin_destroy, emit, ret. simpl.
          intros [= <- <- <-]. simpl. repeat split; auto.
          now exists [EvDestroy c].
      + intros [= <- <- <-]. simpl. repeat split; auto.
        exists []. now rewrite app_nil_r.
    - intros [= <- <- <-]. simpl. repeat split; auto.
      exists []. now rewrite app_nil_r.
    - intros [= <- <- <-]. simpl. repeat split; auto.
      exists []. now rewrite app_nil_r. }
  destruct S0 as (Hbase & Hmode & Hplugins & Hmods0 & (evs0 & Htr0 & Hnotes0)
                  & Hhit).
  (* the load *)
  apply bind_inv in H as (plugin1 & w1 & H1 & H).
  assert (S1 : exists q,
             plugin1 = Some q /\ knows_file abspath q
             /\ modules w1 = modules w0
             /\ match plugin0 with
                | Some p => q = p /\ w1 = w0
                | None =>
                    trace w1 = trace w0 ++ [EvLoad abspath true]
                    /\ fresh_from abspath relpath st q
                end).
  { revert H1. destruct plugin0 as [p |].
    - intros [= <- <-]. destruct Hhit as (_ & Hknows & _).
      exists p. auto.
    - intros H1. apply bind_inv in H1 as (r1 & w1' & Hdyn & H1).
      destruct (strdup_ok E relpath); [| discriminate].
      destruct r1 as [p |]; [| discriminate].
      injection H1 as <- <-.
      apply module_InitDynamic_scan in Hdyn
        as (Hm1 & evs1 & Htr1 & _ & _ & Hsome).
      destruct (Hsome p eq_refl) as (-> & m & h & Hm & Hl & Hh & Hf).
      eexists. split; [reflexivity |].
      split; [now exists m |]. split; [exact Hm1 |].
      split; [exact Htr1 |]. exists m, h. simpl. auto 10. }
  destruct S1 as (q & -> & Hknows & Hmods1 & Hload).
  (* callbacks, then the store *)
  destruct Hknows as (m & Hm & Hfile). rewrite Hm in H.
  apply bind_inv in H as (plugin2 & w2 & H2 & H).
  assert (S2 : (plugin2 = Some q /\ w2 = w1)
               \/ (plugin0 <> None /\ mode bank = CACHE_USE
                   /\ modules w2 = modules w1
                   /\ (exists evs2,
                         trace w2 = trace w1 ++ EvDestroy q :: evs2
                         /\ Forall (file_event abspath) evs2
                         /\ count_loads evs2 = 1%nat)
                   /\ forall p, plugin2 = Some p -> knows_file abspath p)).
  { revert H2. destruct (b_loaded m) eqn:Hl.
    - intros [= <- <-]. now left.
    - destruct (config_scan (p_config m) 0 (confsize m)) as [[|] |];
        [| intros [= <- <-]; now left | discriminate].
      intros H2. right.
      destruct plugin0 as [p |].
      2: { destruct Hload as (_ & m' & h & Hm' & Hl' & _). congruence. }
      destruct Hhit as (Huse & _).
      split; [discriminate |]. split; [exact Huse |].
      apply bind_inv in H2 as ([] & wd & Hd & H2).
      injection Hd as <-.
      apply bind_inv in H2 as ([] & wa & Ha & H2).
      unfold assert, abort, ret in Ha.
      destruct (negb (cache_mode_eqb (mode bank0) CACHE_RESET));
        [| discriminate].
      injection Ha as <-.
      apply module_InitDynamic_scan in H2
        as (Hm2 & evs2 & Htr2 & Hev2 & Hcount2 & Hsome).
      split; [exact Hm2 |]. split.
      + exists evs2. simpl in Htr2. rewrite <- app_assoc in Htr2. auto.
      + intros p2 ->.
        destruct (Hsome p2 eq_refl) as (_ & m' & h & Hm' & _ & _ & Hf').
        now exists m'. }
  assert (Hshape :
            forall evs,
              trace w' = trace w0 ++ evs ->
              Forall (file_event abspath) evs ->
              (count_loads evs <= 1)%nat ->
              (mode bank <> CACHE_USE -> evs = [EvLoad abspath true]) ->
              exists evs',
                trace w' = trace w ++ evs'
                /\ Forall (file_event abspath) evs'
                /\ (count_loads evs' <= 1)%nat
                /\ (mode bank <> CACHE_USE -> evs' = [EvLoad abspath true])
          ).
  { intros evs Htr Hev Hcount Hign.
    destruct (cache_mode_eqb (mode bank) CACHE_USE) eqn:Huse.
    - exists (evs0 ++ evs). rewrite Htr, Htr0, <- app_assoc.
      split; [reflexivity |]. split; [| split].
      + apply Forall_app. split; [now apply notes_file_events | exact Hev].
      + rewrite count_loads_app, (notes_no_load _ Hnotes0). exact Hcount.
      + intros Hne. destruct (mode bank); simpl in Huse; congruence.
    - assert (Hne : mode bank <> CACHE_USE)
        by (intros Heq; rewrite Heq in Huse; discriminate).
      assert (Hw0 : w0 = w).
      { revert H0. now intros [= _ _ <-]. }
      exists evs. rewrite <- Hw0. auto. }
  destruct S2 as [[-> ->] | (Hwas & Huse & Hmods2 & (evs2 & Htr2 & Hev2 & Hcount2)
                            & Hknows2)].
  - (* the descriptor of the first two phases is stored *)
    apply bind_inv in H as ([] & ws & Hs & H).
    rewrite module_StoreBank_Done in Hs. injection Hs as <-.
    injection H as <- <- <-.
    rewrite record_base, record_mode, record_plugins.
    cbn [modules trace libs caches usage] in *. rewrite Hmods1, Hmods0.
    split; [exact Hbase |]. split; [exact Hmode |].
    split; [reflexivity |]. split; [reflexivity |]. split.
    + destruct plugin0 as [p |].
      * destruct Hload as [-> ->]. destruct Hhit as (Huse & _ & ->).
        exists []. rewrite app_nil_r. split; [reflexivity |].
        split; [constructor |].
        split; [unfold count_loads; simpl; lia |].
        split; [congruence | discriminate].
      * destruct Hload as [Htr1 _].
        destruct (Hshape [EvLoad abspath true])
          as (evs' & He1 & He2 & He3 & He4);
          auto; [repeat constructor |].
        exists evs'. split; [exact He1 |]. split; [exact He2 |].
        split; [exact He3 |].
        split; [intros Hne; split; [reflexivity | auto] | discriminate].
    + right. split; [reflexivity |]. exists q.
      split; [reflexivity |]. split; [| split].
      * now rewrite Hmode, Hplugins.
      * now exists m.
      * intros Hne. destruct plugin0 as [p |]; [| tauto].
        destruct Hhit as (Huse & _). congruence.
  - (* the descriptor was loaded again *)
    destruct plugin0 as [p |]; [| congruence].
    destruct Hload as [-> ->]. destruct Hhit as (_ & _ & ->).
    assert (Htrace : exists evs,
               trace w2 = trace w ++ evs
               /\ Forall (file_event abspath) evs
               /\ (count_loads evs <= 1)%nat
               /\ (mode bank <> CACHE_USE ->
                   evs = [EvLoad abspath true])
               /\ exists fast, In (EvLoad abspath fast) evs).
    { exists (EvDestroy p :: evs2). split; [exact Htr2 |].
      split; [constructor; [exact I | exact Hev2] |].
      split; [| split; [congruence |]].
      - change (EvDestroy p :: evs2) with ([EvDestroy p] ++ evs2).
        rewrite count_loads_app, Hcount2. simpl. lia.
      - destruct (load_in_counted abspath evs2 Hev2) as [fast Hin];
          [lia |].
        exists fast. now right. }
    destruct plugin2 as [p2 |].
    + apply bind_inv in H as ([] & ws & Hs & H).
      rewrite module_StoreBank_Done in Hs. injection Hs as <-.
      injection H as <- <- <-.
      rewrite record_base, record_mode, record_plugins.
      cbn [modules trace libs caches usage] in *. rewrite Hmods2.
      split; [exact Hbase |]. split; [exact Hmode |].
      split; [reflexivity |]. split; [reflexivity |].
      split.
      { destruct Htrace as (evs & He1 & He2 & He3 & He4 & He5).
        exists evs. split; [exact He1 |]. split; [exact He2 |].
        split; [exact He3 |]. split; [congruence | discriminate]. }
      right. split; [reflexivity |]. exists p2.
      split; [reflexivity |]. split; [| split].
      * now rewrite Hmode, Hplugins.
      * now apply Hknows2.
      * congruence.
    + injection H as <- <- <-. rewrite Hmods2.
      split; [exact Hbase |]. split; [exact Hmode |].
      split; [reflexivity |]. split; [reflexivity |].
      split.
      { destruct Htrace as (evs & He1 & He2 & He3 & He4 & He5).
        exists evs. split; [exact He1 |]. split; [exact He2 |].
        split; [exact He3 |]. split; [congruence | now intros _]. }
      left. auto.
Qed.

(** AllocatePluginFile returns 0 or -1, and the result tells what became
    of the bank.  On 0 exactly one descriptor was put on top of the bank
    list; its primary module knows the file [abspath], and it was
    recorded for the cache save unless the mode is CACHE_IGNORE.  On -1
    the bank list and the record are as they were; this only happens in
    CACHE_USE mode.  In both cases the count of users, the blobs, and the
    base and mode of the scanning context are untouched. *)
Theorem AllocatePluginFile_result_code E bank abspath relpath st w r b w' :
  AllocatePluginFile E bank abspath relpath st w = Done ((r, b), w') ->
  base b = base bank /\ mode b = mode bank
  /\ usage (modules w') = usage (modules w)
  /\ caches (modules w') = caches (modules w)
  /\ ((r = (-1)%Z /\ mode bank = CACHE_USE
       /\ libs (modules w') = libs (modules w)
       /\ plugins b = plugins bank)
      \/ (r = 0%Z
          /\ exists p,
               libs (modules w') = p :: libs (modules w)
               /\ knows_file abspath p
               /\ plugins b
                  = plugins bank
                    ++ (if cache_mode_eqb (mode bank) CACHE_IGNORE
                        then [] else [p]))).
Proof.
  intros H. apply AllocatePluginFile_summary in H
    as (Hbase & Hmode & Hu & Hc & _ & [Hfail | (Hr & p & Hl & Hp & Hk & _)]).
  - repeat (split; [assumption |]). now left.
  - repeat (split; [assumption |]). right. split; [exact Hr |].
    exists p. auto.
Qed.

Lemma AllocatePluginFile_result_code_witness :
  exists b w' p,
    AllocatePluginFile (flat_env "libfoo_plugin.so") flat_bank
      "/plugins/libfoo_plugin.so" "libfoo_plugin.so" (Build_stat S_IFREG 10 100)
      seeded_world = Done ((0%Z, b), w')
    /\ libs (modules w') = p :: libs (modules seeded_world)
    /\ knows_file "/plugins/libfoo_plugin.so" p
    /\ plugins b = [].
Proof.
  assert (Hrun : exists b w',
             AllocatePluginFile (flat_env "libfoo_plugin.so") flat_bank
               "/plugins/libfoo_plugin.so" "libfoo_plugin.so"
               (Build_stat S_IFREG 10 100) seeded_world = Done ((0%Z, b), w'))
    by (do 2 eexists; vm_compute; reflexivity).
  destruct Hrun as (b & w' & Hrun). exists b, w'.
  destruct (AllocatePluginFile_result_code _ _ _ _ _ _ _ _ _ Hrun)
    as (_ & _ & _ & _ & [(Hr & _) | (_ & p & Hl & Hk & Hp)]);
    [discriminate |].
  exists p. auto.
Defined.

(** A scan of one file calls the dynamic linker's Load at most once, and
    only for the file it was given; besides that it only unloads,
    destroys descriptors and prints warnings or errors: it never saves
    or releases a cache and never sorts the configuration. *)
Theorem AllocatePluginFile_one_load E bank abspath relpath st w r b w' :
  AllocatePluginFile E bank abspath relpath st w = Done ((r, b), w') ->
  exists evs,
    trace w' = trace w ++ evs
    /\ Forall (file_event abspath) evs
    /\ (count_loads evs <= 1)%nat.
Proof.
  intros H. apply AllocatePluginFile_summary in H
    as (_ & _ & _ & _ & (evs & Htr & Hev & Hcount & _) & _).
  exists evs. auto.
Qed.

Lemma AllocatePluginFile_one_load_witness :
  exists r b w',
    AllocatePluginFile callback_env callback_bank
      "/plugins/libcb_plugin.so" "libcb_plugin.so" (Build_stat S_IFREG 10 100)
      seeded_world = Done ((r, b), w')
    /\ exists evs,
         trace w' = trace seeded_world ++ evs
         /\ (count_loads evs <= 1)%nat.
Proof.
  assert (Hrun : exists r b w',
             AllocatePluginFile callback_env callback_bank
               "/plugins/libcb_plugin.so" "libcb_plugin.so"
               (Build_stat S_IFREG 10 100) seeded_world = Done ((r, b), w'))
    by (do 3 eexists; vm_compute; reflexivity).
  destruct Hrun as (r & b & w' & Hrun). exists r, b, w'.
  split; [exact Hrun |].
  destruct (AllocatePluginFile_one_load _ _ _ _ _ _ _ _ _ Hrun)
    as (evs & Htr & _ & Hcount).
  exists evs. auto.
Defined.

(** Without the cache (modes CACHE_IGNORE and CACHE_RESET) a scan that
    returns has returned 0 after exactly one Load call, made with
    fast = true, and nothing else: the descriptor on top of the bank list
    comes fresh from the dynamic loader, loaded, with its linker handle
    and its file name, stamped with the relative path and with the mtime
    and the size that stat() gave for the file. *)
Theorem AllocatePluginFile_stamps_fresh E bank abspath relpath st w r b w' :
  mode bank <> CACHE_USE ->
  AllocatePluginFile E bank abspath relpath st w = Done ((r, b), w') ->
  r = 0%Z
  /\ trace w' = trace w ++ [EvLoad abspath true]
  /\ exists p,
       libs (modules w') = p :: libs (modules w)
       /\ fresh_from abspath relpath st p.
Proof.
  intros Hmode H. apply AllocatePluginFile_summary in H
    as (_ & _ & _ & _ & (evs & Htr & _ & _ & Hevs & _)
        & [(_ & Huse & _) | (Hr & p & Hl & _ & _ & Hfresh)]);
    [congruence |].
  destruct (Hevs Hmode) as [_ ->].
  split; [exact Hr |]. split; [exact Htr |]. exists p. auto.
Qed.

Lemma AllocatePluginFile_stamps_fresh_witness :
  exists b w' p,
    AllocatePluginFile (flat_env "libfoo_plugin.so") flat_bank
      "/plugins/libfoo_plugin.so" "libfoo_plugin.so" (Build_stat S_IFREG 10 100)
      seeded_world = Done ((0%Z, b), w')
    /\ libs (modules w') = p :: libs (modules seeded_world)
    /\ fresh_from "/plugins/libfoo_plugin.so" "libfoo_plugin.so"
         (Build_stat S_IFREG 10 100) p.
Proof.
  assert (Hrun : exists b w',
             AllocatePluginFile (flat_env "libfoo_plugin.so") flat_bank
               "/plugins/libfoo_plugin.so" "libfoo_plugin.so"
               (Build_stat S_IFREG 10 100) seeded_world = Done ((0%Z, b), w'))
    by (do 2 eexists; vm_compute; reflexivity).
  destruct Hrun as (b & w' & Hrun). exists b, w'.
  assert (Hmode : mode flat_bank <> CACHE_USE) by discriminate.
  destruct (AllocatePluginFile_stamps_fresh _ _ _ _ _ _ _ _ _ Hmode Hrun)
    as (_ & _ & p & Hl & Hfresh).
  exists p. auto.
Defined.

Lemma config_scan_none cfg n :
  forall i,
    (i + n <= List.length cfg)%nat ->
    (forall j c, (i <= j < i + n)%nat -> nth_error cfg j = Some c ->
                 config_has_callback c = false) ->
    config_scan cfg i n = Some false.
Proof.
  induction n as [| n IH]; intros i Hlen Hnone; [reflexivity |].
  cbn [config_scan].
  destruct (nth_error cfg i) as [c |] eqn:Hc.
  - rewrite (Hnone i c) by (auto; lia). apply IH; [lia |].
    intros j c' Hj. apply Hnone. lia.
  - apply nth_error_None in Hc. lia.
Qed.

(** A hit in the cache costs no call to the dynamic linker.  When the
    lookup finds the file and the cached primary module needs no forced
    load (it is loaded already, or none of its configuration items has a
    list callback), AllocatePluginFile enrols the cached descriptor
    itself, with psz_filename set to [abspath], takes it out of the
    cache list, records it for the cache save and returns 0; the trace
    does not change. *)
Theorem AllocatePluginFile_cache_hit E bank abspath relpath st w c rest m :
  mode bank = CACHE_USE ->
  vlc_cache_lookup (cache bank) relpath st = (Some c, rest) ->
  module c = Some m -> strdup_ok E abspath = true ->
  b_loaded m = true \/ no_list_callback m ->
  AllocatePluginFile E bank abspath relpath st w
  = Done ((0%Z,
           CacheAdd (set_cache rest bank)
             (set_module (set_psz_filename (Some abspath) m) c)),
          store_lib (set_module (set_psz_filename (Some abspath) m) c) w).
Proof.
  intros Hmode Hhit Hm Hdup Hquiet.
  assert (Hscan : b_loaded m = true
                  \/ config_scan (p_config m) 0 (confsize m) = Some false).
  { destruct Hquiet as [Hl | [Hlen Hnone]]; [now left | right].
    apply config_scan_none; [exact Hlen |].
    intros j cfg Hj. apply Hnone. lia. }
  destruct bank as [bs md pl ca]. simpl in Hmode, Hhit. subst md.
  unfold AllocatePluginFile, bind, ret. simpl.
  rewrite Hhit, Hm, Hdup. simpl.
  destruct Hscan as [Hl | Hscan].
  - rewrite Hl. reflexivity.
  - rewrite Hscan. destruct (b_loaded m); reflexivity.
Qed.

Lemma AllocatePluginFile_cache_hit_witness :
  exists b w',
    AllocatePluginFile (flat_env "libfoo_plugin.so") foo_bank
      "/plugins/libfoo_plugin.so" "libfoo_plugin.so" (Build_stat S_IFREG 10 100)
      seeded_world = Done ((0%Z, b), w')
    /\ trace w' = trace seeded_world
    /\ cache b = [].
Proof.
  do 2 eexists.
  rewrite (AllocatePluginFile_cache_hit (flat_env "libfoo_plugin.so")
             foo_bank "/plugins/libfoo_plugin.so" "libfoo_plugin.so"
             (Build_stat S_IFREG 10 100) seeded_world cached_foo []
             (set_psz_filename (Some "/plugins/libfoo_plugin.so"%string)
                (mk_module "foo" "x" 50))
             eq_refl eq_refl eq_refl eq_refl
             (or_intror (conj (le_n 0) (fun j cfg Hj _ =>
                                          match Nat.nlt_0_r j Hj with end)))).
  split; [reflexivity |]. split; reflexivity.
Defined.

(* ================================================================= *)
(** ** Further properties: the walk *)

Lemma walked_refl E root md bank w : walked E root md bank w bank w.
Proof.
  split; [reflexivity |]. split; [reflexivity |]. split; [reflexivity |].
  split; [reflexivity |]. split; [reflexivity |]. exists [], [].
  destruct (cache_mode_eqb md CACHE_IGNORE); simpl; rewrite !app_nil_r;
    repeat split; auto.
Qed.

Lemma walked_trans E root md b1 w1 b2 w2 b3 w3 :
  walked E root md b1 w1 b2 w2 -> walked E root md b2 w2 b3 w3 ->
  walked E root md b1 w1 b3 w3.
Proof.
  intros (Hb & Hm & Hk & Hu & Hc & new & evs & Hl & Hp & Hnew & Htr & Hev)
         (Hb' & Hm' & Hk' & Hu' & Hc' & new' & evs' & Hl' & Hp' & Hnew'
          & Htr' & Hev').
  split; [congruence |]. split; [congruence |].
  split; [intros Hne; rewrite Hk', Hk; auto |].
  split; [congruence |]. split; [congruence |].
  exists (new ++ new'), (evs ++ evs').
  split; [now rewrite Hl', Hl, rev_app_distr, app_assoc |].
  split.
  { rewrite Hp', Hp, <- app_assoc.
    now destruct (cache_mode_eqb md CACHE_IGNORE). }
  split; [apply Forall_app; auto |].
  split; [now rewrite Htr', Htr, app_assoc | apply Forall_app; auto].
Qed.

Lemma file_event_walk_event E root abspath e :
  candidate_path E root abspath ->
  file_event abspath e -> walk_event E root e.
Proof.
  intros Hcand. destruct e as [f fast | | | | | | | []]; simpl; auto.
  now intros ->.
Qed.

(** The scan of a candidate file, seen from the walk. *)
Lemma AllocatePluginFile_walked E bank reldir file st w r b w' :
  vlc_stat E (entry_abspath E bank reldir file) = Some st ->
  st_mode st = S_IFREG -> plugin_pattern E file ->
  AllocatePluginFile E bank (entry_abspath E bank reldir file)
    (entry_relpath E reldir file) st w = Done ((r, b), w') ->
  walked E (base bank) (mode bank) bank w b w'.
Proof.
  intros Hst Hreg Hpat H.
  assert (Hcand : candidate_path E (base bank)
                    (entry_abspath E bank reldir file)).
  { exists reldir, file, st. auto. }
  pose proof (AllocatePluginFile_cache _ _ _ _ _ _ _ _ _ H) as Hcache.
  apply AllocatePluginFile_summary in H
    as (Hbase & Hmode & Hu & Hc & (evs & Htr & Hev & _ & _) & Hres).
  split; [assumption |]. split; [assumption |].
  split.
  { intros Hne. rewrite Hcache.
    destruct (mode bank); simpl; congruence. }
  split; [assumption |]. split; [assumption |].
  assert (Hev' : Forall (walk_event E (base bank)) evs).
  { eapply Forall_impl; [| exact Hev].
    intros e. now apply file_event_walk_event. }
  destruct Hres as [(_ & _ & Hl & Hp) | (_ & p & Hl & Hp & Hk & Hfresh)].
  - exists [], evs. simpl. rewrite Hp.
    split; [exact Hl |].
    split; [destruct (cache_mode_eqb (mode bank) CACHE_IGNORE);
            now rewrite app_nil_r |].
    auto.
  - exists [p], evs. simpl.
    split; [exact Hl |]. split; [exact Hp |].
    split; [| auto]. constructor; [| constructor].
    split; [now exists (entry_abspath E bank reldir file) |].
    intros Hne. exists (entry_relpath E reldir file), st. auto.
Qed.

Lemma AllocatePluginDir_entry_walked E rec reldir bank file w b w' :
  (forall s a r w1 s' w1', rec s a r w1 = Done (s', w1') ->
                           walked E (base s) (mode s) s w1 s' w1') ->
  AllocatePluginDir_entry E rec reldir bank file w = Done (b, w') ->
  walked E (base bank) (mode bank) bank w b w'.
Proof.
  intros Hrec. unfold AllocatePluginDir_entry.
  destruct (strcmp_eq file "." || strcmp_eq file "..");
    [intros [= <- <-]; apply walked_refl |].
  fold (entry_relpath E reldir file).
  destruct (negb (strdup_ok E (entry_relpath E reldir file)));
    [intros [= <- <-]; apply walked_refl |].
  fold (entry_abspath E bank reldir file).
  destruct (negb (strdup_ok E (entry_abspath E bank reldir file)));
    [intros [= <- <-]; apply walked_refl |].
  destruct (vlc_stat E (entry_abspath E bank reldir file)) as [st |] eqn:Hst;
    [| intros [= <- <-]; apply walked_refl].
  destruct (st_mode st) eqn:Hkind.
  - destruct (is_plugin_name E file) eqn:Hname;
      [| intros [= <- <-]; apply walked_refl].
    apply is_plugin_name_iff in Hname.
    intros H. apply bind_inv in H as ([r b1] & w1 & Hfile & H).
    injection H as <- <-.
    eapply AllocatePluginFile_walked; eassumption.
  - apply Hrec.
  - intros [= <- <-]. apply walked_refl.
Qed.

Lemma AllocatePluginDir_fuel_walked E fuel :
  forall bank maxdepth absdir reldir w b w',
    AllocatePluginDir_fuel E fuel bank maxdepth absdir reldir w
    = Done (b, w') ->
    walked E (base bank) (mode bank) bank w b w'.
Proof.
  induction fuel as [| fuel IH];
    intros bank maxdepth absdir reldir w b w'; simpl.
  - discriminate.
  - destruct (maxdepth =? 0)%N; [intros [= <- <-]; apply walked_refl |].
    destruct (vlc_opendir E absdir) as [entries |];
      [| intros [= <- <-]; apply walked_refl].
    intros H.
    assert (Hgen : forall l s w0 s' w0',
               base s = base bank -> mode s = mode bank ->
               fold_each l
                 (AllocatePluginDir_entry E
                    (fun bank0 abspath relpath =>
                       AllocatePluginDir_fuel E fuel bank0 (maxdepth - 1)
                         abspath relpath) reldir) s w0 = Done (s', w0') ->
               walked E (base bank) (mode bank) s w0 s' w0').
    { induction l as [| x l IHl]; intros s w0 s' w0' Hb Hm Hrun;
        simpl in Hrun.
      - injection Hrun as <- <-. apply walked_refl.
      - apply bind_inv in Hrun as (s1 & w1 & H1 & H2).
        apply AllocatePluginDir_entry_walked in H1;
          [| intros; eapply IH; eassumption].
        rewrite Hb, Hm in H1.
        eapply walked_trans; [exact H1 |].
        destruct H1 as (Hb1 & Hm1 & _).
        apply IHl; [congruence | congruence | exact H2]. }
    now apply (Hgen entries bank w b w').
Qed.

Lemma AllocatePluginDir_walked E bank maxdepth absdir reldir w b w' :
  AllocatePluginDir E bank maxdepth absdir reldir w = Done (b, w') ->
  walked E (base bank) (mode bank) bank w b w'.
Proof. apply AllocatePluginDir_fuel_walked. Qed.


(* ================================================================= *)
(** ** The reach of the walk *)

Lemma surveyed_refl E root md k absdir reldir w :
  surveyed E root md k absdir reldir w w.
Proof.
  exists [], []. simpl. rewrite app_nil_r. repeat split; constructor.
Qed.

Lemma surveyed_trans E root md k absdir reldir w1 w2 w3 :
  surveyed E root md k absdir reldir w1 w2 ->
  surveyed E root md k absdir reldir w2 w3 ->
  surveyed E root md k absdir reldir w1 w3.
Proof.
  intros (new & evs & Hl & Htr & Hnew & Hev)
         (new' & evs' & Hl' & Htr' & Hnew' & Hev').
  exists (new ++ new'), (evs ++ evs').
  split; [now rewrite Hl', Hl, rev_app_distr, app_assoc |].
  split; [now rewrite Htr', Htr, app_assoc |].
  split; apply Forall_app; auto.
Qed.

(** A plug-in located below a subdirectory lies one level deeper below
    the directory itself. *)
Lemma within_step E root k absdir reldir d l sd f :
  vlc_opendir E absdir = Some l -> In d l ->
  visible_entry E (root_bank root) reldir d sd -> st_mode sd = S_IFDIR ->
  within E root k (entry_abspath E (root_bank root) reldir d)
    (Some (entry_relpath E reldir d)) f ->
  within E root (S k) absdir reldir f.
Proof.
  intros Hopen Hin Hvis Hdir (dirs & file & st & Hlen & Hloc & ->).
  exists (d :: dirs), file, st. split; [simpl; lia |].
  split; [| reflexivity].
  cbn [located]. split; [now exists l |]. split; [now exists sd | exact Hloc].
Qed.

Lemma loaded_within_step E root k absdir reldir d l sd p :
  vlc_opendir E absdir = Some l -> In d l ->
  visible_entry E (root_bank root) reldir d sd -> st_mode sd = S_IFDIR ->
  loaded_within E root k (entry_abspath E (root_bank root) reldir d)
    (Some (entry_relpath E reldir d)) p ->
  loaded_within E root (S k) absdir reldir p.
Proof.
  intros Hopen Hin Hvis Hdir (dirs & file & st & Hlen & Hloc & Hfresh).
  exists (d :: dirs), file, st. split; [simpl; lia |].
  split; [| exact Hfresh].
  cbn [located]. split; [now exists l |]. split; [now exists sd | exact Hloc].
Qed.

Lemma surveyed_step E root md k absdir reldir d l sd w w' :
  vlc_opendir E absdir = Some l -> In d l ->
  visible_entry E (root_bank root) reldir d sd -> st_mode sd = S_IFDIR ->
  surveyed E root md k (entry_abspath E (root_bank root) reldir d)
    (Some (entry_relpath E reldir d)) w w' ->
  surveyed E root md (S k) absdir reldir w w'.
Proof.
  intros Hopen Hin Hvis Hdir (new & evs & Hl & Htr & Hnew & Hev).
  exists new, evs. split; [exact Hl |]. split; [exact Htr |]. split.
  - eapply Forall_impl; [| exact Hnew].
    intros p [(f & Hk & Hw) Hfresh]. split.
    + exists f. split; [exact Hk |]. eapply within_step; eassumption.
    + intros Hne. eapply loaded_within_step; eauto.
  - eapply Forall_impl; [| exact Hev].
    intros e. destruct e as [f fast | | | | | | | []]; simpl; auto.
    intros Hw. eapply within_step; eassumption.
Qed.

Lemma not_dot_entry file :
  strcmp_eq file "." || strcmp_eq file ".." = false ->
  file <> "."%string /\ file <> ".."%string.
Proof.
  unfold strcmp_eq. intros H. apply orb_false_iff in H as [H1 H2].
  now apply String.eqb_neq in H1, H2.
Qed.

(** One entry of a directory, seen from the walk of that directory. *)
Lemma AllocatePluginDir_entry_surveyed
  E rec k absdir reldir l bank file w b w' :
  vlc_opendir E absdir = Some l -> In file l ->
  (forall s a r w1 s' w1',
     base s = base bank -> mode s = mode bank ->
     rec s a r w1 = Done (s', w1') ->
     surveyed E (base bank) (mode bank) k a r w1 w1') ->
  AllocatePluginDir_entry E rec reldir bank file w = Done (b, w') ->
  surveyed E (base bank) (mode bank) (S k) absdir reldir w w'.
Proof.
  intros Hopen Hin Hrec. unfold AllocatePluginDir_entry.
  destruct (strcmp_eq file "." || strcmp_eq file "..") eqn:Hdot;
    [intros [= <- <-]; apply surveyed_refl |].
  apply not_dot_entry in Hdot as [Hd1 Hd2].
  fold (entry_relpath E reldir file).
  destruct (strdup_ok E (entry_relpath E reldir file)) eqn:Hrel;
    [| intros [= <- <-]; apply surveyed_refl].
  fold (entry_abspath E bank reldir file).
  destruct (strdup_ok E (entry_abspath E bank reldir file)) eqn:Habs;
    [| intros [= <- <-]; apply surveyed_refl].
  cbn [negb].
  destruct (vlc_stat E (entry_abspath E bank reldir file)) as [st |] eqn:Hst;
    [| intros [= <- <-]; apply surveyed_refl].
  assert (Hvis : visible_entry E (root_bank (base bank)) reldir file st).
  { repeat split; assumption. }
  destruct (st_mode st) eqn:Hkind.
  - destruct (is_plugin_name E file) eqn:Hname;
      [| intros [= <- <-]; apply surveyed_refl].
    apply is_plugin_name_iff in Hname.
    intros H. apply bind_inv in H as ([r b1] & w1 & Hfile & H).
    injection H as <- <-.
    assert (Hwithin : within E (base bank) (S k) absdir reldir
                        (entry_abspath E bank reldir file)).
    { exists [], file, st. split; [simpl; lia |]. split; [| reflexivity].
      cbn [located]. split; [now exists l |]. auto. }
    apply AllocatePluginFile_summary in Hfile
      as (_ & _ & _ & _ & (evs & Htr & Hev & _) & Hres).
    assert (Hev' : Forall (reach_event E (base bank) (S k) absdir reldir) evs).
    { eapply Forall_impl; [| exact Hev].
      intros e. destruct e as [f fast | | | | | | | []]; simpl; auto.
      now intros ->. }
    destruct Hres as [(_ & _ & Hl & _) | (_ & p & Hl & _ & Hknows & Hfresh)].
    + exists [], evs. simpl. auto.
    + exists [p], evs. simpl. split; [exact Hl |]. split; [exact Htr |].
      split; [| exact Hev']. constructor; [| constructor]. split.
      * now exists (entry_abspath E bank reldir file).
      * intros Hne. exists [], file, st. split; [simpl; lia |]. split.
        -- cbn [located]. split; [now exists l |]. auto.
        -- now apply Hfresh.
  - intros H. apply Hrec in H; [| reflexivity | reflexivity].
    eapply surveyed_step; eassumption.
  - intros [= <- <-]. apply surveyed_refl.
Qed.

Lemma AllocatePluginDir_fuel_surveyed E fuel :
  forall bank maxdepth absdir reldir w b w',
    AllocatePluginDir_fuel E fuel bank maxdepth absdir reldir w
    = Done (b, w') ->
    surveyed E (base bank) (mode bank) (N.to_nat maxdepth) absdir reldir
      w w'.
Proof.
  induction fuel as [| fuel IH];
    intros bank maxdepth absdir reldir w b w'; simpl.
  - discriminate.
  - destruct (N.eqb_spec maxdepth 0) as [-> | Hnz];
      [intros [= <- <-]; apply surveyed_refl |].
    destruct (vlc_opendir E absdir) as [entries |] eqn:Hopen;
      [| intros [= <- <-]; apply surveyed_refl].
    intros H.
    replace (N.to_nat maxdepth) with (S (N.to_nat (maxdepth - 1))) by lia.
    assert (Hgen : forall l s w0 s' w0',
               (forall x, In x l -> In x entries) ->
               base s = base bank -> mode s = mode bank ->
               fold_each l
                 (AllocatePluginDir_entry E
                    (fun bank0 abspath relpath =>
                       AllocatePluginDir_fuel E fuel bank0 (maxdepth - 1)
                         abspath relpath) reldir) s w0 = Done (s', w0') ->
               surveyed E (base bank) (mode bank)
                 (S (N.to_nat (maxdepth - 1))) absdir reldir w0 w0').
    { induction l as [| x l IHl]; intros s w0 s' w0' Hsub Hb Hm Hrun;
        simpl in Hrun.
      - injection Hrun as <- <-. apply surveyed_refl.
      - apply bind_inv in Hrun as (s1 & w1 & H1 & H2).
        pose proof H1 as Hw.
        apply AllocatePluginDir_entry_walked in Hw;
          [| intros; eapply AllocatePluginDir_fuel_walked; eassumption].
        destruct Hw as (Hb1 & Hm1 & _).
        apply (AllocatePluginDir_entry_surveyed E _ (N.to_nat (maxdepth - 1))
                 absdir reldir entries) in H1;
          [| exact Hopen | apply Hsub; now left |].
        2: { intros s0 a r w2 s2 w2' Hb0 Hm0 Hrec.
             apply IH in Hrec. now rewrite Hb0, Hm0 in Hrec. }
        rewrite Hb, Hm in H1.
        eapply surveyed_trans; [exact H1 |].
        apply (IHl s1 w1 s' w0');
          [intros y Hy; apply Hsub; now right | congruence | congruence
          | exact H2]. }
    now apply (Hgen entries bank w b w').
Qed.

Lemma AllocatePluginDir_surveyed E bank maxdepth absdir reldir w b w' :
  AllocatePluginDir E bank maxdepth absdir reldir w = Done (b, w') ->
  surveyed E (base bank) (mode bank) (N.to_nat maxdepth) absdir reldir w w'.
Proof. apply AllocatePluginDir_fuel_surveyed. Qed.

(** *** Paths and their components *)

Lemma append_inj_l (a x y : string) : (a ++ x)%string = (a ++ y)%string -> x = y.
Proof. induction a as [| c a IH]; simpl; [auto |]. intros [= H]. auto. Qed.

Lemma is_delim_single c ch :
  is_delim (String c EmptyString) ch = false -> ch <> c.
Proof.
  unfold is_delim. simpl. rewrite orb_false_r.
  intros H ->. now rewrite Ascii.eqb_refl in H.
Qed.

Lemma first_split c :
  forall t1 t2 r1 r2,
    delim_free (String c EmptyString) t1 ->
    delim_free (String c EmptyString) t2 ->
    (t1 ++ String c r1)%string = (t2 ++ String c r2)%string ->
    t1 = t2 /\ r1 = r2.
Proof.
  induction t1 as [| a t1 IH]; intros [| b t2] r1 r2 H1 H2; simpl.
  - now intros [= ->].
  - intros [= <- _]. inversion H2 as [| ? ? Hb _]; subst.
    now apply is_delim_single in Hb.
  - intros [= -> _]. inversion H1 as [| ? ? Ha _]; subst.
    now apply is_delim_single in Ha.
  - intros [= -> H]. inversion H1; inversion H2; subst.
    destruct (IH t2 r1 r2) as [-> ->]; auto.
Qed.

Lemma no_split c :
  forall t2 t1 r2,
    delim_free (String c EmptyString) t1 ->
    t1 <> (t2 ++ String c r2)%string.
Proof.
  induction t2 as [| b t2 IH]; intros t1 r2 H1 ->; simpl in H1.
  - inversion H1 as [| ? ? Hc _]; subst. now apply is_delim_single in Hc.
  - inversion H1 as [| ? ? _ Hrest]; subst. now apply (IH _ r2 Hrest).
Qed.

Lemma join_with_cons c t l :
  l <> [] -> join_with c (t :: l) = (t ++ String c (join_with c l))%string.
Proof. destruct l; [congruence | reflexivity]. Qed.

Lemma join_with_inj c :
  forall l1 l2,
    l1 <> [] -> l2 <> [] ->
    Forall (delim_free (String c EmptyString)) l1 ->
    Forall (delim_free (String c EmptyString)) l2 ->
    join_with c l1 = join_with c l2 -> l1 = l2.
Proof.
  induction l1 as [| t1 l1 IH]; intros [| t2 l2] Hn1 Hn2 H1 H2;
    try congruence.
  inversion H1 as [| ? ? Ht1 Hl1]; inversion H2 as [| ? ? Ht2 Hl2]; subst.
  destruct l1 as [| u1 l1], l2 as [| u2 l2].
  - simpl. now intros ->.
  - rewrite (join_with_cons c t2 (u2 :: l2)) by discriminate.
    simpl join_with at 1. intros H. now apply no_split in H.
  - rewrite (join_with_cons c t1 (u1 :: l1)) by discriminate.
    simpl join_with at 2. intros H. symmetry in H. now apply no_split in H.
  - rewrite (join_with_cons c t1 (u1 :: l1)) by discriminate.
    rewrite (join_with_cons c t2 (u2 :: l2)) by discriminate.
    intros H. apply first_split in H as [-> H]; auto.
    f_equal. apply IH; auto; discriminate.
Qed.

Lemma chain_relpath_join E c file :
  DIR_SEP E = String c EmptyString ->
  forall dirs r,
    entry_relpath E (chain_reldir E (Some r) dirs) file
    = (r ++ String c (join_with c (dirs ++ [file])))%string.
Proof.
  intros Hsep. induction dirs as [| d ds IH]; intros r.
  - simpl. unfold join. now rewrite Hsep.
  - cbn [chain_reldir]. rewrite IH. cbn [entry_relpath].
    unfold join. rewrite Hsep. cbn [append].
    rewrite <- app_comm_cons.
    rewrite (join_with_cons c d (ds ++ [file]))
      by (destruct ds; discriminate).
    rewrite append_assoc. reflexivity.
Qed.

Lemma located_relpath_join E c dirs file :
  DIR_SEP E = String c EmptyString ->
  located_relpath E None dirs file = join_with c (dirs ++ [file]).
Proof.
  intros Hsep. unfold located_relpath. destruct dirs as [| d ds].
  - reflexivity.
  - cbn [chain_reldir entry_relpath].
    rewrite (chain_relpath_join E c file Hsep).
    rewrite <- app_comm_cons.
    now rewrite (join_with_cons c d (ds ++ [file]))
      by (destruct ds; discriminate).
Qed.

Lemma located_names E root file st :
  tidy E ->
  forall dirs absdir reldir,
    located E root absdir reldir dirs file st ->
    Forall (delim_free (DIR_SEP E)) (dirs ++ [file]).
Proof.
  intros [_ Hnames]. induction dirs as [| d ds IH];
    intros absdir reldir Hloc; cbn [located] in Hloc.
  - destruct Hloc as ((l & Hopen & Hin) & _).
    apply Hnames in Hopen. rewrite Forall_forall in Hopen.
    constructor; [now apply Hopen | constructor].
  - destruct Hloc as ((l & Hopen & Hin) & _ & Hrest).
    apply Hnames in Hopen. rewrite Forall_forall in Hopen.
    simpl. constructor; [now apply Hopen | exact (IH _ _ Hrest)].
Qed.



(** *** A tidy host *)

Lemma open_host_tidy fs :
  Forall (fun kv => match snd kv with
                    | Dir ns => Forall (delim_free "/") ns
                    | File _ _ => True
                    end) fs ->
  tidy (open_host fs).
Proof.
  intros Hfs. split; [now exists "/"%char |].
  intros dir l. simpl.
  induction Hfs as [| [k v] fs Hv _ IH]; simpl; [discriminate |].
  destruct (String.eqb k dir); [| exact IH].
  destruct v as [ns | mt sz]; [| discriminate].
  now intros [= <-].
Qed.

Lemma busy_env_tidy : tidy busy_env.
Proof. apply open_host_tidy. repeat (constructor; simpl). Qed.

(** *** What the walk loads and enrols *)

(** A located plug-in is a regular file, described by stat(), whose own
    name has the plug-in pattern. *)
Lemma located_file E root file st :
  forall dirs absdir reldir,
    located E root absdir reldir dirs file st ->
    plugin_pattern E file
    /\ vlc_stat E (located_abspath E root reldir dirs file) = Some st
    /\ st_mode st = S_IFREG.
Proof.
  induction dirs as [| d ds IH]; intros absdir reldir Hloc;
    cbn [located] in Hloc.
  - destruct Hloc as (_ & (_ & _ & _ & _ & Hst) & Hreg & Hpat). auto.
  - destruct Hloc as (_ & _ & Hrest). exact (IH _ _ Hrest).
Qed.

(** On a tidy host the components of the path of a located plug-in are
    the subdirectories it lies under, then its name. *)
Lemma located_path_names E root c dirs file st absdir names :
  tidy E -> DIR_SEP E = String c EmptyString ->
  located E root absdir None dirs file st ->
  names <> [] -> Forall (delim_free (DIR_SEP E)) names ->
  located_abspath E root None dirs file = join E root (join_with c names) ->
  dirs ++ [file] = names.
Proof.
  intros Htidy Hsep Hloc Hne Hnames Hpath.
  pose proof (located_names E root file st Htidy _ _ _ Hloc) as Hn.
  unfold located_abspath, entry_abspath, join in Hpath.
  cbn [base root_bank] in Hpath.
  apply append_inj_l, append_inj_l in Hpath.
  fold (located_relpath E None dirs file) in Hpath.
  rewrite (located_relpath_join E c _ _ Hsep) in Hpath.
  rewrite Hsep in Hn, Hnames.
  apply join_with_inj in Hpath; auto.
  intros Hnil. apply app_eq_nil in Hnil as [_ Hnil]. discriminate.
Qed.

Lemma within_names E root k absdir c names name :
  tidy E -> DIR_SEP E = String c EmptyString ->
  Forall (delim_free (DIR_SEP E)) (names ++ [name]) ->
  within E root k absdir None (join E root (join_with c (names ++ [name]))) ->
  plugin_pattern E name /\ (List.length names < k)%nat.
Proof.
  intros Htidy Hsep Hnames (dirs & file & st & Hlen & Hloc & Hpath).
  symmetry in Hpath.
  apply (located_path_names E root c dirs file st absdir (names ++ [name])
           Htidy Hsep Hloc) in Hpath;
    [| destruct names; discriminate | exact Hnames].
  apply app_inj_tail in Hpath as [-> ->].
  split; [| exact Hlen].
  now destruct (located_file _ _ _ _ _ _ _ Hloc).
Qed.

Lemma knows_file_unique f g p : knows_file f p -> knows_file g p -> f = g.
Proof. intros (m & Hm & Hf) (m' & Hm' & Hg). congruence. Qed.

(** Whatever the directory tree looks like, a walk with the depth
    [maxdepth] only hands to the dynamic linker what it met as an entry
    of a directory it read: a regular file whose own name, the entry as
    readdir() gave it, has the shape lib*_plugin<libext>, in the
    directory walked or under fewer than [maxdepth] nested
    subdirectories of it, each of them an entry of the one before;
    besides Load and Unload calls the walk only destroys descriptors
    and prints warnings or errors.  Where the separator is one character
    that no entry name contains, the last component of every path
    loaded has the pattern: lib*_plugin<libext> spread over the name of a
    directory and the name of a file does not make a plug-in. *)
Theorem AllocatePluginDir_loads_candidates
  E bank maxdepth absdir reldir w b w' :
  AllocatePluginDir E bank maxdepth absdir reldir w = Done (b, w') ->
  exists evs,
    trace w' = trace w ++ evs
    /\ Forall (reach_event E (base bank) (N.to_nat maxdepth) absdir reldir)
         evs
    /\ (forall f fast, In (EvLoad f fast) evs ->
          exists dirs file st,
            (List.length dirs < N.to_nat maxdepth)%nat
            /\ located E (base bank) absdir reldir dirs file st
            /\ f = located_abspath E (base bank) reldir dirs file
            /\ plugin_pattern E file
            /\ vlc_stat E f = Some st /\ st_mode st = S_IFREG)
    /\ (tidy E -> reldir = None ->
        forall c names name fast,
          DIR_SEP E = String c EmptyString ->
          Forall (delim_free (DIR_SEP E)) (names ++ [name]) ->
          In (EvLoad (join E (base bank) (join_with c (names ++ [name])))
                fast) evs ->
          plugin_pattern E name
          /\ (List.length names < N.to_nat maxdepth)%nat).
Proof.
  intros H. apply AllocatePluginDir_surveyed in H
    as (new & evs & _ & Htr & _ & Hev).
  exists evs. split; [exact Htr |]. split; [exact Hev |].
  assert (Hload : forall f fast, In (EvLoad f fast) evs ->
            within E (base bank) (N.to_nat maxdepth) absdir reldir f).
  { intros f fast Hin. rewrite Forall_forall in Hev. exact (Hev _ Hin). }
  split.
  - intros f fast Hin.
    destruct (Hload _ _ Hin) as (dirs & file & st & Hlen & Hloc & ->).
    exists dirs, file, st.
    destruct (located_file E _ file st _ _ _ Hloc) as (Hpat & Hst & Hreg).
    auto 10.
  - intros Htidy -> c names name fast Hsep Hnames Hin.
    eapply within_names; eauto.
Qed.

Lemma AllocatePluginDir_loads_candidates_witness :
  exists b w',
    AllocatePluginDir busy_env (root_bank "/plugins") 5 "/plugins" None
      empty_world = Done (b, w')
    /\ (forall f fast, In (EvLoad f fast) (trace w') ->
          exists dirs file st,
            (List.length dirs < 5)%nat
            /\ located busy_env "/plugins" "/plugins" None dirs file st
            /\ f = located_abspath busy_env "/plugins" None dirs file)
    /\ forall fast,
         ~ In (EvLoad "/plugins/libs/foo_plugin.so" fast) (trace w').
Proof.
  assert (Hrun : exists b w',
             AllocatePluginDir busy_env (root_bank "/plugins") 5 "/plugins"
               None empty_world = Done (b, w'))
    by (do 2 eexists; vm_compute; reflexivity).
  destruct Hrun as (b & w' & Hrun). exists b, w'.
  split; [exact Hrun |].
  destruct (AllocatePluginDir_loads_candidates _ _ _ _ _ _ _ _ Hrun)
    as (evs & Htr & _ & Hload & Hname).
  simpl in Htr. rewrite Htr. split.
  - intros f fast Hin.
    destruct (Hload _ _ Hin) as (dirs & file & st & Hlen & Hloc & Hf & _).
    now exists dirs, file, st.
  - intros fast Hin.
    destruct (Hname busy_env_tidy eq_refl "/"%char ["libs"%string]
                "foo_plugin.so"%string fast eq_refl) as [[mid Hmid] _];
      [repeat (constructor; simpl) | exact Hin | discriminate Hmid].
Defined.

(** A walk only adds to the bank: the descriptors it finds go on top of
    the bank list, the last one found first, and the count of users and
    the blobs are untouched.  Each descriptor enrolled knows its file,
    which the walk met as an entry of a directory it read: a regular
    file whose own name has the plug-in pattern, in the directory walked
    or under fewer than [maxdepth] nested subdirectories of it; unless
    the mode is CACHE_IGNORE the same descriptors, in the order of
    discovery, are what the walk records for the cache save; and without
    the cache (CACHE_IGNORE, CACHE_RESET) each of them is loaded, holds
    its linker handle and carries the relative path, mtime and size of
    that file.  Where the separator is one character that no entry name
    contains, the last component of the path of every file enrolled has
    the pattern. *)
Theorem AllocatePluginDir_enrols E bank maxdepth absdir reldir w b w' :
  AllocatePluginDir E bank maxdepth absdir reldir w = Done (b, w') ->
  base b = base bank /\ mode b = mode bank
  /\ usage (modules w') = usage (modules w)
  /\ caches (modules w') = caches (modules w)
  /\ exists new,
       libs (modules w') = rev new ++ libs (modules w)
       /\ plugins b
          = plugins bank
            ++ (if cache_mode_eqb (mode bank) CACHE_IGNORE then [] else new)
       /\ Forall (enrolled_within E (base bank) (N.to_nat maxdepth)
                    absdir reldir) new
       /\ (mode bank <> CACHE_USE ->
           Forall (loaded_within E (base bank) (N.to_nat maxdepth)
                     absdir reldir) new)
       /\ (tidy E -> reldir = None ->
           forall c names name p,
             DIR_SEP E = String c EmptyString ->
             Forall (delim_free (DIR_SEP E)) (names ++ [name]) ->
             In p new ->
             knows_file
               (join E (base bank) (join_with c (names ++ [name]))) p ->
             plugin_pattern E name
             /\ (List.length names < N.to_nat maxdepth)%nat).
Proof.
  intros H. pose proof H as Hs.
  apply AllocatePluginDir_walked in H
    as (Hb & Hm & _ & Hu & Hc & new & evs & Hl & Hp & _).
  apply AllocatePluginDir_surveyed in Hs
    as (new' & evs' & Hl' & _ & Hnew & _).
  assert (Heq : new' = new).
  { rewrite Hl in Hl'. apply app_inv_tail in Hl'.
    apply (f_equal (@rev _)) in Hl'. now rewrite !rev_involutive in Hl'. }
  subst new'.
  repeat (split; [assumption |]).
  exists new. split; [exact Hl |]. split; [exact Hp |]. split; [| split].
  - eapply Forall_impl; [| exact Hnew]. now intros p [Hp1 _].
  - intros Hne. eapply Forall_impl; [| exact Hnew].
    intros p [_ Hp2]. now apply Hp2.
  - intros Htidy -> c names name p Hsep Hnames Hin Hknows.
    rewrite Forall_forall in Hnew.
    destruct (Hnew _ Hin) as [(f & Hf & Hwithin) _].
    rewrite (knows_file_unique _ _ _ Hf Hknows) in Hwithin.
    eapply within_names; eauto.
Qed.

Lemma AllocatePluginDir_enrols_witness :
  exists b w' new,
    AllocatePluginDir busy_env
      (Build_module_bank_t "/plugins" CACHE_RESET [] []) 5 "/plugins"
      None empty_world = Done (b, w')
    /\ libs (modules w') = rev new
    /\ plugins b = new
    /\ Forall (loaded_within busy_env "/plugins" 5 "/plugins" None) new
    /\ forall p, In p new -> ~ knows_file "/plugins/libs/foo_plugin.so" p.
Proof.
  assert (Hrun : exists b w',
             AllocatePluginDir busy_env
               (Build_module_bank_t "/plugins" CACHE_RESET [] []) 5
               "/plugins" None empty_world = Done (b, w'))
    by (do 2 eexists; vm_compute; reflexivity).
  destruct Hrun as (b & w' & Hrun). exists b, w'.
  destruct (AllocatePluginDir_enrols _ _ _ _ _ _ _ _ Hrun)
    as (_ & _ & _ & _ & new & Hl & Hp & _ & Hfresh & Hname).
  simpl in Hl, Hp. rewrite app_nil_r in Hl.
  exists new. split; [exact Hrun |]. split; [exact Hl |].
  split; [exact Hp |]. split; [apply Hfresh; discriminate |].
  intros p Hin Hknows.
  destruct (Hname busy_env_tidy eq_refl "/"%char ["libs"%string]
              "foo_plugin.so"%string p eq_refl) as [[mid Hmid] _];
    [repeat (constructor; simpl) | exact Hin | exact Hknows
    | discriminate Hmid].
Defined.

Lemma AllocatePluginDir_entry_passed_over E rec bank maxdepth reldir file w :
  (forall b a r w0, maxdepth = 1%N -> rec b a r w0 = Done (b, w0)) ->
  passed_over E bank maxdepth reldir file ->
  AllocatePluginDir_entry E rec reldir bank file w = Done (bank, w).
Proof.
  intros Hrec Hpass. unfold AllocatePluginDir_entry.
  destruct (strcmp_eq file "." || strcmp_eq file "..") eqn:Hdot;
    [reflexivity |].
  fold (entry_relpath E reldir file).
  destruct (strdup_ok E (entry_relpath E reldir file)) eqn:Hrel;
    [| reflexivity].
  fold (entry_abspath E bank reldir file).
  destruct (strdup_ok E (entry_abspath E bank reldir file)) eqn:Habs;
    [| reflexivity].
  cbn [negb].
  destruct (vlc_stat E (entry_abspath E bank reldir file)) as [st |] eqn:Hst;
    [| reflexivity].
  destruct Hpass as [-> | [-> | [H | [H | [H | (st' & Hst' & Hk)]]]]];
    try (vm_compute in Hdot; discriminate); try congruence.
  assert (st' = st) as -> by congruence.
  destruct Hk as [Ho | [[Hr Hn] | [Hd Hone]]].
  - now rewrite Ho.
  - rewrite Hr. apply is_plugin_name_false in Hn. now rewrite Hn.
  - rewrite Hd. now apply Hrec.
Qed.

(** A directory in which there is nothing to scan leaves the scanning
    context and the world exactly as they were: entries named "." or
    "..", entries whose path cannot be allocated or that stat()
    rejects, entries that are neither regular files nor directories,
    regular files whose name does not have the plug-in pattern, and,
    once the depth is used up, directories, are all passed over, and so
    is everything when the depth argument is 0. *)
Theorem AllocatePluginDir_passes_over
  E bank maxdepth absdir reldir entries w :
  vlc_opendir E absdir = Some entries ->
  Forall (passed_over E bank maxdepth reldir) entries ->
  AllocatePluginDir E bank maxdepth absdir reldir w = Done (bank, w).
Proof.
  intros Hopen Hall. rewrite AllocatePluginDir_eq.
  destruct (maxdepth =? 0)%N; [reflexivity |]. rewrite Hopen. clear Hopen.
  induction Hall as [| file entries Hfile _ IH]; [reflexivity |].
  cbn [fold_each]. unfold bind at 1.
  rewrite (AllocatePluginDir_entry_passed_over E _ bank maxdepth);
    [exact IH | | exact Hfile].
  intros b a r w0 ->. now rewrite AllocatePluginDir_eq.
Qed.

Lemma AllocatePluginDir_passes_over_witness :
  AllocatePluginDir (flat_env "libfoo.so") flat_bank 5 "/plugins" None
    seeded_world = Done (flat_bank, seeded_world).
Proof.
  apply (AllocatePluginDir_passes_over (flat_env "libfoo.so") flat_bank 5
           "/plugins" None ["."; ".."; "libfoo.so"]%string seeded_world
           eq_refl).
  constructor; [now left |].
  constructor; [right; now left |].
  constructor; [| constructor].
  do 5 right. exists (Build_stat S_IFREG 10 100).
  split; [reflexivity |]. right. left. split; [reflexivity |].
  now apply is_plugin_name_false.
Defined.

(* ================================================================= *)
(** ** Further properties: the scan of a search root *)

Lemma for_each_destroy l :
  forall w,
    for_each l vlc_plugin_destroy w
    = Done (tt, Build_world (modules w) (trace w ++ map EvDestroy l)).
Proof.
  induction l as [| p l IH]; intros w; simpl.
  - rewrite app_nil_r. now destruct w.
  - unfold bind, vlc_plugin_destroy, emit at 1. rewrite IH. simpl.
    now rewrite <- app_assoc.
Qed.

(** What the scan of one search root leaves in the bank and in the
    trace; [left] are the cache entries that no file matched. *)
Lemma AllocatePluginPath_summary E root md w w' :
  AllocatePluginPath E root md w = Done (tt, w') ->
  usage (modules w') = usage (modules w)
  /\ (md <> CACHE_USE -> caches (modules w') = caches (modules w))
  /\ exists new evs left,
       libs (modules w') = rev new ++ libs (modules w)
       /\ Forall (enrolled_by E root md) new
       /\ Forall (walk_event E root) evs
       /\ (md <> CACHE_USE -> left = [])
       /\ trace w'
          = trace w
            ++ (if cache_mode_eqb md CACHE_USE then []
                else [EvMsg Dbg "ignoring plugins cache file"])
            ++ [browse_msg root]
            ++ evs ++ map EvDestroy left
            ++ (if cache_mode_eqb md CACHE_RESET
                then [EvCacheSave root new] else []).
Proof.
  intros H. unfold AllocatePluginPath in H.
  apply bind_inv in H as (bank1 & w1 & H1 & H).
  assert (S1 : base bank1 = root /\ mode bank1 = md /\ plugins bank1 = []
               /\ (md <> CACHE_USE -> cache bank1 = [])
               /\ usage (modules w1) = usage (modules w)
               /\ libs (modules w1) = libs (modules w)
               /\ (md <> CACHE_USE -> caches (modules w1) = caches (modules w))
               /\ trace w1
                  = trace w
                    ++ (if cache_mode_eqb md CACHE_USE then []
                        else [EvMsg Dbg "ignoring plugins cache file"])).
  { revert H1. destruct (cache_mode_eqb md CACHE_USE) eqn:Huse.
    - assert (md = CACHE_USE) as -> by (now destruct md).
      unfold vlc_cache_load.
      destruct (cache_file E root) as [[blob entries] |].
      + unfold bind, get_modules, put_modules, ret. simpl.
        intros [= <- <-]. simpl. rewrite app_nil_r.
        repeat split; auto; congruence.
      + unfold bind, ret. intros [= <- <-]. simpl. rewrite app_nil_r.
        repeat split; auto; congruence.
    - unfold bind, msg, emit, ret. intros [= <- <-]. simpl.
      repeat split; auto. }
  destruct S1 as (Hb1 & Hm1 & Hp1 & Hk1 & Hu1 & Hl1 & Hc1 & Htr1).
  apply bind_inv in H as ([] & w2 & H2 & H).
  unfold msg, emit in H2. injection H2 as <-.
  apply bind_inv in H as (bank3 & w3 & Hdir & H).
  apply AllocatePluginDir_walked in Hdir
    as (Hb3 & Hm3 & Hk3 & Hu3 & Hc3 & new & evs & Hl3 & Hp3 & Hnew
        & Htr3 & Hev).
  rewrite Hb1, Hm1 in *. cbn [modules trace] in *.
  apply bind_inv in H as ([] & w4 & H4 & H).
  rewrite for_each_destroy in H4. injection H4 as <-.
  assert (Hfinal : w' = Build_world (modules w3)
                          (trace w3 ++ map EvDestroy (cache bank3)
                           ++ (if cache_mode_eqb md CACHE_RESET
                               then [EvCacheSave root (plugins bank3)]
                               else []))).
  { revert H. destruct (cache_mode_eqb md CACHE_RESET).
    - unfold emit. simpl. intros [= <-]. now rewrite <- app_assoc.
    - intros [= <-]. simpl. now rewrite app_nil_r. }
  subst w'. cbn [modules trace].
  split; [congruence |]. split; [intros Hne; rewrite Hc3; auto |].
  exists new, evs, (cache bank3).
  split; [now rewrite Hl3, Hl1 |]. split; [exact Hnew |].
  split; [exact Hev |].
  split; [intros Hne; rewrite Hk3, Hk1; auto |].
  rewrite Htr3. cbn [trace]. rewrite Htr1, <- !app_assoc.
  do 4 f_equal.
  destruct md; simpl; [reflexivity | | reflexivity].
  rewrite Hp3, Hp1. reflexivity.
Qed.

(** In CACHE_RESET mode the cache file that is written for a search
    root lists exactly the descriptors that the scan of that root put
    into the bank, in the order of their discovery (the bank list holds
    them in the opposite order), and it is written last, after the walk.
    Each of these descriptors comes fresh from the dynamic loader and
    carries the relative path, mtime and size of its file, the key by
    which a later scan can find it again.  No cache is read: the blobs
    of the bank stay as they are. *)
Theorem AllocatePluginPath_reset_saves E root w w' :
  AllocatePluginPath E root CACHE_RESET w = Done (tt, w') ->
  usage (modules w') = usage (modules w)
  /\ caches (modules w') = caches (modules w)
  /\ exists new evs,
       libs (modules w') = rev new ++ libs (modules w)
       /\ Forall (loaded_from E root) new
       /\ Forall (walk_event E root) evs
       /\ trace w'
          = trace w
            ++ [EvMsg Dbg "ignoring plugins cache file"; browse_msg root]
            ++ evs ++ [EvCacheSave root new].
Proof.
  intros H. apply AllocatePluginPath_summary in H
    as (Hu & Hc & new & evs & left & Hl & Hnew & Hev & Hleft & Htr).
  assert (Hne : CACHE_RESET <> CACHE_USE) by discriminate.
  split; [exact Hu |]. split; [now apply Hc |].
  exists new, evs. split; [exact Hl |]. split.
  - eapply Forall_impl; [| exact Hnew]. intros p [_ Hp]. now apply Hp.
  - split; [exact Hev |].
    rewrite Htr, (Hleft Hne). reflexivity.
Qed.

Lemma AllocatePluginPath_reset_saves_witness :
  exists w' p,
    AllocatePluginPath (flat_env "libfoo_plugin.so") "/plugins" CACHE_RESET
      seeded_world = Done (tt, w')
    /\ libs (modules w') = p :: libs (modules seeded_world)
    /\ last (trace w') EvSortConfig = EvCacheSave "/plugins" [p].
Proof.
  assert (Hrun : exists w',
             AllocatePluginPath (flat_env "libfoo_plugin.so") "/plugins"
               CACHE_RESET seeded_world = Done (tt, w'))
    by (eexists; vm_compute; reflexivity).
  destruct Hrun as (w' & Hrun). exists w'.
  destruct (AllocatePluginPath_reset_saves _ _ _ _ Hrun)
    as (_ & _ & new & evs & Hl & _ & _ & Htr).
  assert (Hlen : List.length (libs (modules w')) = 2%nat).
  { revert Hrun. vm_compute. now intros [= <-]. }
  destruct new as [| p [| q new]].
  - rewrite Hl in Hlen. discriminate.
  - exists p. split; [exact Hrun |]. split; [exact Hl |].
    rewrite Htr, !app_assoc. apply last_last.
  - rewrite Hl, length_app, length_rev in Hlen. simpl in Hlen. lia.
Defined.

Lemma extends_refl P Q w : extends P Q w w.
Proof.
  split; [reflexivity |]. split; [reflexivity |].
  exists [], []. simpl. now rewrite app_nil_r.
Qed.

Lemma extends_trans P Q w1 w2 w3 :
  extends P Q w1 w2 -> extends P Q w2 w3 -> extends P Q w1 w3.
Proof.
  intros (Hu & Hc & new & evs & Hl & Hnew & Htr & Hev)
         (Hu' & Hc' & new' & evs' & Hl' & Hnew' & Htr' & Hev').
  split; [congruence |]. split; [congruence |].
  exists (new' ++ new), (evs ++ evs').
  split; [now rewrite Hl', Hl, app_assoc |].
  split; [apply Forall_app; auto |].
  split; [now rewrite Htr', Htr, app_assoc | apply Forall_app; auto].
Qed.

Lemma for_each_extends P Q {A} (l : list A) (body : A -> M unit) :
  (forall x w w', body x w = Done (tt, w') -> extends P Q w w') ->
  forall w w', for_each l body w = Done (tt, w') -> extends P Q w w'.
Proof.
  intros Hbody. induction l as [| x l IH]; intros w w' H; simpl in H.
  - injection H as <-. apply extends_refl.
  - apply bind_inv in H as ([] & w1 & H1 & H2).
    eapply extends_trans; [eapply Hbody | eapply IH]; eassumption.
Qed.

Lemma loaded_from_holds_handle E root p :
  loaded_from E root p -> holds_handle p.
Proof.
  intros (rel & st & _ & m & h & Hm & Hl & Hh & _). now exists m, h.
Qed.

Lemma walk_event_scan_event E root e :
  walk_event E root e -> is_scan_event e = true.
Proof. destruct e as [| | | | | | | []]; simpl; tauto. Qed.

Lemma AllocatePluginPath_ignore E root w w' :
  AllocatePluginPath E root CACHE_IGNORE w = Done (tt, w') ->
  extends holds_handle (fun e => is_scan_event e = true) w w'.
Proof.
  intros H. apply AllocatePluginPath_summary in H
    as (Hu & Hc & new & evs & left & Hl & Hnew & Hev & Hleft & Htr).
  assert (Hne : CACHE_IGNORE <> CACHE_USE) by discriminate.
  split; [exact Hu |]. split; [now apply Hc |].
  eexists (rev new), _. split; [exact Hl |]. split.
  { apply Forall_rev. eapply Forall_impl; [| exact Hnew].
    intros p [_ Hp]. eapply loaded_from_holds_handle. now apply Hp. }
  split; [exact Htr |].
  rewrite (Hleft Hne). simpl. repeat constructor.
  rewrite app_nil_r. eapply Forall_impl; [| exact Hev].
  intros e. apply walk_event_scan_event.
Qed.

(** With the plug-in cache switched off (plugins-cache is false) the
    scan of the search roots reads no cache file and writes none: the
    blobs of the bank and the count of users stay as they are, the
    trace only grows by linker calls, destructions of descriptors and
    messages, and every descriptor that enters the bank is loaded and
    holds its linker handle. *)
Theorem AllocateAllPlugins_without_cache E w w' :
  var_InheritBool E "plugins-cache" = false ->
  AllocateAllPlugins E w = Done (tt, w') ->
  usage (modules w') = usage (modules w)
  /\ caches (modules w') = caches (modules w)
  /\ exists new evs,
       libs (modules w') = new ++ libs (modules w)
       /\ Forall holds_handle new
       /\ trace w' = trace w ++ evs
       /\ Forall (fun e => is_scan_event e = true) evs.
Proof.
  intros Hoff H. unfold AllocateAllPlugins in H. rewrite Hoff in H.
  cbn [negb] in H.
  change (extends holds_handle (fun e => is_scan_event e = true) w w').
  apply bind_inv in H as ([] & w1 & H1 & H2).
  eapply extends_trans with (w2 := w1).
  - destruct (config_GetLibDir E) as [vlcpath |];
      [| injection H1 as <-; apply extends_refl].
    destruct (strdup_ok E _); [| injection H1 as <-; apply extends_refl].
    now apply AllocatePluginPath_ignore in H1.
  - destruct (getenv E "VLC_PLUGIN_PATH") as [paths |];
      [| injection H2 as <-; apply extends_refl].
    destruct (negb (strdup_ok E paths));
      [injection H2 as <-; apply extends_refl |].
    eapply for_each_extends; [| exact H2].
    intros root w0 w0'. apply AllocatePluginPath_ignore.
Qed.

Lemma AllocateAllPlugins_without_cache_witness :
  exists w' new,
    AllocateAllPlugins (flat_env "libfoo_plugin.so") seeded_world
    = Done (tt, w')
    /\ libs (modules w') = new ++ libs (modules seeded_world)
    /\ Forall holds_handle new
    /\ caches (modules w') = [].
Proof.
  assert (Hrun : exists w',
             AllocateAllPlugins (flat_env "libfoo_plugin.so") seeded_world
             = Done (tt, w'))
    by (eexists; vm_compute; reflexivity).
  destruct Hrun as (w' & Hrun). exists w'.
  destruct (AllocateAllPlugins_without_cache (flat_env "libfoo_plugin.so")
              _ _ eq_refl Hrun)
    as (_ & Hc & new & evs & Hl & Hnew & _).
  exists new. auto.
Defined.

(* ================================================================= *)
(** ** Further properties: the search roots *)

Lemma is_browse_msg_browse root : is_browse_msg (browse_msg root) = true.
Proof. reflexivity. Qed.

Lemma walk_event_not_browse E root e :
  walk_event E root e -> is_browse_msg e = false.
Proof. destruct e as [| | | | | | | []]; simpl; tauto. Qed.

Lemma filter_none {A} (f : A -> bool) l :
  Forall (fun x => f x = false) l -> filter f l = [].
Proof.
  induction 1 as [| x l Hx _ IH]; simpl; [reflexivity |].
  now rewrite Hx.
Qed.

(** The scan of one search root announces that root, once. *)
Lemma AllocatePluginPath_browsed E root md w w' :
  AllocatePluginPath E root md w = Done (tt, w') ->
  exists evs,
    trace w' = trace w ++ evs
    /\ filter is_browse_msg evs = [browse_msg root].
Proof.
  intros H. apply AllocatePluginPath_summary in H
    as (_ & _ & new & evs & left & _ & _ & Hev & _ & Htr).
  eexists. split; [exact Htr |].
  rewrite !filter_app.
  replace (filter is_browse_msg
             (if cache_mode_eqb md CACHE_USE then []
              else [EvMsg Dbg "ignoring plugins cache file"]))
    with (@nil event) by (now destruct (cache_mode_eqb md CACHE_USE)).
  replace (filter is_browse_msg evs) with (@nil event).
  2: { symmetry. apply filter_none. eapply Forall_impl; [| exact Hev].
       intros e. apply walk_event_not_browse. }
  replace (filter is_browse_msg (map EvDestroy left)) with (@nil event).
  2: { symmetry. apply filter_none. apply Forall_map.
       now apply Forall_forall. }
  replace (filter is_browse_msg
             (if cache_mode_eqb md CACHE_RESET
              then [EvCacheSave root new] else []))
    with (@nil event) by (now destruct (cache_mode_eqb md CACHE_RESET)).
  reflexivity.
Qed.

Lemma for_each_browsed E md (l : list string) :
  forall w w',
    for_each l (fun p => AllocatePluginPath E p md) w = Done (tt, w') ->
    exists evs,
      trace w' = trace w ++ evs
      /\ filter is_browse_msg evs = map browse_msg l.
Proof.
  induction l as [| root l IH]; intros w w' H; simpl in H.
  - injection H as <-. exists []. now rewrite app_nil_r.
  - apply bind_inv in H as ([] & w1 & H1 & H2).
    apply AllocatePluginPath_browsed in H1 as (evs1 & Htr1 & Hf1).
    apply IH in H2 as (evs2 & Htr2 & Hf2).
    exists (evs1 ++ evs2).
    split; [now rewrite Htr2, Htr1, app_assoc |].
    now rewrite filter_app, Hf1, Hf2.
Qed.

(** AllocateAllPlugins browses the search roots one after the other and
    each of them once: first the directory plugins below the library
    directory (when that directory is known and its name can be
    allocated), then the directories that VLC_PLUGIN_PATH lists, from
    left to right. *)
Theorem AllocateAllPlugins_browse_order E w w' :
  AllocateAllPlugins E w = Done (tt, w') ->
  exists evs,
    trace w' = trace w ++ evs
    /\ filter is_browse_msg evs = map browse_msg (search_roots E).
Proof.
  intros H. unfold AllocateAllPlugins in H.
  set (md := if negb (var_InheritBool E "plugins-cache") then CACHE_IGNORE
             else if var_InheritBool E "reset-plugins-cache"
                  then CACHE_RESET else CACHE_USE) in H.
  apply bind_inv in H as ([] & w1 & H1 & H2).
  assert (S1 : exists evs1,
             trace w1 = trace w ++ evs1
             /\ filter is_browse_msg evs1 = map browse_msg (default_root E)).
  { unfold default_root. destruct (config_GetLibDir E) as [vlcpath |].
    - destruct (strdup_ok E _).
      + now apply AllocatePluginPath_browsed in H1.
      + injection H1 as <-. exists []. now rewrite app_nil_r.
    - injection H1 as <-. exists []. now rewrite app_nil_r. }
  assert (S2 : exists evs2,
             trace w' = trace w1 ++ evs2
             /\ filter is_browse_msg evs2 = map browse_msg (user_roots E)).
  { unfold user_roots. destruct (getenv E "VLC_PLUGIN_PATH") as [paths |].
    - destruct (strdup_ok E paths); cbn [negb] in H2.
      + now apply for_each_browsed in H2.
      + injection H2 as <-. exists []. now rewrite app_nil_r.
    - injection H2 as <-. exists []. now rewrite app_nil_r. }
  destruct S1 as (evs1 & Htr1 & Hf1), S2 as (evs2 & Htr2 & Hf2).
  exists (evs1 ++ evs2).
  split; [now rewrite Htr2, Htr1, app_assoc |].
  unfold search_roots. now rewrite filter_app, map_app, Hf1, Hf2.
Qed.

Lemma AllocateAllPlugins_browse_order_witness :
  exists w' evs,
    AllocateAllPlugins two_roots_env seeded_world = Done (tt, w')
    /\ trace w' = trace seeded_world ++ evs
    /\ filter is_browse_msg evs
       = [ browse_msg "/usr/lib/vlc/plugins"; browse_msg "/plugins";
           browse_msg "/opt/vlc" ].
Proof.
  assert (Hrun : exists w',
             AllocateAllPlugins two_roots_env seeded_world = Done (tt, w'))
    by (eexists; vm_compute; reflexivity).
  destruct Hrun as (w' & Hrun). exists w'.
  destruct (AllocateAllPlugins_browse_order _ _ _ Hrun) as (evs & Htr & Hf).
  exists evs. split; [exact Hrun |]. split; [exact Htr | exact Hf].
Defined.

Lemma list_ascii_app a b :
  list_ascii_of_string (a ++ b)
  = list_ascii_of_string a ++ list_ascii_of_string b.
Proof. induction a as [| c a IH]; simpl; [reflexivity | now rewrite IH]. Qed.

Lemma strlen_zero s : (strlen s =? 0)%nat = true <-> s = EmptyString.
Proof. destruct s; simpl; split; congruence. Qed.

Lemma strtok_all_tokens delims s :
  forall cur,
    delim_free delims cur ->
    Forall (fun t => t <> EmptyString /\ delim_free delims t)
      (strtok_all delims s cur).
Proof.
  assert (Hcur : forall cur,
             delim_free delims cur ->
             Forall (fun t => t <> EmptyString /\ delim_free delims t)
               (if (strlen cur =? 0)%nat then [] else [cur])).
  { intros cur Hfree. destruct (strlen cur =? 0)%nat eqn:Hz;
      [constructor |].
    constructor; [| constructor]. split; [| exact Hfree].
    intros ->. discriminate. }
  induction s as [| c s IH]; intros cur Hfree; simpl.
  - now apply Hcur.
  - destruct (is_delim delims c) eqn:Hc.
    + apply Forall_app. split; [now apply Hcur |].
      apply IH. constructor.
    + apply IH. unfold delim_free. rewrite list_ascii_app.
      apply Forall_app. split; [exact Hfree |]. now repeat constructor.
Qed.

Lemma append_empty_r (s : string) : (s ++ EmptyString)%string = s.
Proof. induction s as [| c s IH]; simpl; congruence. Qed.

Lemma strtok_all_run delims t :
  delim_free delims t ->
  forall s cur,
    strtok_all delims (t ++ s) cur = strtok_all delims s (cur ++ t).
Proof.
  induction t as [| c t IH]; intros Hfree s cur; simpl.
  - now rewrite append_empty_r.
  - inversion Hfree as [| ? ? Hc Ht]; subst. rewrite Hc.
    rewrite (IH Ht). f_equal.
    clear. induction cur as [| d cur IH]; simpl; congruence.
Qed.

Lemma strtok_all_join delims sep ts :
  is_delim delims sep = true ->
  Forall (fun t => t <> EmptyString /\ delim_free delims t) ts ->
  strtok_all delims (join_with sep ts) EmptyString = ts.
Proof.
  intros Hsep. induction 1 as [| t ts [Hne Hfree] Hts IH]; [reflexivity |].
  assert (Hlen : (strlen t =? 0)%nat = false).
  { destruct (strlen t =? 0)%nat eqn:Hz; [| reflexivity].
    apply strlen_zero in Hz. contradiction. }
  destruct ts as [| t2 ts].
  - simpl. rewrite <- (append_empty_r t) at 1.
    rewrite (strtok_all_run _ _ Hfree). simpl. now rewrite Hlen.
  - change (join_with sep (t :: t2 :: ts))
      with (t ++ String sep (join_with sep (t2 :: ts)))%string.
    rewrite (strtok_all_run _ _ Hfree). cbn [strtok_all].
    rewrite Hsep. change (EmptyString ++ t)%string with t.
    rewrite Hlen, IH. reflexivity.
Qed.

(** The directories taken from VLC_PLUGIN_PATH are the maximal
    separator-free stretches of its value: none of them is empty, none
    contains a separator, so that leading, trailing and doubled
    separators give no root; and a value made of directories joined by a
    separator is split back into just these directories. *)
Theorem user_roots_tokens E :
  Forall (fun r => r <> EmptyString /\ delim_free (PATH_SEP E) r)
    (user_roots E)
  /\ forall sep dirs,
       is_delim (PATH_SEP E) sep = true ->
       Forall (fun t => t <> EmptyString /\ delim_free (PATH_SEP E) t) dirs ->
       getenv E "VLC_PLUGIN_PATH" = Some (join_with sep dirs) ->
       strdup_ok E (join_with sep dirs) = true ->
       user_roots E = dirs.
Proof.
  split.
  - unfold user_roots. destruct (getenv E "VLC_PLUGIN_PATH") as [paths |];
      [| constructor].
    destruct (strdup_ok E paths); [| constructor].
    apply strtok_all_tokens. constructor.
  - intros sep dirs Hsep Hdirs Henv Hdup. unfold user_roots.
    rewrite Henv, Hdup. now apply strtok_all_join.
Qed.

Lemma user_roots_tokens_witness :
  user_roots joined_env = ["/plugins"; "/opt/vlc"]%string
  /\ Forall (fun r => r <> EmptyString /\ delim_free ":" r)
       (user_roots two_roots_env).
Proof.
  split.
  - apply (proj2 (user_roots_tokens joined_env) ":"%char
             ["/plugins"; "/opt/vlc"]%string eq_refl);
      [| reflexivity | reflexivity].
    constructor; [split; [discriminate | repeat constructor] |].
    constructor; [split; [discriminate | repeat constructor] |].
    constructor.
  - exact (proj1 (user_roots_tokens two_roots_env)).
Defined.

(* ================================================================= *)
(** ** Further properties: the loading phase *)

Lemma appends_refl Q w : appends Q w w.
Proof. exists []. now rewrite app_nil_r. Qed.

Lemma appends_trans Q w1 w2 w3 :
  appends Q w1 w2 -> appends Q w2 w3 -> appends Q w1 w3.
Proof.
  intros (evs & Htr & Hev) (evs' & Htr' & Hev').
  exists (evs ++ evs').
  split; [now rewrite Htr', Htr, app_assoc | apply Forall_app; auto].
Qed.

Lemma for_each_appends Q {A} (l : list A) (body : A -> M unit) :
  (forall x w w', body x w = Done (tt, w') -> appends Q w w') ->
  forall w w', for_each l body w = Done (tt, w') -> appends Q w w'.
Proof.
  intros Hbody. induction l as [| x l IH]; intros w w' H; simpl in H.
  - injection H as <-. apply appends_refl.
  - apply bind_inv in H as ([] & w1 & H1 & H2).
    eapply appends_trans; [eapply Hbody | eapply IH]; eassumption.
Qed.

Lemma walk_event_not_sort E root e :
  walk_event E root e -> is_sort_event e = false.
Proof. destruct e as [| | | | | | | []]; simpl; tauto. Qed.

Lemma AllocatePluginPath_no_sort E root md w w' :
  AllocatePluginPath E root md w = Done (tt, w') ->
  appends (fun e => is_sort_event e = false) w w'.
Proof.
  intros H. apply AllocatePluginPath_summary in H
    as (_ & _ & new & evs & left & _ & _ & Hev & _ & Htr).
  eexists. split; [exact Htr |].
  apply Forall_app. split;
    [destruct (cache_mode_eqb md CACHE_USE); repeat constructor |].
  constructor; [reflexivity |].
  apply Forall_app. split.
  { eapply Forall_impl; [| exact Hev]. intros e. apply walk_event_not_sort. }
  apply Forall_app. split.
  { apply Forall_map. now apply Forall_forall. }
  destruct (cache_mode_eqb md CACHE_RESET); repeat constructor.
Qed.

Lemma AllocateAllPlugins_no_sort E w w' :
  AllocateAllPlugins E w = Done (tt, w') ->
  appends (fun e => is_sort_event e = false) w w'.
Proof.
  intros H. unfold AllocateAllPlugins in H.
  apply bind_inv in H as ([] & w1 & H1 & H2).
  eapply appends_trans with (w2 := w1).
  - destruct (config_GetLibDir E) as [vlcpath |];
      [| injection H1 as <-; apply appends_refl].
    destruct (strdup_ok E _); [| injection H1 as <-; apply appends_refl].
    now apply AllocatePluginPath_no_sort in H1.
  - destruct (getenv E "VLC_PLUGIN_PATH") as [paths |];
      [| injection H2 as <-; apply appends_refl].
    destruct (negb (strdup_ok E paths));
      [injection H2 as <-; apply appends_refl |].
    eapply for_each_appends; [| exact H2].
    intros root w0 w0'. apply AllocatePluginPath_no_sort.
Qed.

Lemma enrol_static_inv E table :
  forall w w',
    for_each table
      (fun entry =>
         lib <- module_InitStatic E entry ;;
         match lib with
         | Some lib => module_StoreBank lib
         | None => ret tt
         end) w = Done (tt, w') ->
    Forall has_module (described E table).
Proof.
  induction table as [| entry table IH]; intros w w' H.
  - constructor.
  - rewrite described_cons. cbn [for_each] in H.
    apply bind_inv in H as ([] & w1 & H1 & H2).
    apply IH in H2. apply Forall_app. split; [| exact H2].
    unfold module_InitStatic in H1.
    destruct (vlc_plugin_describe E entry) as [lib |]; [| constructor].
    constructor; [| constructor].
    destruct (module lib) as [m |] eqn:Hm; [now exists m |].
    discriminate.
Qed.

Lemma module_InitStaticModules_inv E w w' :
  module_InitStaticModules E w = Done (tt, w') ->
  w' = Build_world
         (Build_modules_t
            (rev (map static_stamp (described E (static_table E)))
             ++ libs (modules w))
            (caches (modules w)) (usage (modules w)))
         (trace w).
Proof.
  unfold module_InitStaticModules, static_table.
  destruct (vlc_static_modules E) as [table |].
  - intros H. pose proof (enrol_static_inv _ _ _ _ H) as Hmods.
    rewrite (enrol_static_Done _ _ Hmods) in H. now injection H as <-.
  - intros [= <-]. simpl. now rewrite world_eta.
Qed.

(** The module_LoadPlugins of the one and only user fills the bank from
    the bottom up: on top of what the bank held (the core) come the
    statically linked plug-ins, in the order of their table, and on top
    of these whatever the scan of the search roots found.  The
    configuration is unsorted and sorted again exactly once, after the
    whole scan and before the count is printed; the count of users is
    still 1 and no blob has left the bank. *)
Theorem module_LoadPlugins_first_user E w n w' :
  usage (modules w) = 1%N ->
  module_LoadPlugins E w = Done (n, w') ->
  usage (modules w') = 1%N
  /\ (exists c, caches (modules w') = c ++ caches (modules w))
  /\ exists dyn evs,
       libs (modules w')
       = dyn ++ rev (map static_stamp (described E (static_table E)))
           ++ libs (modules w)
       /\ trace w'
          = trace w
            ++ EvMsg Dbg "searching plug-in modules" :: evs
            ++ [ EvUnsortConfig; EvSortConfig;
                 EvMsg Dbg "plug-ins loaded: %zu modules" ]
       /\ Forall (fun e => is_sort_event e = false) evs.
Proof.
  intros Hone H. unfold module_LoadPlugins in H.
  apply bind_inv in H as (m & w0 & H0 & H).
  injection H0 as <- <-. rewrite Hone in H. simpl in H.
  apply bind_inv in H as ([] & w5 & Hscan & H).
  apply bind_inv in Hscan as ([] & w1 & Hstatic & Hscan).
  apply module_InitStaticModules_inv in Hstatic.
  apply bind_inv in Hscan as ([] & w2 & Hmsg & Hscan).
  unfold msg, emit in Hmsg. injection Hmsg as <-.
  apply bind_inv in Hscan as ([] & w3 & Hall & Hscan).
  pose proof (growing_AllocateAllPlugins E _ _ _ Hall)
    as (Hu3 & (dyn & Hl3) & (c & Hc3)).
  apply AllocateAllPlugins_no_sort in Hall as (evs & Htr3 & Hev).
  apply bind_inv in Hscan as ([] & w4 & Hunsort & Hsort).
  unfold emit in Hunsort, Hsort.
  injection Hunsort as <-. injection Hsort as <-.
  apply bind_inv in H as ([t k] & w6 & Hlist & H).
  apply module_list_get_world in Hlist. subst w6.
  unfold bind, msg, emit, ret in H. injection H as <- <-.
  subst w1. cbn [modules trace libs caches usage] in *.
  split; [congruence |].
  split; [now exists c |].
  exists dyn, evs. split; [exact Hl3 |]. split; [| exact Hev].
  rewrite Htr3, <- !app_assoc. reflexivity.
Qed.

Lemma module_LoadPlugins_first_user_witness :
  exists n w',
    module_LoadPlugins static_env seeded_world = Done (n, w')
    /\ map (fun p => option_map psz_shortname (module p)) (libs (modules w'))
       = [Some "third"; Some "first"; Some "core"]%string
    /\ usage (modules w') = 1%N.
Proof.
  assert (Hrun : exists n w',
             module_LoadPlugins static_env seeded_world = Done (n, w'))
    by (do 2 eexists; vm_compute; reflexivity).
  destruct Hrun as (n & w' & Hrun). exists n, w'.
  destruct (module_LoadPlugins_first_user static_env seeded_world n w'
              eq_refl Hrun) as (Hu & _).
  split; [exact Hrun |]. split; [| exact Hu].
  revert Hrun. vm_compute. now intros [= _ <-].
Defined.

(* ================================================================= *)
(** ** Further properties: the flat list of modules *)

Lemma all_modules_cons p ls m :
  module p = Some m ->
  all_modules (p :: ls) = plugin_modules m ++ all_modules ls.
Proof.
  intros Hm. unfold all_modules. cbn [flat_map].
  unfold descriptor_modules at 1. now rewrite Hm.
Qed.

Lemma total_modules_cons p ls m :
  module p = Some m ->
  total_modules (p :: ls) = (1 + submodule_count m + total_modules ls)%nat.
Proof.
  intros Hm. unfold total_modules. cbn [map list_sum fold_right].
  unfold descriptor_count at 1. now rewrite Hm.
Qed.

(** One turn of the loop of module_list_get on a descriptor whose
    counter agrees with its chain. *)
Lemma module_list_get_loop_step E p ls m written :
  module p = Some m ->
  submodule_count m = List.length (submodule m) ->
  module_list_get_loop E (p :: ls) (map Some written) (List.length written)
  = if malloc_ok E (List.length written + 1 + submodule_count m)
    then module_list_get_loop E ls
           (map Some (written ++ plugin_modules m))
           (List.length (written ++ plugin_modules m))
    else Done (None, 0%nat).
Proof.
  intros Hm Hcount. cbn [module_list_get_loop]. rewrite Hm.
  destruct (malloc_ok E (List.length written + 1 + submodule_count m));
    [| reflexivity].
  rewrite realloc_grow by (rewrite length_map; lia).
  rewrite length_map.
  replace (List.length written + 1 + submodule_count m - List.length written)%nat
    with (S (submodule_count m)) by lia.
  simpl repeat.
  rewrite <- (length_map Some written) at 1.
  rewrite store_next.
  replace (S (List.length written))
    with (List.length (map Some written ++ [Some m]))
    by (rewrite length_app, length_map; simpl; lia).
  rewrite Hcount.
  rewrite <- (Nat.add_0_r (List.length (submodule m))) at 1.
  rewrite store_chain_fill. simpl repeat. rewrite app_nil_r.
  replace ((map Some written ++ [Some m]) ++ map Some (submodule m))
    with (map Some (written ++ plugin_modules m))
    by (unfold plugin_modules; rewrite !map_app; simpl;
        now rewrite <- app_assoc).
  replace (List.length (map Some written ++ [Some m])
           + List.length (submodule m))%nat
    with (List.length (written ++ plugin_modules m))
    by (unfold plugin_modules; rewrite !length_app, length_map; simpl; lia).
  reflexivity.
Qed.

Lemma module_list_get_loop_alloc E ls :
  Forall wf_plugin ls ->
  forall written,
    module_list_get_loop E ls (map Some written) (List.length written)
    = Done (if forallb (malloc_ok E) (requests ls (List.length written))
            then (table_of (written ++ all_modules ls),
                  (List.length written + total_modules ls)%nat)
            else (None, 0%nat)).
Proof.
  induction 1 as [| p ls (m & Hm & Hcount) _ IH]; intros written.
  - simpl. rewrite app_nil_r, Nat.add_0_r. now destruct written.
  - rewrite (module_list_get_loop_step E p ls m written Hm Hcount).
    cbn [requests forallb]. unfold descriptor_count at 1 2. rewrite Hm.
    replace (List.length written + (1 + submodule_count m))%nat
      with (List.length written + 1 + submodule_count m)%nat by lia.
    destruct (malloc_ok E (List.length written + 1 + submodule_count m));
      [| reflexivity].
    rewrite IH. cbn [andb].
    replace (List.length (written ++ plugin_modules m))
      with (List.length written + 1 + submodule_count m)%nat
      by (unfold plugin_modules; rewrite length_app; simpl; lia).
    rewrite (all_modules_cons p ls m Hm), (total_modules_cons p ls m Hm).
    rewrite <- app_assoc.
    replace (List.length written + 1 + submodule_count m + total_modules ls)%nat
      with (List.length written + (1 + submodule_count m + total_modules ls))%nat
      by lia.
    reflexivity.
Qed.

(** module_list_get gives all or nothing.  On a bank whose descriptors
    are well formed it asks realloc once per descriptor, each time for
    the running total of modules; when every request is granted the
    table holds all the modules of the bank and the count is their
    number, and as soon as one request fails the result is NULL with a
    count of 0, never a partial table.  The bank itself is not
    touched. *)
Theorem module_list_get_all_or_nothing E w :
  wf_bank w ->
  module_list_get E w
  = Done ((if forallb (malloc_ok E) (requests (libs (modules w)) 0)
           then (table_of (all_modules (libs (modules w))),
                 total_modules (libs (modules w)))
           else (None, 0%nat)), w).
Proof.
  intros Hwf. unfold module_list_get.
  change (@nil (option module_t)) with (map (@Some module_t) []).
  change 0%nat with (List.length (@nil module_t)) at 1.
  rewrite (module_list_get_loop_alloc E _ Hwf []).
  reflexivity.
Qed.

Lemma module_list_get_all_or_nothing_witness :
  module_list_get starved_env seeded_world
  = Done ((None, 0%nat), seeded_world).
Proof.
  assert (Hwf : wf_bank seeded_world).
  { unfold wf_bank. simpl.
    constructor; [eexists; split; reflexivity | constructor]. }
  exact (module_list_get_all_or_nothing starved_env seeded_world Hwf).
Defined.

Lemma module_list_get_loop_prefix E pre :
  Forall wf_plugin pre -> (forall n, malloc_ok E n = true) ->
  forall rest written,
    module_list_get_loop E (pre ++ rest) (map Some written)
      (List.length written)
    = module_list_get_loop E rest
        (map Some (written ++ all_modules pre))
        (List.length (written ++ all_modules pre)).
Proof.
  intros Hwf Hmalloc.
  induction Hwf as [| p pre (m & Hm & Hcount) _ IH]; intros rest written.
  - simpl. now rewrite app_nil_r.
  - rewrite <- app_comm_cons.
    rewrite (module_list_get_loop_step E p _ m written Hm Hcount).
    rewrite Hmalloc, IH, (all_modules_cons p pre m Hm).
    now rewrite <- app_assoc.
Qed.

Lemma store_chain_overflow subs :
  forall (pre : table) k,
    (k < List.length subs)%nat ->
    store_chain (pre ++ repeat None k) (List.length pre) subs = None.
Proof.
  induction subs as [| s subs IH]; intros pre k Hk; simpl in Hk; [lia |].
  destruct k as [| k]; cbn [store_chain repeat].
  - rewrite app_nil_r. unfold store.
    now rewrite Nat.ltb_irrefl.
  - rewrite store_next.
    replace (S (List.length pre)) with (List.length (pre ++ [Some s]))
      by (rewrite length_app; simpl; lia).
    apply IH. lia.
Qed.

(** module_list_get trusts the counters.  When a descriptor announces
    fewer submodules than its chain holds, the table is reallocated for
    the announced number and the loop over the chain then writes past
    its end: the call is undefined, even though every allocation
    succeeds. *)
Theorem module_list_get_undercount E w pre p rest m :
  libs (modules w) = pre ++ p :: rest ->
  Forall wf_plugin pre ->
  module p = Some m ->
  (submodule_count m < List.length (submodule m))%nat ->
  (forall n, malloc_ok E n = true) ->
  module_list_get E w = Undefined.
Proof.
  intros Hlibs Hwf Hm Hunder Hmalloc. unfold module_list_get.
  rewrite Hlibs.
  change (@nil (option module_t)) with (map (@Some module_t) []).
  change 0%nat with (List.length (@nil module_t)) at 1.
  rewrite (module_list_get_loop_prefix E pre Hwf Hmalloc).
  set (written := [] ++ all_modules pre).
  cbn [module_list_get_loop]. rewrite Hm, Hmalloc.
  rewrite realloc_grow by (rewrite length_map; lia).
  rewrite length_map.
  replace (List.length written + 1 + submodule_count m - List.length written)%nat
    with (S (submodule_count m)) by lia.
  simpl repeat.
  rewrite <- (length_map Some written) at 1.
  rewrite store_next.
  replace (S (List.length written))
    with (List.length (map Some written ++ [Some m]))
    by (rewrite length_app, length_map; simpl; lia).
  now rewrite (store_chain_overflow _ _ _ Hunder).
Qed.

Lemma module_list_get_undercount_witness :
  module_list_get trio_env miscounted_world = Undefined.
Proof.
  apply (module_list_get_undercount trio_env miscounted_world
           [core_plugin]
           (mk_plugin
              (Build_module_t "main" "x" 30 false true None None 0 []
                 [mk_module "sub_a" "y" 20; mk_module "sub_b" "x" 40] 1))
           []
           (Build_module_t "main" "x" 30 false true None None 0 []
              [mk_module "sub_a" "y" 20; mk_module "sub_b" "x" 40] 1)
           eq_refl).
  - constructor; [eexists; split; reflexivity | constructor].
  - reflexivity.
  - simpl. lia.
  - reflexivity.
Defined.

(* ================================================================= *)
(** ** Further properties: the list of the modules with a capability *)

Lemma module_list_cap_spec_witness :
  exists tab,
    module_list_cap (flat_env "libfoo_plugin.so") "x" ordinary_world
    = Done ((Some tab, 2%Z), ordinary_world)
    /\ Permutation tab [mk_module "A" "x" 50; mk_module "B" "x" 80]
    /\ StronglySorted by_score_desc tab.
Proof.
  assert (Hmods : Forall has_module (libs (modules ordinary_world)))
    by (repeat constructor; eexists; reflexivity).
  destruct (proj1 (module_list_cap_spec (flat_env "libfoo_plugin.so") "x"
                     ordinary_world Hmods) eq_refl)
    as (tab & Hrun & Hperm & Hsorted).
  exists tab. split; [exact Hrun |]. split; [exact Hperm |].
  apply Hsorted. intros a b Ha Hb. simpl in Ha, Hb.
  destruct Ha as [<- | [<- | []]], Hb as [<- | [<- | []]];
    vm_compute; split; discriminate.
Defined.

(** When no module of the bank provides the capability, the table that
    module_list_cap asks for has no cell: the result is 0 with an empty
    table when malloc(0) gives a pointer, and it is -1 with NULL, the
    result of an allocation failure, when malloc(0) gives NULL. *)
Theorem module_list_cap_no_provider E cap w :
  Forall has_module (libs (modules w)) ->
  providers E cap (libs (modules w)) = [] ->
  module_list_cap E cap w
  = Done ((if malloc_ok E 0 then (Some [], 0%Z) else (None, (-1)%Z)), w).
Proof.
  intros Hmods Hnone. unfold module_list_cap.
  rewrite (module_list_cap_pure_spec E cap _ Hmods), Hnone. simpl.
  now destruct (malloc_ok E 0).
Qed.

Lemma module_list_cap_no_provider_witness :
  module_list_cap (flat_env "libfoo_plugin.so") "z" ordinary_world
  = Done ((Some [], 0%Z), ordinary_world)
  /\ module_list_cap starved_env "z" ordinary_world
     = Done ((None, (-1)%Z), ordinary_world).
Proof.
  assert (Hmods : Forall has_module (libs (modules ordinary_world)))
    by (repeat constructor; eexists; reflexivity).
  split.
  - exact (module_list_cap_no_provider (flat_env "libfoo_plugin.so") "z"
             ordinary_world Hmods eq_refl).
  - exact (module_list_cap_no_provider starved_env "z" ordinary_world
             Hmods eq_refl).
Defined.

(** The two enumerations agree: the table of module_list_cap holds
    exactly those modules of the table of module_list_get that provide
    the capability, each as often as it occurs there, so that it is
    never longer than the flat list. *)
Theorem module_list_cap_within_list_get E cap w :
  wf_bank w -> (forall n, malloc_ok E n = true) ->
  exists tab,
    module_list_cap E cap w
    = Done ((Some tab, Z.of_nat (List.length tab)), w)
    /\ module_list_get E w
       = Done ((table_of (all_modules (libs (modules w))),
                List.length (all_modules (libs (modules w)))), w)
    /\ Permutation tab
         (filter (fun m => module_provides E m cap)
            (all_modules (libs (modules w))))
    /\ (forall m, In m tab <->
                  In m (all_modules (libs (modules w)))
                  /\ module_provides E m cap = true)
    /\ (List.length tab <= List.length (all_modules (libs (modules w))))%nat.
Proof.
  intros Hwf Hmalloc.
  assert (Hmods : Forall has_module (libs (modules w))).
  { eapply Forall_impl; [| exact Hwf]. intros p (m & Hm & _). now exists m. }
  exists (qsort modulecmp (providers E cap (libs (modules w)))).
  pose proof (qsort_perm modulecmp (providers E cap (libs (modules w))))
    as Hperm.
  split.
  { unfold module_list_cap.
    rewrite (module_list_cap_pure_spec E cap _ Hmods), Hmalloc.
    now rewrite (Permutation_length Hperm). }
  split.
  { rewrite (module_list_get_spec E w Hwf Hmalloc).
    now rewrite (all_modules_length _ Hwf). }
  split; [exact Hperm |]. split.
  - intros m.
    rewrite <- (filter_In (fun m0 => module_provides E m0 cap)).
    fold (providers E cap (libs (modules w))).
    split; intros Hin.
    + eapply Permutation_in; [exact Hperm | exact Hin].
    + eapply Permutation_in; [symmetry; exact Hperm | exact Hin].
  - rewrite (Permutation_length Hperm). apply filter_length_le.
Qed.

Lemma module_list_cap_within_list_get_witness :
  exists tab,
    module_list_cap (flat_env "libfoo_plugin.so") "x" ordinary_world
    = Done ((Some tab, Z.of_nat (List.length tab)), ordinary_world)
    /\ (List.length tab <= 3)%nat.
Proof.
  assert (Hwf : wf_bank ordinary_world).
  { unfold wf_bank. simpl.
    repeat (constructor; [eexists; split; reflexivity |]). constructor. }
  destruct (module_list_cap_within_list_get (flat_env "libfoo_plugin.so")
              "x" ordinary_world Hwf (fun _ => eq_refl))
    as (tab & Hcap & _ & _ & _ & Hlen).
  exists tab. split; [exact Hcap | exact Hlen].
Defined.

Lemma wrap_int_range z : (INT_MIN <= wrap_int z <= INT_MAX)%Z.
Proof.
  unfold wrap_int, INT_MIN, INT_MAX.
  pose proof (Z.mod_pos_bound (z - -2147483648) 4294967296 eq_refl). lia.
Qed.

Lemma wrap_int_zero z :
  (- 4294967296 < z < 4294967296)%Z -> wrap_int z = 0%Z -> z = 0%Z.
Proof.
  unfold wrap_int, INT_MIN. intros Hz H.
  pose proof (Z.div_mod (z - -2147483648) 4294967296) as Hdm.
  assert (Hr : ((z - -2147483648) mod 4294967296 = 2147483648)%Z) by lia.
  rewrite Hr in Hdm.
  assert (Hq : ((z - -2147483648) / 4294967296 = 0)%Z) by lia.
  lia.
Qed.

(** The comparison function of module_list_cap on scores that an [int]
    holds: its result is an [int]; it is 0 exactly when the two scores
    are equal; and whenever the difference of the scores is itself an
    [int], as it is for two scores of the same sign, the result is that
    difference, negative exactly when the first module has the higher
    score, so that qsort puts it first. *)
Theorem modulecmp_order a b :
  int_score a -> int_score b ->
  (INT_MIN <= modulecmp a b <= INT_MAX)%Z
  /\ (modulecmp a b = 0%Z <-> i_score a = i_score b)
  /\ ((INT_MIN <= i_score b - i_score a <= INT_MAX)%Z ->
      modulecmp a b = (i_score b - i_score a)%Z
      /\ (modulecmp a b < 0 <-> i_score b < i_score a)%Z
      /\ (modulecmp b a = - modulecmp a b \/ modulecmp a b = INT_MIN)%Z)
  /\ ((0 <= i_score a)%Z -> (0 <= i_score b)%Z ->
      modulecmp a b = (i_score b - i_score a)%Z)
  /\ ((i_score a < 0)%Z -> (i_score b < 0)%Z ->
      modulecmp a b = (i_score b - i_score a)%Z).
Proof.
  unfold int_score, modulecmp. intros Ha Hb.
  split; [apply wrap_int_range |].
  split.
  { split.
    - intros H. apply wrap_int_zero in H; unfold INT_MIN, INT_MAX in *; lia.
    - intros ->. now rewrite Z.sub_diag. }
  split.
  { intros Hd. rewrite (wrap_int_id _ Hd).
    split; [reflexivity |]. split; [lia |].
    destruct (Z.eq_dec (i_score b - i_score a) INT_MIN) as [Hmin | Hne];
      [now right | left].
    rewrite wrap_int_id; unfold INT_MIN, INT_MAX in *; lia. }
  split; intros Ha' Hb'; apply wrap_int_id;
    unfold INT_MIN, INT_MAX in *; lia.
Qed.

Lemma modulecmp_order_witness :
  modulecmp (mk_module "A" "x" 50) (mk_module "B" "x" 80) = 30%Z
  /\ (modulecmp low_module top_module = 0%Z
      <-> i_score low_module = i_score top_module).
Proof.
  assert (Ha : int_score (mk_module "A" "x" 50))
    by (vm_compute; split; discriminate).
  assert (Hb : int_score (mk_module "B" "x" 80))
    by (vm_compute; split; discriminate).
  assert (Hl : int_score low_module) by (vm_compute; split; discriminate).
  assert (Ht : int_score top_module) by (vm_compute; split; discriminate).
  split.
  - destruct (modulecmp_order _ _ Ha Hb) as (_ & _ & _ & Hpos & _).
    apply Hpos; vm_compute; discriminate.
  - exact (proj1 (proj2 (modulecmp_order _ _ Hl Ht))).
Defined.

(* ================================================================= *)
(** ** Further properties: lazy mapping *)

Lemma nth_error_upd_other {A} (l : list A) :
  forall i j x, i <> j -> nth_error (upd l j x) i = nth_error l i.
Proof.
  induction l as [| a l IH]; intros [| i] [| j] x Hne; simpl;
    try reflexivity; try congruence.
  apply IH. congruence.
Qed.

(** module_Map returns 0 or -1 and only ever touches the descriptor it
    was asked to map: every other descriptor of the bank stays as it was,
    and so do the count of users and the blobs.  When it returns -1 the
    whole bank is as before and the last thing the call did was to report
    the corrupt module.  The call asks the dynamic linker for at most one
    Load, of the file that the module names, with fast = false. *)
Theorem module_Map_frame E r w z w' :
  module_Map E r w = Done (z, w') ->
  (z = 0%Z \/ z = (-1)%Z)
  /\ (forall i, i <> ref_plugin r ->
        nth_error (libs (modules w')) i = nth_error (libs (modules w)) i)
  /\ usage (modules w') = usage (modules w)
  /\ caches (modules w') = caches (modules w)
  /\ (exists evs,
        trace w' = trace w ++ evs
        /\ (count_loads evs <= 1)%nat
        /\ forall f fast, In (EvLoad f fast) evs ->
             fast = false
             /\ exists plugin m,
                  nth_error (libs (modules w)) (ref_plugin r) = Some plugin
                  /\ module plugin = Some m
                  /\ psz_filename m = Some f)
  /\ (z = (-1)%Z ->
      modules w' = modules w
      /\ exists file,
           last (trace w') EvSortConfig
           = EvMsg Err ("corrupt module: " ++ file)).
Proof.
  unfold module_Map. unfold bind at 1, get_modules.
  destruct (nth_error (libs (modules w)) (ref_plugin r)) as [plugin |] eqn:Hp;
    [| discriminate].
  destruct (module plugin) as [m |] eqn:Hm; [| discriminate].
  destruct (b_loaded m); cbn [negb]; cbv beta iota.
  - intros [= <- <-].
    split; [now left |]. split; [reflexivity |].
    split; [reflexivity |]. split; [reflexivity |].
    split; [| discriminate].
    exists []. rewrite app_nil_r. split; [reflexivity |].
    split; [unfold count_loads; simpl; lia |]. intros f fast [].
  - destruct (psz_filename m) as [file |] eqn:Hfile; [| discriminate].
    intros H. apply bind_inv in H as (u & w1 & Hdyn & H).
    apply module_InitDynamic_cases in Hdyn as (Hmods & evs & Htr & Hcase).
    assert (Hloads : count_loads evs = 0%nat
                     /\ forall f fast, ~ In (EvLoad f fast) evs).
    { destruct (module_Load E file false) as [h |], u as [q |];
        try contradiction.
      - destruct Hcase as [-> _]. split; [reflexivity | now intros f fast []].
      - destruct Hcase as (pre & -> & Hpre).
        rewrite count_loads_app, (notes_no_load _ Hpre).
        split; [reflexivity |]. intros f fast Hin.
        apply in_app_or in Hin as [Hin | [Hin | []]]; [| discriminate].
        rewrite forallb_forall in Hpre. apply Hpre in Hin. discriminate.
      - subst evs. split; [reflexivity | now intros f fast []]. }
    destruct Hloads as [Hcount Hnone].
    assert (Hown : forall f fast,
               In (EvLoad f fast) (EvLoad file false :: evs) ->
               fast = false
               /\ exists plugin0 m0,
                    Some plugin = Some plugin0
                    /\ module plugin0 = Some m0
                    /\ psz_filename m0 = Some f).
    { intros f fast [Hin | Hin]; [| now apply Hnone in Hin].
      injection Hin as <- <-. split; [reflexivity |]. now exists plugin, m. }
    destruct u as [q |].
    + destruct (module q) as [fresh |]; [| discriminate].
      unfold bind, get_modules, put_modules, vlc_plugin_destroy, emit, ret
        in H.
      simpl in H. injection H as <- <-. cbn [modules trace libs caches usage].
      rewrite Hmods.
      split; [now left |].
      split; [intros i Hi; now apply nth_error_upd_other |].
      split; [reflexivity |]. split; [reflexivity |].
      split; [| discriminate].
      eexists. rewrite Htr, <- app_assoc. split; [reflexivity |].
      split; [| intros f fast Hin].
      * change (EvLoad file false :: evs)
          with ([EvLoad file false] ++ evs).
        rewrite !count_loads_app, Hcount. unfold count_loads. simpl. lia.
      * apply in_app_or in Hin as [Hin | [Hin | []]]; [| discriminate].
        now apply Hown.
    + unfold bind, msg, emit, ret in H. simpl in H.
      injection H as <- <-. cbn [modules trace libs caches usage].
      rewrite Hmods.
      split; [now right |]. split; [reflexivity |].
      split; [reflexivity |]. split; [reflexivity |].
      split.
      * eexists. rewrite Htr, <- app_assoc. split; [reflexivity |].
        split; [| intros f fast Hin].
        -- change (EvLoad file false :: evs)
             with ([EvLoad file false] ++ evs).
           rewrite !count_loads_app, Hcount. unfold count_loads. simpl. lia.
        -- apply in_app_or in Hin as [Hin | [Hin | []]]; [| discriminate].
           now apply Hown.
      * intros _. split; [reflexivity |]. exists file. apply last_last.
Qed.

Lemma module_Map_frame_witness :
  exists w',
    module_Map (flat_env "libfoo_plugin.so") (Build_module_ref 0) cached_world
    = Done (0%Z, w')
    /\ nth_error (libs (modules w')) 1 = Some core_plugin
    /\ usage (modules w') = 1%N.
Proof.
  assert (Hrun : exists w',
             module_Map (flat_env "libfoo_plugin.so") (Build_module_ref 0)
               cached_world = Done (0%Z, w'))
    by (eexists; vm_compute; reflexivity).
  destruct Hrun as (w' & Hrun). exists w'.
  destruct (module_Map_frame _ _ _ _ _ Hrun) as (_ & Hother & Hu & _).
  split; [exact Hrun |]. split; [| exact Hu].
  rewrite (Hother 1%nat); [reflexivity | discriminate].
Defined.







(** *** A walk that returns *)












